(** * goxz: build-matrix orchestration, verified against its Go source

    A shallow embedding of [goxz.go] (package [goxz]): platform-matrix
    resolution, destination set-up, resource gathering, package-path
    rewriting, flag parsing and the run loop.

    Go strings are byte sequences: they are modelled by [string] (a list
    of 8-bit characters).  The functions of the Go standard library that
    the source calls are modelled in modules named after their packages
    ([utf8], [unicode], [strings], [regexp], [filepath], [os], [ioutil],
    [flag]), for a Unix target. *)

From Stdlib Require Import NArith Ascii.
From stdpp Require Import gmap strings list sorting.

(** ** Errors

    Go's [error] values.  [nil] is [None] in an [option error]. *)

Inductive error :=
| ErrHelp                 (* flag.ErrHelp *)
| ErrFlag (msg : string)  (* any other error of flag.Parse *)
| ErrExist                (* EEXIST:  os.IsExist holds *)
| ErrNotExist             (* ENOENT *)
| ErrNotDir               (* ENOTDIR *)
| ErrIsDir                (* EISDIR *)
| ErrNotEmpty             (* ENOTEMPTY *)
| ErrRel (base targ : string)  (* filepath.Rel: can't make targ relative to base *)
| ErrBuild (msg : string).     (* an error returned by a builder *)

Global Instance error_eq_dec : EqDecision error.
Proof. solve_decision. Defined.

(** A Go result [(T, error)] whose value is meaningful only when the
    error is nil. *)
Inductive result (A : Type) :=
| Ok (a : A)
| Err (e : error).
Arguments Ok {A} a.
Arguments Err {A} e.

Definition is_ok {A} (r : result A) : bool :=
  match r with Ok _ => true | Err _ => false end.

(** ** Bytes and strings *)

Definition byte_val (c : ascii) : N := N_of_ascii c.

Fixpoint string_rev_app (s acc : string) : string :=
  match s with
  | EmptyString => acc
  | String c s' => string_rev_app s' (String c acc)
  end.

(** [s[n:]]: the string without its first [n] bytes. *)
Fixpoint string_drop (n : nat) (s : string) : string :=
  match n, s with
  | O, _ => s
  | S n', String _ s' => string_drop n' s'
  | S _, EmptyString => EmptyString
  end.

(** [s[:n]] *)
Fixpoint string_take (n : nat) (s : string) : string :=
  match n, s with
  | O, _ => EmptyString
  | S n', String c s' => String c (string_take n' s')
  | S _, EmptyString => EmptyString
  end.

(** [s[b:e]] *)
Definition slice (s : string) (b e : nat) : string :=
  string_take (e - b) (string_drop b s).

(** ** Package unicode/utf8 *)

Module utf8.

Definition RuneError : N := 65533%N.
Definition RuneSelf : N := 128%N.

Definition in_range (lo hi b : N) : bool := ((lo <=? b) && (b <=? hi))%N.

(** The accept range of the second byte, by first byte (Go's
    [first] and [acceptRanges] tables). *)
Definition second_ok (b0 b1 : N) : bool :=
  if (b0 =? 224)%N then in_range 160 191 b1        (* E0: A0..BF *)
  else if (b0 =? 237)%N then in_range 128 159 b1   (* ED: 80..9F *)
  else if (b0 =? 240)%N then in_range 144 191 b1   (* F0: 90..BF *)
  else if (b0 =? 244)%N then in_range 128 143 b1   (* F4: 80..8F *)
  else in_range 128 191 b1.

Definition cont_ok (b : N) : bool := in_range 128 191 b.

Definition low6 (b : N) : N := N.land b 63.

(** [utf8.DecodeRuneInString]: the first rune of [s] and its width in
    bytes; [(RuneError, 0)] on the empty string and [(RuneError, 1)]
    on an invalid encoding. *)
Definition DecodeRuneInString (s : string) : N * nat :=
  match s with
  | EmptyString => (RuneError, 0)
  | String c0 t0 =>
    let b0 := byte_val c0 in
    if (b0 <? RuneSelf)%N then (b0, 1)
    else if (b0 <? 194)%N then (RuneError, 1)
    else if (b0 <? 224)%N then
      match t0 with
      | String c1 _ =>
        let b1 := byte_val c1 in
        if second_ok b0 b1
        then (N.lor (N.shiftl (N.land b0 31) 6) (low6 b1), 2)
        else (RuneError, 1)
      | _ => (RuneError, 1)
      end
    else if (b0 <? 240)%N then
      match t0 with
      | String c1 (String c2 _) =>
        let b1 := byte_val c1 in
        let b2 := byte_val c2 in
        if second_ok b0 b1 && cont_ok b2
        then (N.lor (N.shiftl (N.land b0 15) 12)
                (N.lor (N.shiftl (low6 b1) 6) (low6 b2)), 3)
        else (RuneError, 1)
      | _ => (RuneError, 1)
      end
    else if (b0 <? 245)%N then
      match t0 with
      | String c1 (String c2 (String c3 _)) =>
        let b1 := byte_val c1 in
        let b2 := byte_val c2 in
        let b3 := byte_val c3 in
        if second_ok b0 b1 && cont_ok b2 && cont_ok b3
        then (N.lor (N.shiftl (N.land b0 7) 18)
                (N.lor (N.shiftl (low6 b1) 12)
                   (N.lor (N.shiftl (low6 b2) 6) (low6 b3))), 4)
        else (RuneError, 1)
      | _ => (RuneError, 1)
      end
    else (RuneError, 1)
  end.

(** [utf8.RuneStart]: the byte is not a continuation byte. *)
Definition RuneStart (b : N) : bool := negb (N.land b 192 =? 128)%N.

Definition byte_at (s : string) (i : nat) : N :=
  match String.get i s with Some c => byte_val c | None => 0%N end.

(** The backward scan of [DecodeLastRuneInString]: [start] runs from
    [n-2] down to [max 0 (n-4)] and stops at a rune start; when the
    loop falls through, [start] is [lim-1], clamped at 0. *)
Fixpoint back_scan (s : string) (n k left : nat) : nat :=
  match left with
  | O => n - k
  | S left' =>
    if n <? k then 0
    else if RuneStart (byte_at s (n - k)) then n - k
    else back_scan s n (S k) left'
  end.

(** [utf8.DecodeLastRuneInString] *)
Definition DecodeLastRuneInString (s : string) : N * nat :=
  let n := String.length s in
  match n with
  | O => (RuneError, 0)
  | S start =>
    let r := byte_at s start in
    if (r <? RuneSelf)%N then (r, 1)
    else
      let start := back_scan s n 2 3 in
      let '(r, size) := DecodeRuneInString (slice s start n) in
      if start + size =? n then (r, size) else (RuneError, 1)
  end.

(** The runes of a string in order, each with its width: what a
    left-to-right scan by [DecodeRuneInString] sees.  [skip] counts
    the bytes that still belong to the rune decoded last. *)
Fixpoint runes_from (skip : nat) (s : string) : list (N * nat) :=
  match s with
  | EmptyString => []
  | String _ s' =>
    match skip with
    | S k => runes_from k s'
    | O =>
      let '(r, w) := DecodeRuneInString s in
      (r, w) :: runes_from (w - 1) s'
    end
  end.

Definition runes (s : string) : list (N * nat) := runes_from 0 s.

End utf8.

(** ** Package unicode *)

Module unicode.

(** [unicode.IsSpace]: the Latin-1 cases of the source, then the
    [White_Space] table. *)
Definition IsSpace (r : N) : bool :=
  if (r <=? 255)%N then
    (utf8.in_range 9 13 r || (r =? 32) || (r =? 133) || (r =? 160))%N
  else
    ((r =? 5760) || utf8.in_range 8192 8202 r || (r =? 8232) || (r =? 8233)
     || (r =? 8239) || (r =? 8287) || (r =? 12288))%N.

(** Simple case folding of a rune against an ASCII letter of a
    pattern: the letter itself, its other case, and the two non-ASCII
    runes that fold to ASCII letters (U+017F for s, U+212A for k). *)
Definition lower (r : N) : N :=
  if utf8.in_range 65 90 r then (r + 32)%N else r.

Definition fold_eq (c r : N) : bool :=
  ((lower r =? lower c)
   || ((lower c =? 115) && (r =? 383))
   || ((lower c =? 107) && (r =? 8490)))%N.

End unicode.

(** ** Package strings *)

Module strings.

(** [strings.HasPrefix] *)
Definition HasPrefix (s prefix : string) : bool := String.prefix prefix s.

(** [strings.HasSuffix]:
    [len(s) >= len(suffix) && s[len(s)-len(suffix):] == suffix] *)
Definition HasSuffix (s suffix : string) : bool :=
  (String.length suffix <=? String.length s)
  && String.eqb (string_drop (String.length s - String.length suffix) s) suffix.

(** [indexFunc(s, f, false)]: the byte offset of the first rune that
    does not satisfy [f]. *)
Fixpoint index_not (f : N -> bool) (off : nat) (rs : list (N * nat)) : option nat :=
  match rs with
  | [] => None
  | (r, w) :: rs' => if f r then index_not f (off + w) rs' else Some off
  end.

(** [strings.TrimLeftFunc] *)
Definition TrimLeftFunc (s : string) (f : N -> bool) : string :=
  match index_not f 0 (utf8.runes s) with
  | None => EmptyString
  | Some i => string_drop i s
  end.

(** [lastIndexFunc(s, f, false)], the loop
    [for i := len(s); i > 0; ] that decodes the last rune of [s[0:i]].
    [None] is Go's [-1]. *)
Fixpoint last_index_not (f : N -> bool) (s : string) (i fuel : nat) : option nat :=
  match fuel with
  | O => None
  | S fuel' =>
    match i with
    | O => None
    | S _ =>
      let '(r, size) := utf8.DecodeLastRuneInString (string_take i s) in
      let i' := i - size in
      if f r then last_index_not f s i' fuel' else Some i'
    end
  end.

(** [strings.TrimRightFunc] *)
Definition TrimRightFunc (s : string) (f : N -> bool) : string :=
  match last_index_not f s (String.length s) (String.length s) with
  | None => EmptyString      (* i = -1, then i++ *)
  | Some i =>
    if (utf8.RuneSelf <=? utf8.byte_at s i)%N
    then string_take (i + snd (utf8.DecodeRuneInString (string_drop i s))) s
    else string_take (S i) s
  end.

(** [strings.TrimFunc] *)
Definition TrimFunc (s : string) (f : N -> bool) : string :=
  TrimRightFunc (TrimLeftFunc s f) f.

(** [strings.TrimSpace] *)
Definition TrimSpace (s : string) : string := TrimFunc s unicode.IsSpace.

End strings.

(** ** Package regexp

    Go's regular expressions have leftmost-first semantics: the match
    found is the one a backtracking search finds first.  [exec] is that
    search, over the runes of the text. *)

Module regexp.

Inductive regex :=
| Eps                        (* the empty pattern *)
| Class (p : N -> bool)      (* one rune of a class *)
| Bot                        (* ^ : beginning of text *)
| Cat (r1 r2 : regex)
| Alt (r1 r2 : regex)        (* r1|r2, r1 preferred *)
| Star (r : regex).          (* r*, greedy *)

(** [r+] *)
Definition Plus (r : regex) : regex := Cat r (Star r).

(** A text is the sequence of its runes with their widths. *)
Definition text := list (N * nat).

Fixpoint width (t : text) : nat :=
  match t with
  | [] => 0
  | (_, w) :: t' => w + width t'
  end.

(** [exec r bot t k]: match [r] at the head of [t] and continue with
    [k] on what is left; [bot] tells whether the head of [t] is the
    beginning of the text.  The result is the text left after the
    whole match. *)
Fixpoint exec (r : regex) (bot : bool) (t : text)
         (k : bool -> text -> option text) : option text :=
  match r with
  | Eps => k bot t
  | Class p =>
    match t with
    | (c, _) :: t' => if p c then k false t' else None
    | [] => None
    end
  | Bot => if bot then k bot t else None
  | Cat r1 r2 => exec r1 bot t (fun b' t' => exec r2 b' t' k)
  | Alt r1 r2 =>
    match exec r1 bot t k with
    | Some x => Some x
    | None => exec r2 bot t k
    end
  | Star r1 =>
    (fix star (fuel : nat) (bot : bool) (t : text) : option text :=
       match fuel with
       | O => k bot t
       | S fuel' =>
         match exec r1 bot t
                 (fun b' t' =>
                    if length t' <? length t then star fuel' b' t' else None) with
         | Some x => Some x
         | None => k bot t
         end
       end) (length t) bot t
  end.

Definition match_here (r : regex) (bot : bool) (t : text) : option text :=
  exec r bot t (fun _ t' => Some t').

(** The leftmost match at or after the head of [t], which is at byte
    offset [off]: its start and end offsets and the text after it. *)
Fixpoint search (r : regex) (bot : bool) (off : nat) (t : text)
  : option (nat * nat * text) :=
  match match_here r bot t with
  | Some rest => Some (off, off + (width t - width rest), rest)
  | None =>
    match t with
    | [] => None
    | (_, w) :: t' => search r false (off + w) t'
    end
  end.

(** [Regexp.MatchString] *)
Definition MatchString (r : regex) (s : string) : bool :=
  match search r true 0 (utf8.runes s) with
  | Some _ => true
  | None => false
  end.

(** The loop of [Regexp.allMatches] with [n = -1]: successive
    leftmost matches from [pos]; an empty match right after the
    previous match is not delivered, and after an empty match at
    [pos] the search moves forward by one rune. *)
Fixpoint allMatches (r : regex) (fuel : nat) (bot : bool) (pos : nat)
         (prevMatchEnd : option nat) (t : text) : list (nat * nat) :=
  match fuel with
  | O => []
  | S fuel' =>
    match search r bot pos t with
    | None => []
    | Some (b, e, rest) =>
      if e =? pos then
        let deliver :=
          if bool_decide (prevMatchEnd = Some b) then [] else [(b, e)] in
        match t with
        | [] => deliver
        | (_, w) :: t' =>
          deliver ++ allMatches r fuel' false (pos + w) (Some e) t'
        end
      else (b, e) :: allMatches r fuel' false e (Some e) rest
    end
  end.

(** [Regexp.FindAllStringIndex(s, -1)] *)
Definition FindAllStringIndex (r : regex) (s : string) : list (nat * nat) :=
  let t := utf8.runes s in
  allMatches r (S (length t)) true 0 None t.

(** The loop of [Regexp.Split] over the matches, with its [beg]
    and [end] variables, and the final
    [if end != len(s) { strings = append(strings, s[beg:]) }]. *)
Fixpoint split_loop (s : string) (matches : list (nat * nat))
         (beg end_ : nat) : list string :=
  match matches with
  | [] =>
    if end_ =? String.length s then [] else [string_drop beg s]
  | (m0, m1) :: matches' =>
    (if m1 =? 0 then [] else [slice s beg m0])
      ++ split_loop s matches' m1 m0
  end.

(** [Regexp.Split(s, -1)], for a pattern whose source text is not
    empty. *)
Definition Split (r : regex) (s : string) : list string :=
  match s with
  | EmptyString => [EmptyString]
  | _ => split_loop s (FindAllStringIndex r s) 0 0
  end.

(** Pattern syntax. *)

(** [\s]: the Perl class [[\t\n\f\r ]]. *)
Definition perl_space (c : N) : bool :=
  ((c =? 9) || (c =? 10) || (c =? 12) || (c =? 13) || (c =? 32))%N.

Definition is_rune (a : ascii) (c : N) : bool := (c =? byte_val a)%N.

(** A literal under the flag [(?i)]. *)
Fixpoint fold_lit (s : string) : regex :=
  match s with
  | EmptyString => Eps
  | String a s' => Cat (Class (unicode.fold_eq (byte_val a))) (fold_lit s')
  end.

End regexp.

(** ** Platform-matrix resolution *)

Record platform := Platform { os : string; arch : string }.

Global Instance platform_eq_dec : EqDecision platform.
Proof. solve_decision. Defined.

(** [var separateReg = regexp.MustCompile(`\s*(?:\s+|,)\s*`)] *)
Definition separateReg : regexp.regex :=
  regexp.Cat (regexp.Star (regexp.Class regexp.perl_space))
    (regexp.Cat
       (regexp.Alt (regexp.Plus (regexp.Class regexp.perl_space))
                   (regexp.Class (regexp.is_rune ",")))
       (regexp.Star (regexp.Class regexp.perl_space))).

Definition is_blank (s : string) : bool :=
  bool_decide (strings.TrimSpace s = EmptyString).

(** The body of the inner loop [for _, arch := range archTargets]. *)
Definition arch_step (os : string) (platforms : list platform) (arch : string)
  : list platform :=
  if is_blank arch then platforms
  else platforms ++ [Platform os arch].

(** The body of the outer loop [for _, os := range osTargets]. *)
Definition os_step (archTargets : list string) (platforms : list platform)
           (os : string) : list platform :=
  if is_blank os then platforms
  else fold_left (arch_step os) archTargets platforms.

Definition platform_key (pf : platform) : string :=
  os pf +:+ ":" +:+ arch pf.

(** The body of the loop [for _, pf := range platforms], on the pair of
    [uniqPlatforms] and the map [seen]. *)
Definition uniq_step (st : list platform * gset string) (pf : platform)
  : list platform * gset string :=
  let '(uniqPlatforms, seen) := st in
  let key := platform_key pf in
  if bool_decide (key ∈ seen) then st
  else (uniqPlatforms ++ [pf], {[ key ]} ∪ seen).

Definition resolvePlatforms (os arch : string) : result (list platform) :=
  let platforms := [] in
  let osTargets := regexp.Split separateReg os in
  let archTargets := regexp.Split separateReg arch in
  let platforms := fold_left (os_step archTargets) osTargets platforms in
  let '(uniqPlatforms, _) := fold_left uniq_step platforms ([], ∅) in
  Ok uniqPlatforms.

(** *** Reference notions for the platform matrix *)

(** The tokens of an input list: the pieces between separators that are
    not blank. *)
Definition tokens (s : string) : list string :=
  filter (λ t, is_blank t = false) (regexp.Split separateReg s).

(** The Cartesian product of two token lists, OS-major. *)
Definition cartesian (oss archs : list string) : list platform :=
  oss ≫= (λ o, Platform o <$> archs).

(** The distinct pairs of a list, each at its first occurrence. *)
Fixpoint distinct (l : list platform) : list platform :=
  match l with
  | [] => []
  | p :: l' => p :: filter (λ q, q ≠ p) (distinct l')
  end.

(** First occurrences by key, given the keys already seen. *)
Fixpoint uniq_by_key (seen : gset string) (l : list platform) : list platform :=
  match l with
  | [] => []
  | p :: l' =>
    if bool_decide (platform_key p ∈ seen) then uniq_by_key seen l'
    else p :: uniq_by_key ({[ platform_key p ]} ∪ seen) l'
  end.

(** No two different pairs of [l] share a deduplication key. *)
Definition key_injective (l : list platform) : Prop :=
  ∀ p q, p ∈ l → q ∈ l → platform_key p = platform_key q → p = q.

Fixpoint has_colon (s : string) : bool :=
  match s with
  | EmptyString => false
  | String c s' => bool_decide (c = ":"%char) || has_colon s'
  end.


(** ** The process environment

    What the program reads and changes outside its own variables: the
    file tree, the working directory, [GOPATH], the source of temporary
    names and the log.  A file is named by the list of the components
    of its absolute path; the root is the empty list and always a
    directory.  Symbolic links are not followed: they are irregular
    leaves, as [Lstat] reports them. *)

Inductive node :=
| Dir
| Regular
| Irregular.   (* symbolic link, device, socket, named pipe *)

Global Instance node_eq_dec : EqDecision node.
Proof. solve_decision. Defined.

(** A line of the log.  The source formats them with [log.Printf]; the
    model keeps the verb and its arguments. *)
Inductive logline :=
| LogRemoving (fpath : string)   (* log.Printf("removing %q", fpath) *)
| LogWorkdir (dir : string)      (* log.Printf("working dir: %s\n", gx.workDir) *)
| LogError (e : error).          (* log.Println(err) *)

Record World := mkWorld {
  fs : gmap (list string) node;
  cwd : list string;
  GOPATH : string;               (* build.Default.GOPATH *)
  suffixes : nat → string;       (* the random names drawn by ioutil.TempDir *)
  drawn : nat;                   (* how many have been drawn *)
  logged : list logline
}.

Definition set_fs (w : World) (m : gmap (list string) node) : World :=
  mkWorld m (cwd w) (GOPATH w) (suffixes w) (drawn w) (logged w).
Definition set_cwd (w : World) (d : list string) : World :=
  mkWorld (fs w) d (GOPATH w) (suffixes w) (drawn w) (logged w).
Definition add_log (w : World) (l : logline) : World :=
  mkWorld (fs w) (cwd w) (GOPATH w) (suffixes w) (drawn w) (logged w ++ [l]).
Definition draw (w : World) : string * World :=
  (suffixes w (drawn w),
   mkWorld (fs w) (cwd w) (GOPATH w) (suffixes w) (S (drawn w)) (logged w)).

(** An action on the environment. *)
Definition IO (A : Type) : Type := World → World * A.

Global Instance IO_ret : MRet IO := λ A a w, (w, a).
Global Instance IO_bind : MBind IO := λ A B f m w, let '(w', a) := m w in f a w'.

Definition Separator : ascii := "/"%char.

(** The pieces of [s] between occurrences of the byte [sep]:
    [strings.Split(s, sep)] for a non-empty [s]. *)
Fixpoint split_on (sep : ascii) (s : string) : list string :=
  match s with
  | EmptyString => [EmptyString]
  | String c s' =>
    if bool_decide (c = sep) then EmptyString :: split_on sep s'
    else match split_on sep s' with
         | h :: t => String c h :: t
         | [] => [String c EmptyString]
         end
  end.

(** The elements of a path. *)
Definition split_path (s : string) : list string := split_on Separator s.

Definition join_path (l : list string) : string := String.concat "/" l.

Definition is_rooted (path : string) : bool :=
  match path with
  | String c _ => bool_decide (c = Separator)
  | EmptyString => false
  end.

Definition node_at (m : gmap (list string) node) (p : list string) : option node :=
  match p with
  | [] => Some Dir
  | _ => m !! p
  end.

(** Path resolution: every element is looked up in a directory. *)
Fixpoint walk (m : gmap (list string) node) (cur : list string)
         (elems : list string) : result (list string) :=
  match elems with
  | [] => Ok cur
  | e :: rest =>
    match node_at m cur with
    | Some Dir =>
      if bool_decide (e = ".") then walk m cur rest
      else if bool_decide (e = "..") then walk m (removelast cur) rest
      else walk m (cur ++ [e]) rest
    | Some _ => Err ErrNotDir
    | None => Err ErrNotExist
    end
  end.

Definition resolve (w : World) (path : string) : result (list string) :=
  match path with
  | EmptyString => Err ErrNotExist
  | _ =>
    walk (fs w) (if is_rooted path then [] else cwd w)
         (filter (λ e, e ≠ EmptyString) (split_path path))
  end.

(** [k] names an entry directly inside [p]: its name. *)
Fixpoint child_name (p k : list string) : option string :=
  match p, k with
  | [], [n] => Some n
  | a :: p', b :: k' => if bool_decide (a = b) then child_name p' k' else None
  | _, _ => None
  end.

Fixpoint is_under (p k : list string) : bool :=
  match p, k with
  | [], _ => true
  | a :: p', b :: k' => bool_decide (a = b) && is_under p' k'
  | _ :: _, [] => false
  end.

(** [os.FileInfo]: the name and the mode of an entry. *)
Record FileInfo := mkFileInfo { Name : string; Mode : node }.

Definition IsRegular (m : node) : bool := bool_decide (m = Regular).

Definition entries (m : gmap (list string) node) (p : list string) : list FileInfo :=
  omap (λ kv, (λ n, mkFileInfo n kv.2) <$> child_name p kv.1) (map_to_list m).

Definition by_name (a b : FileInfo) : Prop := String.le (Name a) (Name b).

Global Instance by_name_dec : RelDecision by_name.
Proof. intros a b. unfold by_name. apply _. Defined.

(** ** Package os *)

Module os.

(** [os.IsExist] *)
Definition IsExist (e : option error) : bool := bool_decide (e = Some ErrExist).

(** [os.Mkdir(name, perm)] *)
Definition Mkdir (name : string) : IO (option error) := λ w,
  match resolve w name with
  | Err e => (w, Some e)
  | Ok p =>
    match node_at (fs w) p with
    | Some _ => (w, Some ErrExist)
    | None => (set_fs w (<[p := Dir]> (fs w)), None)
    end
  end.

(** [os.Remove(name)]: a file or an empty directory. *)
Definition Remove (name : string) : IO (option error) := λ w,
  match resolve w name with
  | Err e => (w, Some e)
  | Ok p =>
    match node_at (fs w) p with
    | None => (w, Some ErrNotExist)
    | Some Dir =>
      match entries (fs w) p with
      | [] => (set_fs w (delete p (fs w)), None)
      | _ => (w, Some ErrNotEmpty)
      end
    | Some _ => (set_fs w (delete p (fs w)), None)
    end
  end.

(** [os.RemoveAll(path)]: the path and everything under it; no error
    when the path does not exist. *)
Definition RemoveAll (path : string) : IO (option error) := λ w,
  match path with
  | EmptyString => (w, None)
  | _ =>
    match resolve w path with
    | Err ErrNotExist => (w, None)
    | Err e => (w, Some e)
    | Ok p =>
      (set_fs w (filter (λ kv, is_under p kv.1 = false) (fs w)), None)
    end
  end.

(** [os.Chdir(dir)] *)
Definition Chdir (dir : string) : IO (option error) := λ w,
  match resolve w dir with
  | Err e => (w, Some e)
  | Ok p =>
    match node_at (fs w) p with
    | Some Dir => (set_cwd w p, None)
    | Some _ => (w, Some ErrNotDir)
    | None => (w, Some ErrNotExist)
    end
  end.

(** [os.Getwd()] *)
Definition Getwd : IO string := λ w, (w, "/" +:+ join_path (cwd w)).

(** The path names something. *)
Definition exists_at (w : World) (path : string) : bool :=
  match resolve w path with
  | Ok p => bool_decide (is_Some (node_at (fs w) p))
  | Err _ => false
  end.

End os.

(** ** Package path/filepath (Unix)

    [Clean] and [Rel] are given on the elements of a path, which is
    what their byte loops compute. *)

Module filepath.

(** One element read by [Clean], on the stack of the elements written
    so far (last one first).  A [..] removes the last real element;
    where there is none it is dropped on a rooted path and kept on a
    relative one, so that kept [..] elements only form a prefix. *)
Definition clean_step (rooted : bool) (out : list string) (e : string)
  : list string :=
  if bool_decide (e = "") then out
  else if bool_decide (e = ".") then out
  else if bool_decide (e = "..") then
    match out with
    | h :: t =>
      if bool_decide (h = "..") then e :: out else t
    | [] => if rooted then [] else [e]
    end
  else e :: out.

(** [filepath.Clean] *)
Definition Clean (path : string) : string :=
  let rooted := is_rooted path in
  let out := fold_left (clean_step rooted) (split_path path) [] in
  let s := (if rooted then "/" else "") +:+ join_path (rev out) in
  if bool_decide (s = "") then "." else s.

(** [filepath.Join]: the elements from the first non-empty one on,
    joined by separators and cleaned. *)
Fixpoint Join (elem : list string) : string :=
  match elem with
  | [] => ""
  | e :: elem' =>
    if bool_decide (e = "") then Join elem' else Clean (join_path elem)
  end.

(** [filepath.IsAbs] *)
Definition IsAbs (path : string) : bool := strings.HasPrefix path "/".

(** [filepath.Abs] *)
Definition Abs (path : string) : IO (result string) :=
  if IsAbs path then mret (Ok (Clean path))
  else wd ← os.Getwd; mret (Ok (Join [wd; path])).

(** [filepath.Base]: the last element, trailing separators removed. *)
Definition Base (path : string) : string :=
  match path with
  | EmptyString => "."
  | _ =>
    match rev (filter (λ e, e ≠ "") (split_path path)) with
    | e :: _ => e
    | [] => "/"
    end
  end.

(** [filepath.SplitList] *)
Definition SplitList (path : string) : list string :=
  match path with
  | EmptyString => []
  | _ => split_on ":" path
  end.

(** The rest of a path, as elements, is the empty string. *)
Definition at_end (l : list string) : bool :=
  bool_decide (l = []) || bool_decide (l = [""]).

(** The loop of [Rel] that positions [base[b0:bi]] and [targ[t0:ti]]
    at the first differing elements: what is left of both paths from
    [b0] and [t0], and the element [base[b0:bi]]. *)
Fixpoint rel_walk (b t : list string) : list string * list string * string :=
  match b, t with
  | be :: b', te :: t' =>
    if at_end b || at_end t then (b, t, "")
    else if bool_decide (te = be) then rel_walk b' t'
    else (b, t, be)
  | _, _ => (b, t, "")
  end.

Fixpoint dotdots (n : nat) : string :=
  match n with
  | O => ""
  | S n' => "/.." +:+ dotdots n'
  end.

(** [filepath.Rel] *)
Definition Rel (basepath targpath : string) : result string :=
  let base := Clean basepath in
  let targ := Clean targpath in
  if bool_decide (targ = base) then Ok "."
  else
    let base := if bool_decide (base = ".") then "" else base in
    let baseSlashed := is_rooted base in
    let targSlashed := is_rooted targ in
    if negb (bool_decide (baseSlashed = targSlashed))
    then Err (ErrRel basepath targpath)
    else
      let '(b, t, elem) := rel_walk (split_path base) (split_path targ) in
      if bool_decide (elem = "..") then Err (ErrRel basepath targpath)
      else if negb (at_end b) then
        (* base elements left: go up before going down *)
        let seps := length b - 1 in
        Ok (".." +:+ dotdots seps
              +:+ (if at_end t then "" else "/" +:+ join_path t))
      else Ok (if at_end t then "" else join_path t).

End filepath.

(** ** Package io/ioutil *)

Module ioutil.

(** [ioutil.ReadDir]: the entries of a directory, sorted by name. *)
Definition ReadDir (dirname : string) : IO (result (list FileInfo)) := λ w,
  match resolve w dirname with
  | Err e => (w, Err e)
  | Ok p =>
    match node_at (fs w) p with
    | Some Dir => (w, Ok (merge_sort by_name (entries (fs w) p)))
    | Some _ => (w, Err ErrNotDir)
    | None => (w, Err ErrNotExist)
    end
  end.

(** The loop of [ioutil.TempDir]: up to 10000 tries of a fresh random
    name; a try that exists already is drawn again, any other outcome
    ends the loop. *)
Fixpoint temp_loop (tries : nat) (dir prefix : string)
  : IO (string * option error) := λ w,
  match tries with
  | O => (w, ("", Some ErrExist))
  | S tries' =>
    let '(suffix, w1) := draw w in
    let try := filepath.Join [dir; prefix +:+ suffix] in
    let '(w2, err) := os.Mkdir try w1 in
    if os.IsExist err then temp_loop tries' dir prefix w2
    else match err with
         | None => (w2, (try, None))
         | Some e => (w2, ("", Some e))
         end
  end.

(** [ioutil.TempDir] *)
Definition TempDir (dir prefix : string) : IO (string * option error) :=
  let dir := if bool_decide (dir = "") then "/tmp" else dir in
  temp_loop (100 * 100) dir prefix.

End ioutil.

(** ** The program state

    [type goxz struct]: the options, then what [init] and
    [prepareWorkdir] compute. *)

Module Goxz.

Record goxz := mk {
  os : string;
  arch : string;
  name : string;
  version : string;
  dest : string;
  output : string;
  buildLdFlags : string;
  buildTags : string;
  zipAlways : bool;
  work : bool;
  pkgs : list string;
  absPkgs : list string;
  platforms : list platform;
  projDir : string;
  workDir : string;
  resources : list string
}.

(** The zero value [&goxz{}]. *)
Definition zero : goxz :=
  mk "" "" "" "" "" "" "" "" false false [] [] [] "" "" [].

(** Field assignments. *)
Definition set_os (v : string) (g : goxz) : goxz :=
  mk v (arch g) (name g) (version g) (dest g) (output g) (buildLdFlags
     g) (buildTags g) (zipAlways g) (work g) (pkgs g) (absPkgs g)
     (platforms g) (projDir g) (workDir g) (resources g).
Definition set_arch (v : string) (g : goxz) : goxz :=
  mk (os g) v (name g) (version g) (dest g) (output g) (buildLdFlags
     g) (buildTags g) (zipAlways g) (work g) (pkgs g) (absPkgs g)
     (platforms g) (projDir g) (workDir g) (resources g).
Definition set_name (v : string) (g : goxz) : goxz :=
  mk (os g) (arch g) v (version g) (dest g) (output g) (buildLdFlags
     g) (buildTags g) (zipAlways g) (work g) (pkgs g) (absPkgs g)
     (platforms g) (projDir g) (workDir g) (resources g).
Definition set_version (v : string) (g : goxz) : goxz :=
  mk (os g) (arch g) (name g) v (dest g) (output g) (buildLdFlags g)
     (buildTags g) (zipAlways g) (work g) (pkgs g) (absPkgs g)
     (platforms g) (projDir g) (workDir g) (resources g).
Definition set_dest (v : string) (g : goxz) : goxz :=
  mk (os g) (arch g) (name g) (version g) v (output g) (buildLdFlags
     g) (buildTags g) (zipAlways g) (work g) (pkgs g) (absPkgs g)
     (platforms g) (projDir g) (workDir g) (resources g).
Definition set_output (v : string) (g : goxz) : goxz :=
  mk (os g) (arch g) (name g) (version g) (dest g) v (buildLdFlags g)
     (buildTags g) (zipAlways g) (work g) (pkgs g) (absPkgs g)
     (platforms g) (projDir g) (workDir g) (resources g).
Definition set_buildLdFlags (v : string) (g : goxz) : goxz :=
  mk (os g) (arch g) (name g) (version g) (dest g) (output g) v
     (buildTags g) (zipAlways g) (work g) (pkgs g) (absPkgs g)
     (platforms g) (projDir g) (workDir g) (resources g).
Definition set_buildTags (v : string) (g : goxz) : goxz :=
  mk (os g) (arch g) (name g) (version g) (dest g) (output g)
     (buildLdFlags g) v (zipAlways g) (work g) (pkgs g) (absPkgs g)
     (platforms g) (projDir g) (workDir g) (resources g).
Definition set_zipAlways (v : bool) (g : goxz) : goxz :=
  mk (os g) (arch g) (name g) (version g) (dest g) (output g)
     (buildLdFlags g) (buildTags g) v (work g) (pkgs g) (absPkgs g)
     (platforms g) (projDir g) (workDir g) (resources g).
Definition set_work (v : bool) (g : goxz) : goxz :=
  mk (os g) (arch g) (name g) (version g) (dest g) (output g)
     (buildLdFlags g) (buildTags g) (zipAlways g) v (pkgs g) (absPkgs
     g) (platforms g) (projDir g) (workDir g) (resources g).
Definition set_pkgs (v : list string) (g : goxz) : goxz :=
  mk (os g) (arch g) (name g) (version g) (dest g) (output g)
     (buildLdFlags g) (buildTags g) (zipAlways g) (work g) v (absPkgs
     g) (platforms g) (projDir g) (workDir g) (resources g).
Definition set_absPkgs (v : list string) (g : goxz) : goxz :=
  mk (os g) (arch g) (name g) (version g) (dest g) (output g)
     (buildLdFlags g) (buildTags g) (zipAlways g) (work g) (pkgs g) v
     (platforms g) (projDir g) (workDir g) (resources g).
Definition set_platforms (v : list platform) (g : goxz) : goxz :=
  mk (os g) (arch g) (name g) (version g) (dest g) (output g)
     (buildLdFlags g) (buildTags g) (zipAlways g) (work g) (pkgs g)
     (absPkgs g) v (projDir g) (workDir g) (resources g).
Definition set_projDir (v : string) (g : goxz) : goxz :=
  mk (os g) (arch g) (name g) (version g) (dest g) (output g)
     (buildLdFlags g) (buildTags g) (zipAlways g) (work g) (pkgs g)
     (absPkgs g) (platforms g) v (workDir g) (resources g).
Definition set_workDir (v : string) (g : goxz) : goxz :=
  mk (os g) (arch g) (name g) (version g) (dest g) (output g)
     (buildLdFlags g) (buildTags g) (zipAlways g) (work g) (pkgs g)
     (absPkgs g) (platforms g) (projDir g) v (resources g).
Definition set_resources (v : list string) (g : goxz) : goxz :=
  mk (os g) (arch g) (name g) (version g) (dest g) (output g)
     (buildLdFlags g) (buildTags g) (zipAlways g) (work g) (pkgs g)
     (absPkgs g) (platforms g) (projDir g) (workDir g) v.

End Goxz.

Abbreviation goxz := Goxz.goxz.

(** [type builder struct]: its declaration is in another file of the
    package; these are the fields that [builders] fills. *)

Module Builder.

Record builder := mk {
  platform : platform;
  name : string;
  version : string;
  output : string;
  buildLdFlags : string;
  buildTags : string;
  pkgs : list string;
  zipAlways : bool;
  workDirBase : string;
  resources : list string
}.

End Builder.

Abbreviation builder := Builder.builder.

(** ** Package flag *)

Module flag.

(** A defined flag: how its value is stored. *)
Inductive Value (G : Type) :=
| StringVar (set : string → G → G)
| BoolVar (set : bool → G → G).
Arguments StringVar {G} set.
Arguments BoolVar {G} set.

(** [strconv.ParseBool] *)
Definition ParseBool (s : string) : option bool :=
  if bool_decide (s ∈ ["1"; "t"; "T"; "TRUE"; "true"; "True"]) then Some true
  else if bool_decide (s ∈ ["0"; "f"; "F"; "FALSE"; "false"; "False"]) then Some false
  else None.

Fixpoint formal {G} (fs : list (string * Value G)) (name : string)
  : option (Value G) :=
  match fs with
  | [] => None
  | (n, v) :: fs' => if bool_decide (n = name) then Some v else formal fs' name
  end.

(** The name up to the first [=] and the value after it. *)
Fixpoint cut_equals (s : string) : string * option string :=
  match s with
  | EmptyString => (EmptyString, None)
  | String c s' =>
    if bool_decide (c = "="%char) then (EmptyString, Some s')
    else let '(n, v) := cut_equals s' in (String c n, v)
  end.

(** [FlagSet.Parse] under [ContinueOnError], the loop over
    [parseOne]: the values stored and the arguments left. *)
Fixpoint Parse {G} (fs : list (string * Value G)) (args : list string) (g : G)
  : result (G * list string) :=
  match args with
  | [] => Ok (g, [])
  | s :: rest =>
    match s with
    | String "-" (String c1 s2 as s1) =>
      if bool_decide (s = "--") then Ok (g, rest)
      else
        let name := if bool_decide (c1 = "-"%char) then s2 else s1 in
        match name with
        | EmptyString => Err (ErrFlag ("bad flag syntax: " +:+ s))
        | String c name' =>
          if bool_decide (c = "-"%char) || bool_decide (c = "="%char)
          then Err (ErrFlag ("bad flag syntax: " +:+ s))
          else
            let '(n', value) := cut_equals name' in
            let name := String c n' in
            match formal fs name with
            | None =>
              if bool_decide (name = "help") || bool_decide (name = "h")
              then Err ErrHelp
              else Err (ErrFlag ("flag provided but not defined: -" +:+ name))
            | Some (BoolVar set) =>
              match value with
              | Some v =>
                match ParseBool v with
                | Some b => Parse fs rest (set b g)
                | None =>
                  Err (ErrFlag ("invalid boolean value for -" +:+ name))
                end
              | None => Parse fs rest (set true g)
              end
            | Some (StringVar set) =>
              match value with
              | Some v => Parse fs rest (set v g)
              | None =>
                match rest with
                | v :: rest' => Parse fs rest' (set v g)
                | [] => Err (ErrFlag ("flag needs an argument: -" +:+ name))
                end
              end
            end
        end
    | _ => Ok (g, args)
    end
  end.

End flag.

(** ** The source: [goxz.go] *)

(** [const ( exitCodeOK = iota; exitFlagErr; exitCodeErr )] *)
Definition exitCodeOK : nat := 0.
Definition exitFlagErr : nat := 1.
Definition exitCodeErr : nat := 2.

(** How a call ends: it returns, or it panics. *)
Inductive outcome (A : Type) :=
| Returned (a : A)
| Panicked.
Arguments Returned {A} a.
Arguments Panicked {A}.

(** [defer d] around a body: [d] runs when the body returns and when it
    panics. *)
Definition defer {A} (d : IO unit) (body : IO (outcome A)) : IO (outcome A) :=
  r ← body; _ ← d; mret r.

Definition log_Print (l : logline) : IO unit := λ w, (add_log w l, tt).

(** The flags that [parseArgs] defines, with the defaults it gives
    them. *)
Definition parseArgs_flags : list (string * flag.Value goxz) :=
  [ ("n", flag.StringVar Goxz.set_name);
    ("d", flag.StringVar Goxz.set_dest);
    ("pv", flag.StringVar Goxz.set_version);
    ("o", flag.StringVar Goxz.set_output);
    ("os", flag.StringVar Goxz.set_os);
    ("arch", flag.StringVar Goxz.set_arch);
    ("build-ldflags", flag.StringVar Goxz.set_buildLdFlags);
    ("build-tags", flag.StringVar Goxz.set_buildTags);
    ("zip", flag.BoolVar Goxz.set_zipAlways);
    ("C", flag.StringVar Goxz.set_projDir);
    ("work", flag.BoolVar Goxz.set_work) ].

Definition parseArgs_defaults : goxz := Goxz.set_dest "goxz" Goxz.zero.

Definition parseArgs (args : list string) : result goxz :=
  let gx := parseArgs_defaults in
  match flag.Parse parseArgs_flags args gx with
  | Err err => Err err
  | Ok (gx, fs_Args) =>
    let gx := Goxz.set_pkgs fs_Args gx in
    let gx :=
      if bool_decide (length (Goxz.pkgs gx) = 0)
      then Goxz.set_pkgs (Goxz.pkgs gx ++ ["."]) gx
      else gx in
    Ok gx
  end.

Definition getDest (gx : goxz) : goxz * string :=
  let gx := if bool_decide (Goxz.dest gx = "") then Goxz.set_dest "goxz" gx else gx in
  (gx, Goxz.dest gx).

(** The loop [for _, f := range files] of [setupDest]. *)
Fixpoint setupDest_loop (dir : string) (files : list FileInfo) : IO (option error) :=
  match files with
  | [] => mret None
  | f :: files' =>
    if negb (IsRegular (Mode f)) then setupDest_loop dir files'
    else
      let n := Name f in
      if strings.HasPrefix n ".zip" || strings.HasPrefix n ".tar.gz" then
        let fpath := filepath.Join [dir; n] in
        _ ← log_Print (LogRemoving fpath);
        err ← os.Remove fpath;
        match err with
        | Some e => mret (Some e)
        | None => setupDest_loop dir files'
        end
      else setupDest_loop dir files'
  end.

Definition setupDest (dir : string) : IO (option error) :=
  err ← os.Mkdir dir;
  if bool_decide (err = None) || negb (os.IsExist err) then mret err
  else
    r ← ioutil.ReadDir dir;
    match r with
    | Err err => mret (Some err)
    | Ok files => setupDest_loop dir files
    end.

(** The inner loop [for _, gosrc := range gosrcs] of [goAbsPkgs]: the
    new value of [pkg], or the error of [filepath.Rel]. *)
Fixpoint goAbsPkgs_gosrcs (absPath pkg : string) (gosrcs : list string)
  : result string :=
  match gosrcs with
  | [] => Ok pkg
  | gosrc :: gosrcs' =>
    if strings.HasPrefix absPath gosrc then
      match filepath.Rel gosrc absPath with
      | Err err => Err err
      | Ok p => Ok p
      end
    else goAbsPkgs_gosrcs absPath pkg gosrcs'
  end.

(** The loop [for i, pkg := range pkgs]: [stuff[i] = pkg] fills the
    slots in order. *)
Fixpoint goAbsPkgs_loop (gosrcs : list string) (projDir : string)
         (pkgs : list string) : result (list string) :=
  match pkgs with
  | [] => Ok []
  | pkg :: pkgs' =>
    let r :=
      if strings.HasPrefix pkg "." then
        let absPath := filepath.Clean (filepath.Join [projDir; pkg]) in
        goAbsPkgs_gosrcs absPath pkg gosrcs
      else Ok pkg in
    match r with
    | Err err => Err err
    | Ok pkg =>
      match goAbsPkgs_loop gosrcs projDir pkgs' with
      | Err err => Err err
      | Ok stuff => Ok (pkg :: stuff)
      end
    end
  end.

Definition goAbsPkgs (pkgs : list string) (projDir : string) : IO (result (list string)) :=
  λ w,
  let gosrcs :=
    fold_left (λ gosrcs gopath,
                 gosrcs ++ [filepath.Join [filepath.Clean gopath; "src"]])
              (filepath.SplitList (GOPATH w)) [] in
  (w, goAbsPkgs_loop gosrcs projDir pkgs).

(** [var resourceReg = regexp.MustCompile(`(?i)^(?:readme|license|credit|install)`)] *)
Definition resourceReg : regexp.regex :=
  regexp.Cat regexp.Bot
    (regexp.Alt (regexp.fold_lit "readme")
       (regexp.Alt (regexp.fold_lit "license")
          (regexp.Alt (regexp.fold_lit "credit")
                      (regexp.fold_lit "install")))).

(** The loop [for _, f := range files] of [gatherResources]. *)
Definition gatherResources_step (dir : string) (ret : list string) (f : FileInfo)
  : list string :=
  if negb (IsRegular (Mode f)) then ret
  else
    let n := Name f in
    if regexp.MatchString resourceReg n && negb (strings.HasSuffix n ".go")
    then ret ++ [filepath.Join [dir; n]]
    else ret.

Definition gatherResources (dir : string) : IO (result (list string)) :=
  let ret := [] in
  r ← ioutil.ReadDir dir;
  match r with
  | Err err => mret (Err err)
  | Ok files => mret (Ok (fold_left (gatherResources_step dir) files ret))
  end.

(** [if gx.name == "" { gx.name = filepath.Base(gx.projDir) }] *)
Definition default_name (gx : goxz) : goxz :=
  if bool_decide (Goxz.name gx = "")
  then Goxz.set_name (filepath.Base (Goxz.projDir gx)) gx
  else gx.

(** [if gx.os == "" { gx.os = "linux darwin windows" }] *)
Definition default_os (gx : goxz) : goxz :=
  if bool_decide (Goxz.os gx = "")
  then Goxz.set_os "linux darwin windows" gx
  else gx.

(** [if gx.arch == "" { gx.arch = "amd64" }] *)
Definition default_arch (gx : goxz) : goxz :=
  if bool_decide (Goxz.arch gx = "")
  then Goxz.set_arch "amd64" gx
  else gx.

Definition init (gx : goxz) : IO (goxz * option error) :=
  '(gx, err) ←
    (if bool_decide (Goxz.projDir gx = "") then
       r ← filepath.Abs ".";
       match r with
       | Ok d => mret (Goxz.set_projDir d gx, None)
       | Err err => mret (Goxz.set_projDir "" gx, Some err)
       end
     else mret (gx, None));
  match err with
  | Some err => mret (gx, Some err)
  | None =>
    let gx := default_name gx in
    let '(gx, dest) := getDest gx in
    err ← setupDest dest;
    match err with
    | Some err => mret (gx, Some err)
    | None =>
      (* fill the defaults *)
      let gx := default_os gx in
      let gx := default_arch gx in
      match resolvePlatforms (Goxz.os gx) (Goxz.arch gx) with
      | Err err => mret (Goxz.set_platforms [] gx, Some err)
      | Ok pfs =>
        let gx := Goxz.set_platforms pfs gx in
        r ← gatherResources (Goxz.projDir gx);
        match r with
        | Err err => mret (Goxz.set_resources [] gx, Some err)
        | Ok res =>
          let gx := Goxz.set_resources res gx in
          r ← goAbsPkgs (Goxz.pkgs gx) (Goxz.projDir gx);
          match r with
          | Err err => mret (Goxz.set_absPkgs [] gx, Some err)
          | Ok abs => mret (Goxz.set_absPkgs abs gx, None)
          end
        end
      end
    end
  end.

Definition builders (gx : goxz) : list builder :=
  (λ pf,
     Builder.mk pf (Goxz.name gx) (Goxz.version gx) (Goxz.output gx)
       (Goxz.buildLdFlags gx) (Goxz.buildTags gx) (Goxz.absPkgs gx)
       (Goxz.zipAlways gx) (Goxz.workDir gx) (Goxz.resources gx))
    <$> Goxz.platforms gx.

Definition prepareWorkdir (gx : goxz) : IO (goxz * option error) :=
  '(tmpd, err) ← ioutil.TempDir (Goxz.projDir gx) ".goxz-";
  mret (Goxz.set_workDir tmpd gx, err).

Section Run.

(** [builder.build] is in another file of the package.  It is a
    collaborator of [run]: any action on the environment that
    returns an archive path and an error, or panics. *)
Variable build : builder → IO (outcome (string * option error)).

(** [for _, bdr := range gx.builders() { _, _ = bdr.build() }] *)
Fixpoint run_builders (bdrs : list builder) : IO (outcome unit) :=
  match bdrs with
  | [] => mret (Returned tt)
  | bdr :: bdrs' =>
    r ← build bdr;
    match r with
    | Panicked => mret Panicked
    | Returned _ => run_builders bdrs'
    end
  end.

(** [run] once the work directory exists: the deferred removal, the
    report of the directory, the builders. *)
Definition run_in_workdir (gx : goxz) : IO (outcome (option error)) :=
  defer
    (if negb (Goxz.work gx)
     then _ ← os.RemoveAll (Goxz.workDir gx); mret tt
     else mret tt)
    (_ ← (if Goxz.work gx
          then log_Print (LogWorkdir (Goxz.workDir gx))
          else mret tt);
     r ← run_builders (builders gx);
     match r with
     | Panicked => mret Panicked
     | Returned _ => mret (Returned None)
     end).

(** [run] from [gx.init()] on. *)
Definition run_in_projDir (gx : goxz) : IO (outcome (option error)) :=
  '(gx, err) ← init gx;
  match err with
  | Some err => mret (Returned (Some err))
  | None =>
    '(gx, err) ← prepareWorkdir gx;
    match err with
    | Some err => mret (Returned (Some err))
    | None => run_in_workdir gx
    end
  end.

Definition run (args : list string) : IO (outcome (option error)) :=
  match parseArgs args with
  | Err err => mret (Returned (Some err))
  | Ok gx =>
    if bool_decide (Goxz.projDir gx ≠ "") then
      r ← filepath.Abs ".";
      match r with
      | Err err => mret (Returned (Some err))
      | Ok prev =>
        err ← os.Chdir (Goxz.projDir gx);
        match err with
        | Some err => mret (Returned (Some err))
        | None =>
          defer (_ ← os.Chdir prev; mret tt) (run_in_projDir gx)
        end
      end
    else run_in_projDir gx
  end.

(** [Run]: the exit code. *)
Definition Run (args : list string) : IO (outcome nat) :=
  r ← run args;
  match r with
  | Panicked => mret Panicked
  | Returned (Some err) =>
    _ ← (if bool_decide (err ≠ ErrHelp) then log_Print (LogError err) else mret tt);
    mret (Returned exitCodeErr)
  | Returned None => mret (Returned exitCodeOK)
  end.

End Run.

(** *** Reference notions for resources *)

(** The runes of [t] begin with [word], up to case folding. *)
Fixpoint has_prefix_fold (word : string) (t : regexp.text) : bool :=
  match word with
  | EmptyString => true
  | String a word' =>
    match t with
    | (c, _) :: t' => unicode.fold_eq (byte_val a) c && has_prefix_fold word' t'
    | [] => false
    end
  end.

Definition resource_classes : list string :=
  ["readme"; "license"; "credit"; "install"].

(** The name begins, in any case, with the name of a resource class. *)
Definition is_resource_name (n : string) : bool :=
  existsb (λ word, has_prefix_fold word (utf8.runes n)) resource_classes.

(** The selection rule for a directory entry. *)
Definition is_resource (f : FileInfo) : bool :=
  IsRegular (Mode f) && is_resource_name (Name f)
  && negb (strings.HasSuffix (Name f) ".go").

(** *** Reference notions for the environment *)

(** Every directory of [m] is a directory of [m']. *)
Definition dirs_kept (m m' : gmap (list string) node) : Prop :=
  ∀ k, node_at m k = Some Dir → node_at m' k = Some Dir.

(** *** Reference notions for paths *)

(** The byte [c] occurs in [s]. *)
Fixpoint has_byte (c : ascii) (s : string) : bool :=
  match s with
  | EmptyString => false
  | String x s' => bool_decide (x = c) || has_byte c s'
  end.

(** A real path element: not empty, not [.] or [..], no separator. *)
Definition normal_elem (e : string) : Prop :=
  e ≠ "" ∧ e ≠ "." ∧ e ≠ ".." ∧ has_byte Separator e = false.

(** The [src] directories of the elements of a [GOPATH] list. *)
Definition gosrcs_of (gopath_list : string) : list string :=
  (λ gopath, filepath.Join [filepath.Clean gopath; "src"])
    <$> filepath.SplitList gopath_list.

(** What [goAbsPkgs] makes of the package path [pkg]: the path itself,
    or, for a path that begins with a dot and lies under the [src]
    directory of a [GOPATH] element, the path relative to it. *)
Definition abs_pkg_of (gosrcs : list string) (projDir pkg pkg' : string) : Prop :=
  (strings.HasPrefix pkg "." = false → pkg' = pkg)
  ∧ (pkg' = pkg
     ∨ strings.HasPrefix pkg "." = true
       ∧ ∃ gosrc,
           gosrc ∈ gosrcs
           ∧ strings.HasPrefix (filepath.Clean (filepath.Join [projDir; pkg])) gosrc = true
           ∧ filepath.Rel gosrc (filepath.Clean (filepath.Join [projDir; pkg])) = Ok pkg').

(** The elements that [Clean] has written, last one first: real
    elements on top of a run of [..] elements, which is empty on a
    rooted path. *)
Definition clean_out (rooted : bool) (out : list string) : Prop :=
  ∃ n reals,
    out = reals ++ replicate n ".."
    ∧ Forall normal_elem reals
    ∧ (rooted = true → n = 0).

(** The string that [Clean] makes of the elements written. *)
Definition clean_str (rooted : bool) (out : list string) : string :=
  (if rooted then "/" else "") +:+ join_path (rev out).

(** *** Reference notions for the destination *)

(** Every file of the tree has real path elements for its names. *)
Definition well_named (m : gmap (list string) node) : Prop :=
  ∀ k nd, m !! k = Some nd → Forall normal_elem k.

(** [setupDest] removes the file at [k]: a regular file directly
    inside the directory at [p] whose name begins with [.zip] or
    [.tar.gz]. *)
Definition purged (m : gmap (list string) node) (p k : list string) : Prop :=
  ∃ n, k = p ++ [n]
       ∧ m !! k = Some Regular
       ∧ (strings.HasPrefix n ".zip" = true ∨ strings.HasPrefix n ".tar.gz" = true).

(** The entries that the loop of [setupDest] removes. *)
Definition is_stale (f : FileInfo) : bool :=
  IsRegular (Mode f)
  && (strings.HasPrefix (Name f) ".zip" || strings.HasPrefix (Name f) ".tar.gz").

(** ** A sample environment

    A project directory [/home/u/proj] with sources, documents and a
    destination directory [goxz] left by an earlier run. *)

Definition sample_proj : list string := ["home"; "u"; "proj"].

Definition sample_fs : gmap (list string) node :=
  list_to_map
    [ (["home"], Dir); (["home"; "u"], Dir); (sample_proj, Dir);
      (sample_proj ++ ["README.md"], Regular);
      (sample_proj ++ ["LICENSE"], Regular);
      (sample_proj ++ ["install.go"], Regular);
      (sample_proj ++ ["main.go"], Regular);
      (sample_proj ++ ["goxz"], Dir);
      (sample_proj ++ ["goxz"; "proj_linux_amd64.tar.gz"], Regular);
      (sample_proj ++ ["goxz"; "proj_windows_amd64.zip"], Regular);
      (sample_proj ++ ["goxz"; ".zipped"], Regular);
      (sample_proj ++ ["vendor"], Dir);
      (sample_proj ++ ["vendor"; "README.md"], Regular);
      (sample_proj ++ ["vendor"; "LICENSE"], Regular);
      (sample_proj ++ ["vendor"; "install.go"], Regular);
      (sample_proj ++ ["vendor"; "main.go"], Regular);
      (sample_proj ++ ["vendor"; "credits"], Dir);
      (sample_proj ++ ["vendor"; "credits"; "README"], Regular) ].

Definition sample_suffixes (n : nat) : string :=
  match n with
  | 0 => "271828"
  | _ => "314159"
  end.

Definition sample_world : World :=
  mkWorld sample_fs sample_proj "/home/u/go" sample_suffixes 0 [].

(** A builder that fails for every architecture but [amd64] and
    otherwise writes an archive into the destination directory. *)
Definition sample_build (b : builder) : IO (outcome (string * option error)) :=
  λ w,
  let pf := Builder.platform b in
  if bool_decide (arch pf = "amd64") then
    let archive := Builder.name b +:+ "_" +:+ os pf +:+ "_" +:+ arch pf +:+ ".zip" in
    match fs w !! (cwd w ++ ["goxz"; archive]) with
    | Some Dir => (w, Returned ("", Some ErrIsDir))
    | _ =>
      (set_fs w (<[cwd w ++ ["goxz"; archive] := Regular]> (fs w)),
       Returned (filepath.Join ["goxz"; archive], None))
    end
  else (w, Returned ("", Some (ErrBuild "unsupported GOOS/GOARCH pair"))).

(** The world after the builders of a list have run one after the
    other. *)
Definition built (build : builder → IO (outcome (string * option error)))
           (w : World) (bdrs : list builder) : World :=
  foldl (λ w bdr, (build bdr w).1) w bdrs.

(** The fields that [parseArgs] leaves to [init] and
    [prepareWorkdir]. *)
Definition unresolved (gx : goxz) : Prop :=
  Goxz.absPkgs gx = [] ∧ Goxz.platforms gx = [] ∧ Goxz.workDir gx = ""
  ∧ Goxz.resources gx = [].

(** Two builders of the sample project, the first for a platform that
    [sample_build] does not support. *)
Definition sample_builders : list builder :=
  [ Builder.mk (Platform "linux" "mips128") "proj" "" "" "" "" ["."] false "" [];
    Builder.mk (Platform "linux" "amd64") "proj" "" "" "" "" ["."] false "" [] ].

(** The absolute path of the elements [l]. *)
Definition rooted_path (l : list string) : string := "/" +:+ join_path l.

(** The directory at [l] and the directories above it are in [m]. *)
Definition dir_chain (m : gmap (list string) node) (l : list string) : Prop :=
  ∀ k, k `prefix_of` l → node_at m k = Some Dir.

(** A rune that [separateReg] takes for a separator: a comma or one of
    the white space characters of [\s]. *)
Definition sep_rune (c : N) : bool := (c =? 44)%N || regexp.perl_space c.

(** No byte of the string is a separator. *)
Fixpoint sep_free (s : string) : bool :=
  match s with
  | EmptyString => true
  | String c s' => negb (sep_rune (byte_val c)) && sep_free s'
  end.

(** * Properties *)

#[local] Set Warnings "-clear-no-such-hyp".

(** ** Lemmas on strings *)

Section StringLemmas.

Lemma string_app_cons (c : ascii) (s t : string) :
  String c s +:+ t = String c (s +:+ t).
Proof. reflexivity. Qed.

Lemma string_app_nil_l (t : string) : "" +:+ t = t.
Proof. reflexivity. Qed.

Lemma string_app_nil_r (s : string) : s +:+ "" = s.
Proof.
  induction s as [|c s IH]; [done |]. by rewrite string_app_cons, IH.
Qed.

Lemma string_app_assoc (a b c : string) : (a +:+ b) +:+ c = a +:+ b +:+ c.
Proof.
  induction a as [|x a IH]; [done |]. by rewrite !string_app_cons, IH.
Qed.

Lemma string_length_app (a b : string) :
  String.length (a +:+ b) = String.length a + String.length b.
Proof.
  induction a as [|x a IH]; [done |]. rewrite string_app_cons. simpl.
  by rewrite IH.
Qed.

Lemma string_drop_app (a b : string) :
  string_drop (String.length a) (a +:+ b) = b.
Proof.
  induction a as [|x a IH]; [done |]. by rewrite string_app_cons.
Qed.

Lemma string_take_app (a b : string) :
  string_take (String.length a) (a +:+ b) = a.
Proof.
  induction a as [|x a IH]; [by destruct b |].
  rewrite string_app_cons. simpl. by rewrite IH.
Qed.

Lemma string_drop_0 (s : string) : string_drop 0 s = s.
Proof. by destruct s. Qed.

Lemma string_take_drop (n : nat) (s : string) :
  string_take n s +:+ string_drop n s = s.
Proof.
  revert s; induction n as [|n IH]; intros [|c s]; try done.
  simpl. by rewrite string_app_cons, IH.
Qed.

Lemma string_length_zero (s : string) : String.length s = 0 → s = "".
Proof. by destruct s. Qed.

Lemma prefix_app (p s : string) : String.prefix p (p +:+ s) = true.
Proof.
  induction p as [|c p IH]; [by destruct s |].
  rewrite string_app_cons. simpl.
  destruct (ascii_dec c c); [done | congruence].
Qed.

Lemma prefix_split (p s : string) :
  String.prefix p s = true → ∃ r, s = p +:+ r.
Proof.
  revert s; induction p as [|c p IH]; intros s H.
  - by exists s.
  - destruct s as [|d s]; simpl in H; [done |].
    destruct (ascii_dec c d) as [->|]; [|done].
    destruct (IH _ H) as [r ->]. by exists r.
Qed.

Lemma HasPrefix_iff (s p : string) :
  strings.HasPrefix s p = true ↔ ∃ r, s = p +:+ r.
Proof.
  split; [apply prefix_split | intros [r ->]; apply prefix_app].
Qed.

Lemma HasSuffix_iff (s x : string) :
  strings.HasSuffix s x = true ↔ ∃ r, s = r +:+ x.
Proof.
  unfold strings.HasSuffix. rewrite andb_true_iff, Nat.leb_le, String.eqb_eq.
  split.
  - intros [Hlen Hd].
    exists (string_take (String.length s - String.length x) s).
    rewrite <- Hd at 2. by rewrite string_take_drop.
  - intros [r ->]. rewrite string_length_app. split; [lia |].
    replace (String.length r + String.length x - String.length x)
      with (String.length r) by lia.
    apply string_drop_app.
Qed.

End StringLemmas.

(** ** Platform resolution: the loops *)

Section ResolveLemmas.

Lemma arch_loop (o : string) (archs : list string) (acc : list platform) :
  fold_left (arch_step o) archs acc
  = acc ++ (Platform o <$> filter (λ t, is_blank t = false) archs).
Proof.
  revert acc; induction archs as [|a archs IH]; intros acc; simpl.
  - by rewrite app_nil_r.
  - rewrite IH. unfold arch_step. rewrite filter_cons.
    destruct (is_blank a) eqn:E; simpl.
    + destruct (decide (true = false)); [done | reflexivity].
    + destruct (decide (false = false)); [| done].
      by rewrite <- app_assoc.
Qed.

Lemma os_loop (oss archs : list string) (acc : list platform) :
  fold_left (os_step archs) oss acc
  = acc ++ cartesian (filter (λ t, is_blank t = false) oss)
                     (filter (λ t, is_blank t = false) archs).
Proof.
  revert acc; induction oss as [|o oss IH]; intros acc; simpl.
  - by rewrite app_nil_r.
  - rewrite IH. unfold os_step. rewrite filter_cons.
    destruct (is_blank o) eqn:E; simpl.
    + destruct (decide (true = false)); [done | reflexivity].
    + destruct (decide (false = false)); [| done].
      rewrite arch_loop. unfold cartesian. simpl.
      by rewrite <- app_assoc.
Qed.

Lemma uniq_loop (l : list platform) (u : list platform) (seen : gset string) :
  (fold_left uniq_step l (u, seen)).1 = u ++ uniq_by_key seen l.
Proof.
  revert u seen; induction l as [|p l IH]; intros u seen; simpl.
  - by rewrite app_nil_r.
  - case_bool_decide; rewrite IH; [done |].
    by rewrite <- app_assoc.
Qed.

(** What [resolvePlatforms] computes: the product of the token lists,
    deduplicated by key in first-seen order. *)
Lemma resolvePlatforms_eq (os arch : string) :
  resolvePlatforms os arch
  = Ok (uniq_by_key ∅ (cartesian (tokens os) (tokens arch))).
Proof.
  unfold resolvePlatforms.
  pose proof (uniq_loop
    (fold_left (os_step (regexp.Split separateReg arch))
               (regexp.Split separateReg os) []) [] ∅) as H.
  destruct (fold_left uniq_step _ _) as [u seen]. simpl in H. subst u.
  by rewrite os_loop.
Qed.

Lemma uniq_by_key_elem (seen : gset string) (l : list platform) (p : platform) :
  p ∈ uniq_by_key seen l → p ∈ l ∧ platform_key p ∉ seen.
Proof.
  revert seen; induction l as [|q l IH]; intros seen; simpl.
  - by rewrite elem_of_nil.
  - case_bool_decide as Hq.
    + intros [? ?]%IH. split; [by right | done].
    + rewrite elem_of_cons. intros [->|[? ?]%IH]; [split; [by left | done] |].
      split; [by right | set_solver].
Qed.

Lemma uniq_by_key_NoDup_keys (seen : gset string) (l : list platform) :
  NoDup (platform_key <$> uniq_by_key seen l).
Proof.
  revert seen; induction l as [|q l IH]; intros seen; simpl.
  - constructor.
  - case_bool_decide as Hq; [apply IH |].
    rewrite fmap_cons. constructor; [| apply IH].
    rewrite list_elem_of_fmap. intros (p & Hk & Hp).
    apply uniq_by_key_elem in Hp as [_ Hp]. set_solver.
Qed.

Lemma uniq_by_key_NoDup (seen : gset string) (l : list platform) :
  NoDup (uniq_by_key seen l).
Proof. eapply NoDup_fmap_1, uniq_by_key_NoDup_keys. Qed.

Lemma uniq_by_key_sublist (seen : gset string) (l : list platform) :
  uniq_by_key seen l `sublist_of` l.
Proof.
  revert seen; induction l as [|q l IH]; intros seen; simpl; [done |].
  case_bool_decide; [by apply sublist_cons | by apply sublist_skip].
Qed.

Lemma distinct_elem (l : list platform) (p : platform) :
  p ∈ distinct l ↔ p ∈ l.
Proof.
  induction l as [|q l IH]; simpl; [done |].
  rewrite !elem_of_cons, list_elem_of_filter, IH.
  destruct (decide (p = q)); naive_solver.
Qed.

Lemma distinct_NoDup (l : list platform) : NoDup (distinct l).
Proof.
  induction l as [|q l IH]; simpl; constructor.
  - rewrite list_elem_of_filter. naive_solver.
  - by apply NoDup_filter.
Qed.

Lemma filter_ext_elem {A} (P1 P2 : A → Prop)
      `{!∀ x, Decision (P1 x), !∀ x, Decision (P2 x)} (l : list A) :
  (∀ x, x ∈ l → P1 x ↔ P2 x) → filter P1 l = filter P2 l.
Proof.
  induction l as [|a l IH]; intros Hext; [done |].
  rewrite !filter_cons.
  rewrite IH by (intros x Hx; apply Hext; by right).
  apply decide_ext, Hext. by left.
Qed.

Lemma uniq_by_key_distinct (seen : gset string) (l : list platform) :
  key_injective l →
  uniq_by_key seen l
  = filter (λ p, platform_key p ∉ seen) (distinct l).
Proof.
  revert seen; induction l as [|q l IH]; intros seen Hinj; simpl; [done |].
  assert (key_injective l) as Hinj'.
  { intros p p' Hp Hp'. apply Hinj; by right. }
  rewrite filter_cons, list_filter_filter. case_bool_decide as Hq.
  - rewrite decide_False by naive_solver.
    rewrite IH by done.
    apply list_filter_iff. intros p. split; [| naive_solver].
    intros Hp. split; [done |]. by intros ->.
  - rewrite decide_True by done.
    f_equal. rewrite IH by done.
    apply filter_ext_elem. intros p Hp. rewrite distinct_elem in Hp.
    rewrite not_elem_of_union, not_elem_of_singleton. split.
    + intros [Hne ?]. split; [done |]. by intros ->.
    + intros [? Hne]. split; [| done]. intros Hk.
      apply Hne, Hinj; [by right | by left | done].
Qed.

Lemma resolvePlatforms_distinct (os arch : string) :
  key_injective (cartesian (tokens os) (tokens arch)) →
  resolvePlatforms os arch
  = Ok (distinct (cartesian (tokens os) (tokens arch))).
Proof.
  intros Hinj. rewrite resolvePlatforms_eq, uniq_by_key_distinct by done.
  f_equal. clear Hinj.
  induction (distinct _) as [|p d IH]; [done |].
  rewrite filter_cons_True by set_solver. by rewrite IH.
Qed.

Lemma cartesian_elem (oss archs : list string) (p : platform) :
  p ∈ cartesian oss archs ↔ os p ∈ oss ∧ arch p ∈ archs.
Proof.
  unfold cartesian. rewrite list_elem_of_bind. split.
  - intros (o & Hp & Ho). apply list_elem_of_fmap in Hp as (a & -> & Ha). done.
  - intros [Ho Ha]. exists (os p). split; [| done].
    apply list_elem_of_fmap. exists (arch p). by destruct p.
Qed.

Lemma colon_free_app_inj (o1 o2 a1 a2 : string) :
  has_colon o1 = false → has_colon o2 = false →
  o1 +:+ ":" +:+ a1 = o2 +:+ ":" +:+ a2 → o1 = o2 ∧ a1 = a2.
Proof.
  revert o2; induction o1 as [|c o1 IH]; intros [|d o2]; simpl;
    rewrite ?orb_false_iff, ?bool_decide_eq_false; intros H1 H2 Heq.
  - by simplify_eq.
  - simplify_eq. naive_solver.
  - simplify_eq. naive_solver.
  - destruct H1, H2. simplify_eq. destruct (IH o2) as [-> ->]; done.
Qed.

(** Keys are unambiguous when no OS token contains a colon. *)
Lemma colon_free_key_injective (oss archs : list string) :
  Forall (λ o, has_colon o = false) oss →
  key_injective (cartesian oss archs).
Proof.
  rewrite Forall_forall. intros Hc [o1 a1] [o2 a2].
  rewrite !cartesian_elem. simpl. intros [Ho1 _] [Ho2 _] Hk.
  unfold platform_key in Hk. simpl in Hk.
  destruct (colon_free_app_inj o1 o2 a1 a2) as [-> ->]; auto.
Qed.

Lemma is_blank_empty : is_blank "" = true.
Proof. reflexivity. Qed.

Lemma tokens_not_blank (s t : string) :
  t ∈ tokens s → strings.TrimSpace t ≠ "".
Proof.
  unfold tokens. rewrite list_elem_of_filter. intros [Hb _].
  unfold is_blank in Hb. by apply bool_decide_eq_false in Hb.
Qed.

Lemma tokens_nonempty (s t : string) : t ∈ tokens s → t ≠ "".
Proof.
  unfold tokens. rewrite list_elem_of_filter. intros [Hb _] ->.
  by rewrite is_blank_empty in Hb.
Qed.

End ResolveLemmas.

(** ** C4 and C5: the platform matrix *)

(** C4, counterexample: the length of the result is not always the
    number of distinct pairs of the product.  The deduplication key
    [os:arch] is the same for ("a:b","c") and ("a","b:c"), so of the four
    distinct pairs of ["a:b a"] and ["c b:c"] only three are kept. *)
Lemma resolvePlatforms_length_counterexample :
  ¬ (∀ os arch pfs,
        resolvePlatforms os arch = Ok pfs →
        length pfs = length (distinct (cartesian (tokens os) (tokens arch)))).
Proof.
  intros H. specialize (H "a:b a" "c b:c" _ eq_refl).
  vm_compute in H. discriminate H.
Qed.

(** C4, amended: for all input strings [resolvePlatforms] returns a
    list without duplicate pairs (no two entries even share a key), in
    the order of the Cartesian product of the token lists; when no two
    distinct pairs of the product share the key [os:arch], the result is
    the list of the distinct pairs of the product at their first
    occurrences, so its length is their number.  In particular
    ["linux, darwin"] and ["amd64 arm64"] give the four pairs
    linux/amd64, linux/arm64, darwin/amd64, darwin/arm64 in that order. *)
Theorem resolvePlatforms_first_seen :
  (∀ os arch,
      let product := cartesian (tokens os) (tokens arch) in
      ∃ pfs,
        resolvePlatforms os arch = Ok pfs
        ∧ NoDup pfs
        ∧ NoDup (platform_key <$> pfs)
        ∧ pfs `sublist_of` product
        ∧ (key_injective product →
           pfs = distinct product ∧ length pfs = length (distinct product)))
  ∧ resolvePlatforms "linux, darwin" "amd64 arm64"
    = Ok [Platform "linux" "amd64"; Platform "linux" "arm64";
          Platform "darwin" "amd64"; Platform "darwin" "arm64"].
Proof.
  split; [| reflexivity].
  intros os arch product. exists (uniq_by_key ∅ product).
  split; [apply resolvePlatforms_eq |].
  split; [apply uniq_by_key_NoDup |].
  split; [apply uniq_by_key_NoDup_keys |].
  split; [apply uniq_by_key_sublist |].
  intros Hinj.
  pose proof (resolvePlatforms_distinct os arch Hinj) as Hd.
  rewrite resolvePlatforms_eq in Hd. injection Hd as Hd.
  fold product in Hd. by rewrite Hd.
Qed.

(** The amended C4 at ["linux linux, darwin"] and ["amd64,amd64 arm64"]:
    no OS token has a colon, and the repeated tokens are dropped. *)
Lemma resolvePlatforms_first_seen_witness :
  resolvePlatforms "linux linux, darwin" "amd64,amd64 arm64"
  = Ok [Platform "linux" "amd64"; Platform "linux" "arm64";
        Platform "darwin" "amd64"; Platform "darwin" "arm64"].
Proof.
  destruct (proj1 resolvePlatforms_first_seen
              "linux linux, darwin" "amd64,amd64 arm64")
    as (pfs & -> & _ & _ & _ & Hd).
  assert (tokens "linux linux, darwin" = ["linux"; "linux"; "darwin"]) as Ho
      by (vm_compute; reflexivity).
  assert (tokens "amd64,amd64 arm64" = ["amd64"; "amd64"; "arm64"]) as Ha
      by (vm_compute; reflexivity).
  rewrite Ho, Ha in Hd.
  destruct Hd as [-> _]; [| reflexivity].
  apply colon_free_key_injective.
  repeat constructor.
Defined.

(** C5: for every pair of input strings the result exists, and each of
    its platforms is made of a token of the OS list and a token of the
    arch list; a token is a piece between separators that is not blank,
    so neither component is empty. *)
Theorem resolvePlatforms_components_nonempty (os_list arch_list : string) :
  ∃ pfs,
    resolvePlatforms os_list arch_list = Ok pfs
    ∧ ∀ pf, pf ∈ pfs →
        os pf ∈ tokens os_list ∧ arch pf ∈ tokens arch_list
        ∧ strings.TrimSpace (os pf) ≠ "" ∧ strings.TrimSpace (arch pf) ≠ ""
        ∧ os pf ≠ "" ∧ arch pf ≠ "".
Proof.
  eexists. split; [apply resolvePlatforms_eq |].
  intros pf [Hpf _]%uniq_by_key_elem.
  apply cartesian_elem in Hpf as [Ho Ha].
  repeat split; try done; eauto using tokens_nonempty, tokens_not_blank.
Qed.

(** ** C1: the destination directory *)

(** C1, at a destination left by an earlier run: [setupDest] tests the
    archive names with [strings.HasPrefix] where the claim needs the end
    of the name, so it removes [.zipped] and keeps both stale archives
    [proj_linux_amd64.tar.gz] and [proj_windows_amd64.zip]. *)
Theorem setupDest_keeps_stale_archives :
  let '(w, err) := setupDest "goxz" sample_world in
  err = None
  ∧ logged w = [LogRemoving "goxz/.zipped"]
  ∧ fs w !! (sample_proj ++ ["goxz"; "proj_linux_amd64.tar.gz"]) = Some Regular
  ∧ fs w !! (sample_proj ++ ["goxz"; "proj_windows_amd64.zip"]) = Some Regular
  ∧ fs w !! (sample_proj ++ ["goxz"; ".zipped"]) = None.
Proof. vm_compute. done. Qed.

(** ** C2 and C3: the outcome of a run *)

Section RunLemmas.

Variable build : builder → IO (outcome (string * option error)).

(** Once the work directory exists, [run] returns nil or panics:
    what the builders return is dropped. *)
Lemma run_in_workdir_result (gx : goxz) (w : World) :
  (run_in_workdir build gx w).2 = Returned None
  ∨ (run_in_workdir build gx w).2 = Panicked.
Proof.
  unfold run_in_workdir, defer, mbind, IO_bind, mret, IO_ret.
  destruct (if Goxz.work gx then _ else _) as [w1 []].
  destruct (run_builders build (builders gx) w1) as [w2 [[]|]];
    destruct (if negb (Goxz.work gx) then _ else _) as [w3 []];
    simpl; auto.
Qed.

(** [Run] returns [exitCodeOK] or [exitCodeErr]. *)
Lemma Run_codes (args : list string) (w : World) :
  (Run build args w).2 = Returned exitCodeOK
  ∨ (Run build args w).2 = Returned exitCodeErr
  ∨ (Run build args w).2 = Panicked.
Proof.
  unfold Run, mbind, IO_bind, mret, IO_ret.
  destruct (run build args w) as [w1 [[e|]|]]; simpl; auto.
  destruct (if bool_decide (e ≠ ErrHelp) then _ else _) as [w2 []].
  simpl; auto.
Qed.

(** A flag-parse error ends [Run] with [exitCodeErr]. *)
Lemma Run_flag_error (args : list string) (w : World) (e : error) :
  parseArgs args = Err e →
  (Run build args w).2 = Returned exitCodeErr.
Proof.
  intros He. unfold Run, run, mbind, IO_bind, mret, IO_ret. rewrite He.
  destruct (if bool_decide (e ≠ ErrHelp) then _ else _) as [w2 []].
  reflexivity.
Qed.

End RunLemmas.

(** C2, where one builder fails ([-arch "amd64 mips128"], whose second
    architecture no builder supports): [run] drops the error of
    [bdr.build()], returns nil, and [Run] exits with 0, where the claim
    requires a failure.  The archives of the builders that succeed are
    written.  For every builder collaborator, [run] past the creation
    of the work directory returns nil or panics. *)
Theorem run_drops_build_errors :
  (∀ build gx w,
      (run_in_workdir build gx w).2 = Returned None
      ∨ (run_in_workdir build gx w).2 = Panicked)
  ∧ (let '(w, r) := run sample_build ["-arch"; "amd64 mips128"] sample_world in
     r = Returned None
     ∧ fs w !! (sample_proj ++ ["goxz"; "proj_linux_amd64.zip"]) = Some Regular
     ∧ fs w !! (sample_proj ++ ["goxz"; "proj_darwin_amd64.zip"]) = Some Regular
     ∧ fs w !! (sample_proj ++ ["goxz"; "proj_windows_amd64.zip"]) = Some Regular)
  ∧ (Run sample_build ["-arch"; "amd64 mips128"] sample_world).2
    = Returned exitCodeOK.
Proof.
  split; [apply run_in_workdir_result |].
  split; vm_compute; done.
Qed.

(** C3, at the arguments [-bogus]: the flag-parse error ends [Run] with
    [exitCodeErr] = 2; [exitFlagErr] = 1 is declared and never
    returned.  A run in which a builder fails exits with 0 (see C2). *)
Theorem Run_exit_codes :
  (parseArgs ["-bogus"] = Err (ErrFlag "flag provided but not defined: -bogus")
   ∧ (Run sample_build ["-bogus"] sample_world).2 = Returned exitCodeErr)
  ∧ (∀ build args w,
        match parseArgs args with
        | Err _ => (Run build args w).2 = Returned exitCodeErr
        | Ok _ => True
        end)
  ∧ (∀ build args w, (Run build args w).2 ≠ Returned exitFlagErr)
  ∧ (Run sample_build ["-arch"; "amd64 mips128"] sample_world).2
    = Returned exitCodeOK.
Proof.
  split; [split; vm_compute; done |].
  split.
  { intros build args w. destruct (parseArgs args) eqn:E; [done |].
    by eapply Run_flag_error. }
  split; [| vm_compute; done].
  intros build args w.
  destruct (Run_codes build args w) as [-> | [-> | ->]]; discriminate.
Qed.

(** ** C6 and C7: resources *)

Section RegexpLemmas.

Lemma exec_fold_lit (word : string) (bot : bool) (t : regexp.text)
      (k : bool → regexp.text → option regexp.text)
      (k' : regexp.text → option regexp.text) :
  (∀ b t', k b t' = k' t') →
  regexp.exec (regexp.fold_lit word) bot t k
  = if has_prefix_fold word t then k' (drop (String.length word) t) else None.
Proof.
  intros Hk. revert bot t; induction word as [|a word IH]; intros bot t.
  - simpl. by rewrite Hk, drop_0.
  - simpl. destruct t as [|[c w] t]; [done |].
    destruct (unicode.fold_eq (byte_val a) c); [| done].
    simpl. apply IH.
Qed.

Lemma match_here_resourceReg (bot : bool) (t : regexp.text) :
  is_Some (regexp.match_here resourceReg bot t)
  ↔ bot = true
    ∧ existsb (λ word, has_prefix_fold word t) resource_classes = true.
Proof.
  unfold regexp.match_here, resourceReg. cbn [regexp.exec].
  destruct bot; [| split; [by intros [? ?] | by intros [? _]]].
  rewrite !(exec_fold_lit _ _ _ _ Some) by done.
  unfold resource_classes, existsb.
  destruct (has_prefix_fold "readme" t); [by split; eauto |].
  destruct (has_prefix_fold "license" t); [by split; eauto |].
  destruct (has_prefix_fold "credit" t); [by split; eauto |].
  destruct (has_prefix_fold "install" t); [by split; eauto |].
  split; [by intros [? ?] | by intros [_ ?]].
Qed.

Lemma match_here_resourceReg_false (t : regexp.text) :
  regexp.match_here resourceReg false t = None.
Proof. reflexivity. Qed.

Lemma search_resourceReg_false (off : nat) (t : regexp.text) :
  regexp.search resourceReg false off t = None.
Proof.
  revert off; induction t as [|[c w] t IH]; intros off;
    cbn [regexp.search]; rewrite match_here_resourceReg_false; [done |].
  apply IH.
Qed.

(** The pattern of [resourceReg] accepts the names that begin with a
    resource class. *)
Lemma MatchString_resourceReg (n : string) :
  regexp.MatchString resourceReg n = is_resource_name n.
Proof.
  unfold regexp.MatchString, is_resource_name.
  pose proof (match_here_resourceReg true (utf8.runes n)) as H.
  assert (regexp.search resourceReg true 0 (utf8.runes n)
          = (λ rest, (0, 0 + (regexp.width (utf8.runes n) - regexp.width rest), rest))
              <$> regexp.match_here resourceReg true (utf8.runes n)) as ->.
  { destruct (utf8.runes n) as [|[c w] t]; cbn [regexp.search];
      destruct (regexp.match_here resourceReg true _); try done.
    by rewrite search_resourceReg_false. }
  destruct (regexp.match_here resourceReg true _) as [rest|];
    cbn [fmap option_fmap option_map].
  - symmetry. apply H. eauto.
  - destruct (existsb _ _); [| done].
    destruct H as [_ [? H]]; done.
Qed.

End RegexpLemmas.

Section DirectoryLemmas.

Lemma child_name_Some (p k : list string) (n : string) :
  child_name p k = Some n ↔ k = p ++ [n].
Proof.
  revert k; induction p as [|a p IH]; intros k; simpl.
  - destruct k as [|b [|c k]]; naive_solver.
  - destruct k as [|b k]; [naive_solver |].
    case_bool_decide; [rewrite IH |]; naive_solver.
Qed.

(** The entries of a directory are the files directly inside it. *)
Lemma entries_elem (m : gmap (list string) node) (p : list string)
      (f : FileInfo) :
  f ∈ entries m p ↔ m !! (p ++ [Name f]) = Some (Mode f).
Proof.
  unfold entries. rewrite list_elem_of_omap. split.
  - intros ([k nd] & Hk & Hf). simpl in Hf.
    apply elem_of_map_to_list in Hk.
    destruct (child_name p k) as [n|] eqn:En; [| done].
    apply child_name_Some in En as ->. simpl in Hf. by simplify_eq.
  - intros Hf. exists (p ++ [Name f], Mode f). split.
    + by apply elem_of_map_to_list.
    + simpl. destruct f as [n nd]. simpl.
      by rewrite (proj2 (child_name_Some p (p ++ [n]) n) eq_refl).
Qed.

(** [ioutil.ReadDir] of a directory: no change of the environment,
    and exactly the entries of the directory. *)
Lemma ReadDir_Ok (w : World) (dir : string) (p : list string) :
  resolve w dir = Ok p → node_at (fs w) p = Some Dir →
  ∃ files,
    ioutil.ReadDir dir w = (w, Ok files)
    ∧ ∀ f, f ∈ files ↔ fs w !! (p ++ [Name f]) = Some (Mode f).
Proof.
  intros Hp Hd. unfold ioutil.ReadDir. rewrite Hp, Hd.
  eexists. split; [done |]. intros f.
  by rewrite merge_sort_Permutation, entries_elem.
Qed.

Lemma gatherResources_step_eq (dir : string) (ret : list string) (f : FileInfo) :
  gatherResources_step dir ret f
  = if is_resource f then ret ++ [filepath.Join [dir; Name f]] else ret.
Proof.
  unfold gatherResources_step, is_resource.
  rewrite MatchString_resourceReg.
  by destruct (IsRegular (Mode f)).
Qed.

Lemma gatherResources_loop (dir : string) (files : list FileInfo)
      (ret : list string) :
  fold_left (gatherResources_step dir) files ret
  = ret ++ ((λ f, filepath.Join [dir; Name f])
              <$> filter (λ f, is_resource f = true) files).
Proof.
  revert ret; induction files as [|f files IH]; intros ret.
  - by rewrite app_nil_r.
  - cbn [fold_left]. rewrite IH, filter_cons, gatherResources_step_eq.
    destruct (is_resource f) eqn:E.
    + rewrite decide_True by done. by rewrite <- app_assoc.
    + by rewrite decide_False by done.
Qed.

Lemma filter_none {A} (P : A → Prop) `{!∀ x, Decision (P x)} (l : list A) :
  (∀ x, x ∈ l → ¬ P x) → filter P l = [].
Proof.
  induction l as [|a l IH]; intros Hl; [done |].
  rewrite filter_cons_False by (apply Hl; by left).
  apply IH. intros x Hx. apply Hl. by right.
Qed.

Lemma gatherResources_eq (w : World) (dir : string) (files : list FileInfo) :
  ioutil.ReadDir dir w = (w, Ok files) →
  gatherResources dir w
  = (w, Ok ((λ f, filepath.Join [dir; Name f])
              <$> filter (λ f, is_resource f = true) files)).
Proof.
  intros Hr. unfold gatherResources, mbind, IO_bind. rewrite Hr.
  by rewrite gatherResources_loop.
Qed.

End DirectoryLemmas.

(** C6: over a directory, [gatherResources] changes nothing and returns
    the paths [filepath.Join(dir, n)] of exactly the regular files [n]
    directly inside the directory whose name begins, in any case, with
    readme, license, credit or install and does not end in [.go].  Over
    the directory [vendor] of the sample, which holds README.md, LICENSE,
    install.go, main.go and a subdirectory credits with a README of its
    own, it returns the paths of LICENSE and README.md. *)
Theorem gatherResources_selects :
  (∀ w dir p,
      resolve w dir = Ok p → node_at (fs w) p = Some Dir →
      ∃ res,
        gatherResources dir w = (w, Ok res)
        ∧ ∀ path,
            path ∈ res ↔
            ∃ n, path = filepath.Join [dir; n]
                 ∧ fs w !! (p ++ [n]) = Some Regular
                 ∧ is_resource_name n = true
                 ∧ strings.HasSuffix n ".go" = false)
  ∧ (gatherResources "vendor" sample_world).2
    = Ok ["vendor/LICENSE"; "vendor/README.md"].
Proof.
  split; [| vm_compute; reflexivity].
  intros w dir p Hp Hd.
  destruct (ReadDir_Ok w dir p Hp Hd) as (files & Hr & Hfiles).
  eexists. split; [by apply gatherResources_eq |].
  intros path. rewrite list_elem_of_fmap. split.
  - intros (f & -> & Hf). apply list_elem_of_filter in Hf as [Hsel Hf].
    apply Hfiles in Hf. unfold is_resource in Hsel.
    apply andb_true_iff in Hsel as [[Hreg Hname]%andb_true_iff Hgo].
    apply bool_decide_eq_true in Hreg. rewrite Hreg in Hf.
    exists (Name f). by rewrite negb_true_iff in Hgo.
  - intros (n & -> & Hn & Hname & Hgo).
    exists (mkFileInfo n Regular). split; [done |].
    apply list_elem_of_filter. split; [| by apply Hfiles].
    unfold is_resource. simpl. by rewrite Hname, Hgo.
Qed.

(** The general part of C6 at the project directory of the sample. *)
Lemma gatherResources_selects_witness :
  ∃ res,
    gatherResources "/home/u/proj" sample_world = (sample_world, Ok res)
    ∧ "/home/u/proj/README.md" ∈ res.
Proof.
  destruct (proj1 gatherResources_selects sample_world "/home/u/proj"
              sample_proj eq_refl eq_refl) as (res & Hres & Hin).
  exists res. split; [exact Hres |].
  apply Hin. clear Hin Hres. exists "README.md".
  vm_compute. repeat split; reflexivity.
Defined.

(** C7: over a readable directory in which no regular file is selected,
    [gatherResources] returns the empty sequence and a nil error, and
    changes nothing. *)
Theorem gatherResources_no_match (w : World) (dir : string) (p : list string) :
  resolve w dir = Ok p →
  node_at (fs w) p = Some Dir →
  (∀ n, fs w !! (p ++ [n]) = Some Regular →
        is_resource_name n = true → strings.HasSuffix n ".go" = true) →
  gatherResources dir w = (w, Ok []).
Proof.
  intros Hp Hd Hnone.
  destruct (ReadDir_Ok w dir p Hp Hd) as (files & Hr & Hfiles).
  rewrite (gatherResources_eq w dir files Hr). do 2 f_equal.
  assert (filter (λ f, is_resource f = true) files = []) as ->; [| done].
  apply filter_none. intros f Hf Hsel.
  apply Hfiles in Hf. unfold is_resource in Hsel.
  apply andb_true_iff in Hsel as [[Hreg Hname]%andb_true_iff Hgo].
  apply bool_decide_eq_true in Hreg. rewrite Hreg in Hf.
  rewrite (Hnone _ Hf Hname) in Hgo. done.
Qed.

(** C7 at the destination directory of the sample, which holds archives
    only. *)
Lemma gatherResources_no_match_witness :
  gatherResources "goxz" sample_world = (sample_world, Ok []).
Proof.
  apply (gatherResources_no_match sample_world "goxz" (sample_proj ++ ["goxz"]));
    [reflexivity | reflexivity |].
  intros n Hn Hname.
  assert (mkFileInfo n Regular ∈ entries (fs sample_world) (sample_proj ++ ["goxz"]))
    as Hin by (by apply entries_elem).
  vm_compute in Hin.
  repeat (apply elem_of_cons in Hin as [Hin | Hin];
          [injection Hin as ->; by vm_compute in Hname |]).
  by apply elem_of_nil in Hin.
Defined.

(** ** C8: defaults *)

Section DefaultsLemmas.

Lemma parseArgs_pkgs (args : list string) (g : goxz) (rest : list string) :
  flag.Parse parseArgs_flags args parseArgs_defaults = Ok (g, rest) →
  parseArgs args
  = Ok (Goxz.set_pkgs (if bool_decide (rest = []) then ["."] else rest) g).
Proof.
  intros Hp. unfold parseArgs. rewrite Hp.
  destruct rest as [|r rest]; reflexivity.
Qed.

Lemma parseArgs_inv (args : list string) (gx : goxz) :
  parseArgs args = Ok gx →
  ∃ g rest,
    flag.Parse parseArgs_flags args parseArgs_defaults = Ok (g, rest)
    ∧ gx = Goxz.set_pkgs (if bool_decide (rest = []) then ["."] else rest) g.
Proof.
  intros Hp.
  destruct (flag.Parse parseArgs_flags args parseArgs_defaults)
    as [[g rest]|e] eqn:E.
  - exists g, rest. split; [done |].
    rewrite (parseArgs_pkgs _ _ _ E) in Hp. by injection Hp.
  - unfold parseArgs in Hp. by rewrite E in Hp.
Qed.

Lemma Clean_nonempty (path : string) : filepath.Clean path ≠ "".
Proof. unfold filepath.Clean. by case_bool_decide. Qed.

Lemma init_projDir (gx : goxz) (w : World) :
  let r := (if bool_decide (Goxz.projDir gx = "") then
              r ← filepath.Abs ".";
              match r with
              | Ok d => mret (Goxz.set_projDir d gx, None)
              | Err err => mret (Goxz.set_projDir "" gx, Some err)
              end
            else mret (gx, None)) w in
  ∃ d, r.2.1 = Goxz.set_projDir d gx ∧ d ≠ "".
Proof.
  intros r. subst r. case_bool_decide.
  - unfold filepath.Abs.
    replace (filepath.IsAbs ".") with false by reflexivity.
    unfold mbind, IO_bind, mret, IO_ret, os.Getwd.
    eexists. split; [done |]. apply Clean_nonempty.
  - exists (Goxz.projDir gx). by destruct gx.
Qed.

Lemma set_projDir_fields (d : string) (g : goxz) :
  Goxz.os (Goxz.set_projDir d g) = Goxz.os g
  ∧ Goxz.arch (Goxz.set_projDir d g) = Goxz.arch g
  ∧ Goxz.name (Goxz.set_projDir d g) = Goxz.name g
  ∧ Goxz.dest (Goxz.set_projDir d g) = Goxz.dest g
  ∧ Goxz.pkgs (Goxz.set_projDir d g) = Goxz.pkgs g
  ∧ Goxz.projDir (Goxz.set_projDir d g) = d.
Proof. by destruct g. Qed.

Lemma default_name_fields (g : goxz) :
  Goxz.os (default_name g) = Goxz.os g
  ∧ Goxz.arch (default_name g) = Goxz.arch g
  ∧ Goxz.name (default_name g)
    = (if bool_decide (Goxz.name g = "")
       then filepath.Base (Goxz.projDir g) else Goxz.name g)
  ∧ Goxz.dest (default_name g) = Goxz.dest g
  ∧ Goxz.pkgs (default_name g) = Goxz.pkgs g
  ∧ Goxz.projDir (default_name g) = Goxz.projDir g.
Proof. unfold default_name. destruct g. by case_bool_decide. Qed.

Lemma getDest_fields (g : goxz) :
  Goxz.os (getDest g).1 = Goxz.os g
  ∧ Goxz.arch (getDest g).1 = Goxz.arch g
  ∧ Goxz.name (getDest g).1 = Goxz.name g
  ∧ Goxz.dest (getDest g).1
    = (if bool_decide (Goxz.dest g = "") then "goxz" else Goxz.dest g)
  ∧ Goxz.pkgs (getDest g).1 = Goxz.pkgs g
  ∧ Goxz.projDir (getDest g).1 = Goxz.projDir g
  ∧ (getDest g).2 = Goxz.dest (getDest g).1.
Proof. unfold getDest. destruct g. by case_bool_decide. Qed.

Lemma default_os_fields (g : goxz) :
  Goxz.os (default_os g)
  = (if bool_decide (Goxz.os g = "") then "linux darwin windows" else Goxz.os g)
  ∧ Goxz.arch (default_os g) = Goxz.arch g
  ∧ Goxz.name (default_os g) = Goxz.name g
  ∧ Goxz.dest (default_os g) = Goxz.dest g
  ∧ Goxz.pkgs (default_os g) = Goxz.pkgs g
  ∧ Goxz.projDir (default_os g) = Goxz.projDir g.
Proof. unfold default_os. destruct g. by case_bool_decide. Qed.

Lemma default_arch_fields (g : goxz) :
  Goxz.os (default_arch g) = Goxz.os g
  ∧ Goxz.arch (default_arch g)
    = (if bool_decide (Goxz.arch g = "") then "amd64" else Goxz.arch g)
  ∧ Goxz.name (default_arch g) = Goxz.name g
  ∧ Goxz.dest (default_arch g) = Goxz.dest g
  ∧ Goxz.pkgs (default_arch g) = Goxz.pkgs g
  ∧ Goxz.projDir (default_arch g) = Goxz.projDir g.
Proof. unfold default_arch. destruct g. by case_bool_decide. Qed.

Ltac step :=
  cbv beta iota zeta delta [mbind IO_bind mret IO_ret fst snd].

Lemma init_Ok (gx gx' : goxz) (w w' : World) :
  init gx w = (w', (gx', None)) →
  Goxz.os gx' = (if bool_decide (Goxz.os gx = "")
                 then "linux darwin windows" else Goxz.os gx)
  ∧ Goxz.arch gx' = (if bool_decide (Goxz.arch gx = "")
                     then "amd64" else Goxz.arch gx)
  ∧ Goxz.name gx' = (if bool_decide (Goxz.name gx = "")
                     then filepath.Base (Goxz.projDir gx') else Goxz.name gx)
  ∧ Goxz.dest gx' = (if bool_decide (Goxz.dest gx = "")
                     then "goxz" else Goxz.dest gx)
  ∧ Goxz.pkgs gx' = Goxz.pkgs gx
  ∧ resolvePlatforms (Goxz.os gx') (Goxz.arch gx') = Ok (Goxz.platforms gx')
  ∧ Goxz.projDir gx' ≠ "".
Proof.
  unfold init. unfold mbind at 1. unfold IO_bind at 1.
  destruct (init_projDir gx w) as (pd' & Hpd & Hne).
  match type of Hpd with
  | (?r).2.1 = _ => destruct r as [w1 [gx1 [e|]]]; [done |]
  end.
  cbv beta iota delta [fst snd] in Hpd.
  destruct (set_projDir_fields pd' gx) as (Ho0 & Ha0 & Hn0 & Hd0 & Hp0 & Hj0).
  rewrite <- Hpd in Ho0, Ha0, Hn0, Hd0, Hp0, Hj0. clear Hpd.
  step.
  destruct (default_name_fields gx1) as (Ho1 & Ha1 & Hn1 & Hd1 & Hp1 & Hj1).
  destruct (getDest_fields (default_name gx1))
    as (Ho2 & Ha2 & Hn2 & Hd2 & Hp2 & Hj2 & _).
  destruct (getDest (default_name gx1)) as [gx2 dest].
  cbv beta iota delta [fst snd] in Ho2, Ha2, Hn2, Hd2, Hp2, Hj2.
  destruct (setupDest _ w1) as [w2 [e|]]; step; [by intros ? |].
  destruct (default_os_fields gx2) as (Ho3 & Ha3 & Hn3 & Hd3 & Hp3 & Hj3).
  destruct (default_arch_fields (default_os gx2))
    as (Ho4 & Ha4 & Hn4 & Hd4 & Hp4 & Hj4).
  destruct (resolvePlatforms _ _) as [pfs|e] eqn:Epf; step; [| by intros ?].
  destruct (gatherResources _ w2) as [w3 [res|e]]; step; [| by intros ?].
  destruct (goAbsPkgs _ _ w3) as [w4 [abs|e]]; step; [| by intros ?].
  intros [= <- <-].
  set (g4 := default_arch (default_os gx2)) in *.
  assert (∀ g, Goxz.os (Goxz.set_absPkgs abs (Goxz.set_resources res (Goxz.set_platforms pfs g))) = Goxz.os g
             ∧ Goxz.arch (Goxz.set_absPkgs abs (Goxz.set_resources res (Goxz.set_platforms pfs g))) = Goxz.arch g
             ∧ Goxz.name (Goxz.set_absPkgs abs (Goxz.set_resources res (Goxz.set_platforms pfs g))) = Goxz.name g
             ∧ Goxz.dest (Goxz.set_absPkgs abs (Goxz.set_resources res (Goxz.set_platforms pfs g))) = Goxz.dest g
             ∧ Goxz.pkgs (Goxz.set_absPkgs abs (Goxz.set_resources res (Goxz.set_platforms pfs g))) = Goxz.pkgs g
             ∧ Goxz.projDir (Goxz.set_absPkgs abs (Goxz.set_resources res (Goxz.set_platforms pfs g))) = Goxz.projDir g
             ∧ Goxz.platforms (Goxz.set_absPkgs abs (Goxz.set_resources res (Goxz.set_platforms pfs g))) = pfs)
    as Hset by (by intros []).
  destruct (Hset g4) as (-> & -> & -> & -> & -> & -> & ->).
  rewrite Epf, Ho4, Ha4, Hn4, Hd4, Hp4, Hj4, Ho3, Ha3, Hn3, Hd3, Hp3, Hj3,
    Ho2, Ha2, Hn2, Hd2, Hp2, Hj2, Ho1, Ha1, Hn1, Hd1, Hp1, Hj1, Ho0, Ha0, Hn0, Hd0, Hp0, Hj0.
  done.
Qed.

(** What a successful [init] leaves in the options. *)
Lemma init_defaults (gx : goxz) (w : World) :
  (init gx w).2.2 = None →
  let gx' := (init gx w).2.1 in
  Goxz.os gx' = (if bool_decide (Goxz.os gx = "")
                 then "linux darwin windows" else Goxz.os gx)
  ∧ Goxz.arch gx' = (if bool_decide (Goxz.arch gx = "")
                     then "amd64" else Goxz.arch gx)
  ∧ Goxz.name gx' = (if bool_decide (Goxz.name gx = "")
                     then filepath.Base (Goxz.projDir gx') else Goxz.name gx)
  ∧ Goxz.dest gx' = (if bool_decide (Goxz.dest gx = "")
                     then "goxz" else Goxz.dest gx)
  ∧ Goxz.pkgs gx' = Goxz.pkgs gx
  ∧ resolvePlatforms (Goxz.os gx') (Goxz.arch gx') = Ok (Goxz.platforms gx').
Proof.
  destruct (init gx w) as [w' [gx' e]] eqn:E. simpl. intros ->.
  destruct (init_Ok gx gx' w w' E) as (? & ? & ? & ? & ? & ? & _). done.
Qed.
End DefaultsLemmas.

(** C8: when [parseArgs] succeeds its package list is the positional
    arguments, or ["."] when there are none; and when [init] succeeds
    then, with the values that [resolvePlatforms] was called on, an
    empty OS list has become ["linux darwin windows"], an empty arch
    list ["amd64"], an empty application name the base name of the
    project directory, and an empty destination ["goxz"]. *)
Theorem init_fills_defaults (args : list string) (gx : goxz) (w : World) :
  parseArgs args = Ok gx →
  (init gx w).2.2 = None →
  let gx' := (init gx w).2.1 in
  (∃ g rest,
      flag.Parse parseArgs_flags args parseArgs_defaults = Ok (g, rest)
      ∧ Goxz.pkgs gx' = (if bool_decide (rest = []) then ["."] else rest))
  ∧ Goxz.os gx' = (if bool_decide (Goxz.os gx = "")
                   then "linux darwin windows" else Goxz.os gx)
  ∧ Goxz.arch gx' = (if bool_decide (Goxz.arch gx = "")
                     then "amd64" else Goxz.arch gx)
  ∧ Goxz.name gx' = (if bool_decide (Goxz.name gx = "")
                     then filepath.Base (Goxz.projDir gx') else Goxz.name gx)
  ∧ Goxz.dest gx' = (if bool_decide (Goxz.dest gx = "")
                     then "goxz" else Goxz.dest gx)
  ∧ resolvePlatforms (Goxz.os gx') (Goxz.arch gx') = Ok (Goxz.platforms gx').
Proof.
  intros Hp Hinit gx'.
  destruct (init_defaults gx w Hinit) as (Ho & Ha & Hn & Hd & Hpk & Hpf).
  fold gx' in Ho, Ha, Hn, Hd, Hpk, Hpf.
  destruct (parseArgs_inv args gx Hp) as (g & rest & Hparse & ->).
  split; [| done].
  exists g, rest. split; [done |]. rewrite Hpk. by destruct g.
Qed.

(** C8 for a run without arguments in the sample project. *)
Lemma init_fills_defaults_witness :
  let gx := Goxz.set_pkgs ["."] parseArgs_defaults in
  let gx' := (init gx sample_world).2.1 in
  Goxz.os gx' = "linux darwin windows"
  ∧ Goxz.arch gx' = "amd64"
  ∧ Goxz.name gx' = "proj"
  ∧ Goxz.dest gx' = "goxz"
  ∧ Goxz.pkgs gx' = ["."].
Proof.
  intros gx gx'.
  destruct (init_fills_defaults [] gx sample_world)
    as ((g & rest & Hparse & Hpk) & Ho & Ha & Hn & Hd & _);
    [reflexivity | vm_compute; reflexivity |].
  fold gx' in Hpk, Ho, Ha, Hn, Hd.
  injection Hparse as <- <-.
  split; [exact Ho |]. split; [exact Ha |].
  split; [| split; [exact Hd | exact Hpk]].
  rewrite Hn. vm_compute. reflexivity.
Defined.

(** ** C9: the work directory *)

Section WorkspaceLemmas.

Implicit Types m : gmap (list string) node.

Lemma walk_dirs_kept m m' (cur elems p : list string) :
  dirs_kept m m' → walk m cur elems = Ok p → walk m' cur elems = Ok p.
Proof.
  intros Hk. revert cur; induction elems as [|e elems IH]; intros cur; simpl;
    [done |].
  destruct (node_at m cur) as [[]|] eqn:E; try done.
  rewrite (Hk _ E). repeat case_bool_decide; apply IH.
Qed.

Lemma resolve_dirs_kept (w w' : World) (path : string) (p : list string) :
  dirs_kept (fs w) (fs w') → cwd w' = cwd w →
  resolve w path = Ok p → resolve w' path = Ok p.
Proof.
  intros Hk Hc. unfold resolve. destruct path; [done |]. rewrite Hc.
  by apply walk_dirs_kept.
Qed.

Lemma is_under_refl (p : list string) : is_under p p = true.
Proof. induction p as [|a p IH]; simpl; [done |]. by rewrite bool_decide_eq_true_2. Qed.

Lemma RemoveAll_removes (w : World) (path : string) (p k : list string) :
  resolve w path = Ok p → is_under p k = true →
  fs (os.RemoveAll path w).1 !! k = None.
Proof.
  intros Hp Hk. unfold os.RemoveAll.
  destruct path; [done |]. rewrite Hp. simpl.
  apply map_lookup_filter_None. right. intros nd _. simpl. by rewrite Hk.
Qed.

Lemma RemoveAll_frame (w : World) (path : string) :
  cwd (os.RemoveAll path w).1 = cwd w
  ∧ logged (os.RemoveAll path w).1 = logged w
  ∧ fs (os.RemoveAll path w).1 ⊆ fs w.
Proof.
  unfold os.RemoveAll. destruct path; [done |].
  destruct (resolve _ _) as [p|[]]; simpl; repeat split; try done.
  apply map_filter_subseteq.
Qed.

Lemma Mkdir_spec (w : World) (name : string) :
  match (os.Mkdir name w).2 with
  | None => ∃ p, resolve w name = Ok p ∧ node_at (fs w) p = None
                 ∧ (os.Mkdir name w).1 = set_fs w (<[p := Dir]> (fs w))
  | Some _ => (os.Mkdir name w).1 = w
  end.
Proof.
  unfold os.Mkdir. destruct (resolve w name) as [p|e]; [| done].
  destruct (node_at (fs w) p) eqn:E; [done |]. simpl. by exists p.
Qed.

Lemma resolve_ext (w w' : World) (path : string) :
  fs w' = fs w → cwd w' = cwd w → resolve w' path = resolve w path.
Proof. intros Hf Hc. unfold resolve. by rewrite Hf, Hc. Qed.

(** [ioutil.TempDir]: on success a directory that did not exist is
    created, named by the prefix and a drawn suffix; on failure the
    file tree is as before. *)
Lemma temp_loop_spec (tries : nat) (dir prefix : string) (w : World) :
  let r := ioutil.temp_loop tries dir prefix w in
  cwd r.1 = cwd w ∧ logged r.1 = logged w ∧ GOPATH r.1 = GOPATH w ∧
  match r.2.2 with
  | None =>
    ∃ suffix p,
      r.2.1 = filepath.Join [dir; prefix +:+ suffix]
      ∧ resolve w r.2.1 = Ok p
      ∧ node_at (fs w) p = None
      ∧ fs r.1 = <[p := Dir]> (fs w)
  | Some _ => fs r.1 = fs w
  end.
Proof.
  revert w; induction tries as [|tries IH]; intros w; [done |].
  cbn [ioutil.temp_loop]. unfold draw.
  set (w1 := mkWorld (fs w) (cwd w) (GOPATH w) (suffixes w) (S (drawn w)) (logged w)).
  set (try := filepath.Join [dir; prefix +:+ suffixes w (drawn w)]).
  assert (∀ path, resolve w1 path = resolve w path) as Hres
      by (intros; by apply resolve_ext).
  pose proof (Mkdir_spec w1 try) as Hm.
  destruct (os.Mkdir try w1) as [w2 err]. cbn [fst snd] in Hm.
  destruct err as [e|].
  - subst w2. unfold os.IsExist. case_bool_decide.
    + specialize (IH w1). cbv zeta in IH.
      destruct (ioutil.temp_loop tries dir prefix w1) as [w3 [n e3]].
      cbn [fst snd] in *. destruct IH as (Hc & Hl & Hg & Hr).
      split; [done |]. split; [done |]. split; [done |].
      destruct e3 as [e3|]; [done |].
      destruct Hr as (suffix & p & Hn & Hp & Hnone & Hfs).
      rewrite Hres in Hp. by exists suffix, p.
    + cbn [fst snd]. done.
  - destruct Hm as (p & Hp & Hnone & ->). rewrite Hres in Hp.
    unfold os.IsExist.
    rewrite bool_decide_eq_false_2 by done. cbn [fst snd].
    split; [done |]. split; [done |]. split; [done |].
    by exists (suffixes w (drawn w)), p.
Qed.

End WorkspaceLemmas.

Section WorkspaceRun.

Variable build : builder → IO (outcome (string * option error)).

(** What the theorem on the work directory asks of the builders:
    they leave the working directory of the process alone and remove
    no directory. *)
Hypothesis build_cwd : ∀ b w, cwd (build b w).1 = cwd w.
Hypothesis build_dirs : ∀ b w, dirs_kept (fs w) (fs (build b w).1).
Hypothesis build_log : ∀ b w l, l ∈ logged w → l ∈ logged (build b w).1.

Lemma dirs_kept_insert (m : gmap (list string) node) (p : list string) :
  node_at m p = None → dirs_kept m (<[p := Dir]> m).
Proof.
  intros Hp k Hk. destruct k as [|a k]; [done |]. simpl in *.
  destruct (decide (p = a :: k)) as [->|Hne].
  - by rewrite lookup_insert_eq.
  - by rewrite lookup_insert_ne.
Qed.

Lemma node_at_insert (m : gmap (list string) node) (p : list string) :
  node_at m p = None → node_at (<[p := Dir]> m) p = Some Dir.
Proof.
  destruct p as [|a p]; [done |]. simpl. intros _. apply lookup_insert_eq.
Qed.

Lemma run_builders_frame (bdrs : list builder) (w : World) :
  cwd (run_builders build bdrs w).1 = cwd w
  ∧ dirs_kept (fs w) (fs (run_builders build bdrs w).1)
  ∧ ∀ l, l ∈ logged w → l ∈ logged (run_builders build bdrs w).1.
Proof.
  revert w; induction bdrs as [|b bdrs IH]; intros w.
  - split; [done |]. split; [by intros k | done].
  - cbn [run_builders]. unfold mbind, IO_bind.
    pose proof (build_cwd b w) as Hc. pose proof (build_dirs b w) as Hd.
    pose proof (build_log b w) as Hl.
    destruct (build b w) as [w1 [r|]]; cbn [fst snd] in *.
    + destruct (IH w1) as (Hc' & Hd' & Hl'). split; [congruence |].
      split; [| by intros l Hin; apply Hl', Hl].
      intros k Hk. by apply Hd', Hd.
    + done.
Qed.

(** [run] from the creation of the work directory on: without
    [-work] nothing is left at the place of the directory, on return
    and on panic; with [-work] the directory stays and its path is in
    the log. *)
Lemma run_in_workdir_fs (gx : goxz) (w : World) (p : list string) :
  resolve w (Goxz.workDir gx) = Ok p →
  node_at (fs w) p = Some Dir →
  let w3 := (run_in_workdir build gx w).1 in
  (Goxz.work gx = false → ∀ k, is_under p k = true → fs w3 !! k = None)
  ∧ (Goxz.work gx = true →
     node_at (fs w3) p = Some Dir
     ∧ LogWorkdir (Goxz.workDir gx) ∈ logged w3).
Proof.
  intros Hp Hd. unfold run_in_workdir, defer, mbind, IO_bind, mret, IO_ret.
  destruct (Goxz.work gx) eqn:Ework; cbn [negb].
  - unfold log_Print.
    set (w1 := add_log w (LogWorkdir (Goxz.workDir gx))).
    destruct (run_builders_frame (builders gx) w1) as (Hc & Hk & Hl).
    destruct (run_builders build (builders gx) w1) as [w2 r].
    cbn [fst snd] in *.
    assert (node_at (fs w2) p = Some Dir ∧ LogWorkdir (Goxz.workDir gx) ∈ logged w2)
      as Hgoal.
    { split; [by apply Hk |]. apply Hl. subst w1. simpl.
      apply elem_of_app. right. by left. }
    by destruct r as [[]|]; cbn [fst snd]; split.
  - destruct (run_builders_frame (builders gx) w) as (Hc & Hk & Hl).
    destruct (run_builders build (builders gx) w) as [w2 r].
    cbn [fst snd] in *.
    assert (resolve w2 (Goxz.workDir gx) = Ok p) as Hp2
        by (by apply (resolve_dirs_kept w w2)).
    assert (∀ k, is_under p k = true →
                 fs (os.RemoveAll (Goxz.workDir gx) w2).1 !! k = None) as Hrm
        by (intros k; by apply RemoveAll_removes).
    destruct r as [[]|]; cbv beta iota;
      destruct (os.RemoveAll (Goxz.workDir gx) w2) as [w3 e];
      cbn [fst snd] in *; (split; [intros _; exact Hrm | done]).
Qed.

Lemma prepareWorkdir_spec (gx : goxz) (w : World) :
  Goxz.projDir gx ≠ "" →
  let r := prepareWorkdir gx w in
  cwd r.1 = cwd w
  ∧ Goxz.work r.2.1 = Goxz.work gx
  ∧ match r.2.2 with
    | None =>
      ∃ suffix p,
        Goxz.workDir r.2.1
        = filepath.Join [Goxz.projDir gx; ".goxz-" +:+ suffix]
        ∧ resolve w (Goxz.workDir r.2.1) = Ok p
        ∧ node_at (fs w) p = None
        ∧ fs r.1 = <[p := Dir]> (fs w)
    | Some _ => fs r.1 = fs w
    end.
Proof.
  intros Hne. unfold prepareWorkdir, ioutil.TempDir, mbind, IO_bind, mret, IO_ret.
  rewrite bool_decide_eq_false_2 by done.
  pose proof (temp_loop_spec (100 * 100) (Goxz.projDir gx) ".goxz-" w) as H.
  cbv zeta in H.
  destruct (ioutil.temp_loop (100 * 100) _ _ w) as [w1 [tmpd err]].
  cbn [fst snd] in *. destruct H as (Hc & _ & _ & H).
  split; [done |]. split; [by destruct gx |].
  destruct err as [e|]; [done |].
  destruct H as (suffix & p & -> & Hp & Hnone & Hfs).
  exists suffix, p. by destruct gx.
Qed.

End WorkspaceRun.

(** C9: when [init] has succeeded, [prepareWorkdir] either fails and
    leaves the file tree as it is, or creates a directory that did not
    exist, named [.goxz-] and a random suffix, inside [gx.projDir].
    With builders that keep the working directory of the process,
    remove no directory and only add to the log, [run] then ends, by
    return or by panic, in an environment where without [-work] nothing
    is left at the place of the work directory or under it, and where
    with [-work] the directory is still there and its path is in the
    log. *)
Theorem workspace_lifecycle
        (build : builder → IO (outcome (string * option error)))
        (gx gx0 : goxz) (w w0 : World) :
  (∀ b w, cwd (build b w).1 = cwd w) →
  (∀ b w, dirs_kept (fs w) (fs (build b w).1)) →
  (∀ b w l, l ∈ logged w → l ∈ logged (build b w).1) →
  init gx w = (w0, (gx0, None)) →
  let r1 := prepareWorkdir gx0 w0 in
  let r := run_in_projDir build gx w in
  match r1.2.2 with
  | Some e => fs r1.1 = fs w0 ∧ r = (r1.1, Returned (Some e))
  | None =>
    ∃ suffix p,
      Goxz.workDir r1.2.1
      = filepath.Join [Goxz.projDir gx0; ".goxz-" +:+ suffix]
      ∧ resolve w0 (Goxz.workDir r1.2.1) = Ok p
      ∧ node_at (fs w0) p = None
      ∧ node_at (fs r1.1) p = Some Dir
      ∧ (Goxz.work gx0 = false →
         ∀ k, is_under p k = true → fs r.1 !! k = None)
      ∧ (Goxz.work gx0 = true →
         node_at (fs r.1) p = Some Dir
         ∧ LogWorkdir (Goxz.workDir r1.2.1) ∈ logged r.1)
  end.
Proof.
  intros Hcwd Hdirs Hlog Hinit r1 r. subst r1 r.
  destruct (init_Ok gx gx0 w w0 Hinit) as (_ & _ & _ & _ & _ & _ & Hne).
  pose proof (prepareWorkdir_spec gx0 w0 Hne) as Hprep. cbv zeta in Hprep.
  unfold run_in_projDir, mbind, IO_bind, mret, IO_ret. rewrite Hinit.
  cbv beta iota.
  destruct (prepareWorkdir gx0 w0) as [w1 [gx1 [e|]]]; cbn [fst snd] in *.
  - by destruct Hprep as (_ & _ & ->).
  - destruct Hprep as (Hc & Hwork & suffix & p & Hwd & Hp & Hnone & Hfs).
    assert (node_at (fs w1) p = Some Dir) as Hd
        by (rewrite Hfs; by apply node_at_insert).
    assert (resolve w1 (Goxz.workDir gx1) = Ok p) as Hp1.
    { apply (resolve_dirs_kept w0 w1); [| done | done].
      rewrite Hfs. by apply dirs_kept_insert. }
    exists suffix, p. rewrite <- Hwork.
    repeat (split; [done |]).
    by apply run_in_workdir_fs.
Qed.

(** The sample builder is as the theorem on the work directory asks. *)
Lemma sample_build_frame (b : builder) (w : World) :
  cwd (sample_build b w).1 = cwd w
  ∧ dirs_kept (fs w) (fs (sample_build b w).1)
  ∧ ∀ l, l ∈ logged w → l ∈ logged (sample_build b w).1.
Proof.
  unfold sample_build.
  destruct (bool_decide _); [| by split; [| split; [intros k |]]].
  set (key := cwd w ++ _).
  destruct (fs w !! key) as [[]|] eqn:E; cbn [fst snd];
    try (by split; [| split; [intros k |]]).
  all: split; [done |]; split; [| done].
  all: intros k Hk; destruct k as [|a k]; [done |].
  all: cbn [node_at fs set_fs] in *.
  all: rewrite lookup_insert_ne; [done | congruence].
Qed.

(** C9 for a run without arguments in the sample project: the work
    directory [.goxz-271828] is created in the project directory and is
    gone when [run] ends. *)
Lemma workspace_lifecycle_witness :
  let gx := Goxz.set_pkgs ["."] parseArgs_defaults in
  fs (run_in_projDir sample_build gx sample_world).1
    !! (sample_proj ++ [".goxz-271828"]) = None.
Proof.
  intros gx.
  assert ((init gx sample_world).2.2 = None) as Hnone
      by (vm_compute; reflexivity).
  assert (init gx sample_world
          = ((init gx sample_world).1, ((init gx sample_world).2.1, None)))
    as Hinit.
  { rewrite <- Hnone. by destruct (init gx sample_world) as [? [? ?]]. }
  pose proof (workspace_lifecycle sample_build gx (init gx sample_world).2.1
                sample_world (init gx sample_world).1
                (λ b w, proj1 (sample_build_frame b w))
                (λ b w, proj1 (proj2 (sample_build_frame b w)))
                (λ b w, proj2 (proj2 (sample_build_frame b w)))
                Hinit) as H.
  cbv zeta in H.
  assert ((prepareWorkdir (init gx sample_world).2.1 (init gx sample_world).1).2.2 = None)
    as Hprep by (vm_compute; reflexivity).
  rewrite Hprep in H.
  destruct H as (suffix & p & _ & Hp & _ & _ & Hgone & _).
  vm_compute in Hp. injection Hp as <-.
  apply Hgone; [vm_compute; reflexivity | reflexivity].
Defined.

(** ** C10: package paths *)

Section PathLemmas.

Lemma split_on_cons (sep c : ascii) (s : string) :
  split_on sep (String c s)
  = if bool_decide (c = sep) then "" :: split_on sep s
    else match split_on sep s with
         | h :: t => String c h :: t
         | [] => [String c ""]
         end.
Proof. reflexivity. Qed.

Lemma split_on_nonempty (sep : ascii) (s : string) : split_on sep s ≠ [].
Proof.
  induction s as [|c s IH]; [done |]. rewrite split_on_cons.
  case_bool_decide; [done |]. by destruct (split_on sep s).
Qed.

Lemma split_on_no_sep (sep : ascii) (s : string) :
  has_byte sep s = false → split_on sep s = [s].
Proof.
  induction s as [|c s IH]; [done |]. cbn [has_byte].
  intros [Hc Hs]%orb_false_iff. rewrite split_on_cons, Hc, IH; done.
Qed.

Lemma split_on_elems (sep : ascii) (s : string) :
  Forall (λ e, has_byte sep e = false) (split_on sep s).
Proof.
  induction s as [|c s IH]; [by repeat constructor |].
  rewrite split_on_cons. destruct (bool_decide (c = sep)) eqn:E.
  - by constructor.
  - destruct (split_on sep s) as [|h t]; [by repeat constructor; cbn; rewrite E |].
    apply Forall_cons in IH as [Hh Ht]. constructor; [| done].
    cbn. by rewrite E, Hh.
Qed.

(** The pieces of a concatenation: the last piece of the first string
    and the first piece of the second are joined. *)
Lemma split_on_app (sep : ascii) (a b : string) (es rs : list string)
      (l r0 : string) :
  split_on sep a = es ++ [l] → split_on sep b = r0 :: rs →
  split_on sep (a +:+ b) = es ++ (l +:+ r0) :: rs.
Proof.
  intros Ha Hb. revert es l Ha; induction a as [|c a IH]; intros es l Ha.
  - destruct es as [|e es]; [| by destruct es].
    cbn in Ha. injection Ha as <-. by rewrite !string_app_nil_l.
  - rewrite string_app_cons, split_on_cons. rewrite split_on_cons in Ha.
    case_bool_decide.
    + destruct es as [|e es]; cbn in Ha; injection Ha as <- Ha.
      * by apply split_on_nonempty in Ha.
      * by rewrite (IH es l).
    + destruct (split_on sep a) as [|h t] eqn:Es.
      { by apply split_on_nonempty in Es. }
      destruct es as [|e es]; cbn in Ha; injection Ha as <- Ha.
      * subst t. by rewrite (IH [] h).
      * subst t. by rewrite (IH (h :: es) l).
Qed.

Lemma join_path_cons (e : string) (l : list string) :
  l ≠ [] → join_path (e :: l) = e +:+ "/" +:+ join_path l.
Proof. by destruct l. Qed.

Lemma split_join (l : list string) :
  l ≠ [] → Forall (λ e, has_byte Separator e = false) l →
  split_path (join_path l) = l.
Proof.
  induction l as [|e l IH]; [done |]. intros _ [He Hl]%Forall_cons.
  destruct l as [|e' l].
  - by apply split_on_no_sep.
  - rewrite join_path_cons by done. unfold split_path.
    rewrite (split_on_app _ e _ [] (e' :: l) e "").
    + by rewrite string_app_nil_r.
    + by apply split_on_no_sep.
    + change (split_on Separator (String Separator (join_path (e' :: l)))
              = "" :: e' :: l).
      rewrite split_on_cons, bool_decide_eq_true_2 by done.
      f_equal. by apply IH.
Qed.


Lemma clean_step_normal (rooted : bool) (out : list string) (e : string) :
  normal_elem e → filepath.clean_step rooted out e = e :: out.
Proof.
  intros (H1 & H2 & H3 & _). unfold filepath.clean_step.
  by rewrite !bool_decide_eq_false_2.
Qed.

Lemma clean_step_out (rooted : bool) (out : list string) (e : string) :
  has_byte Separator e = false →
  clean_out rooted out → clean_out rooted (filepath.clean_step rooted out e).
Proof.
  intros He (n & reals & -> & Hr & Hn). unfold filepath.clean_step.
  case_bool_decide; [by exists n, reals |].
  case_bool_decide; [by exists n, reals |].
  case_bool_decide as Hdd.
  - subst e. destruct reals as [|r reals].
    + cbn [app]. destruct n as [|n].
      * cbn [replicate]. destruct rooted.
        -- by exists 0, [].
        -- exists 1, []. by repeat split.
      * cbn [replicate]. rewrite bool_decide_eq_true_2 by done.
        exists (S (S n)), []. repeat split; [done |].
        intros Hro. by specialize (Hn Hro).
    + apply Forall_cons in Hr as [(_ & _ & Hr3 & _) Hr].
      cbn [app]. rewrite bool_decide_eq_false_2 by done.
      by exists n, reals.
  - exists n, (e :: reals). repeat split; [| done].
    constructor; [| done]. by repeat split.
Qed.

Lemma clean_fold_out (rooted : bool) (l out : list string) :
  Forall (λ e, has_byte Separator e = false) l →
  clean_out rooted out →
  clean_out rooted (fold_left (filepath.clean_step rooted) l out).
Proof.
  revert out; induction l as [|e l IH]; intros out Hl Ho; [done |].
  apply Forall_cons in Hl as [He Hl]. cbn [fold_left].
  apply IH; [done |]. by apply clean_step_out.
Qed.

Lemma clean_fold_normal (rooted : bool) (l out : list string) :
  Forall normal_elem l →
  fold_left (filepath.clean_step rooted) l out = rev l ++ out.
Proof.
  revert out; induction l as [|e l IH]; intros out Hl; [done |].
  apply Forall_cons in Hl as [He Hl]. cbn [fold_left rev].
  rewrite clean_step_normal, IH by done. by rewrite <- app_assoc.
Qed.

Lemma clean_fold_dotdots (n m : nat) :
  fold_left (filepath.clean_step false) (replicate n "..") (replicate m "..")
  = replicate (n + m) "..".
Proof.
  revert m; induction n as [|n IH]; intros m; [done |].
  cbn [replicate fold_left].
  replace (filepath.clean_step false (replicate m "..") "..")
    with (replicate (S m) "..").
  - rewrite IH. f_equal. lia.
  - by destruct m.
Qed.

(** Reading back the elements written gives the same elements. *)
Lemma clean_fold_fixed (rooted : bool) (out : list string) :
  clean_out rooted out →
  fold_left (filepath.clean_step rooted) (rev out) [] = out.
Proof.
  intros (n & reals & -> & Hr & Hn).
  rewrite rev_app_distr, fold_left_app.
  assert (rev (replicate n "..") = replicate n "..") as ->.
  { clear. induction n as [|n IH]; [done |]. cbn [replicate rev]. rewrite IH.
    clear. induction n as [|n IH]; [done |]. cbn [replicate app].
    by rewrite IH. }
  assert (fold_left (filepath.clean_step rooted) (replicate n "..") []
          = replicate n "..") as ->.
  { destruct rooted.
    - by rewrite (Hn eq_refl).
    - pose proof (clean_fold_dotdots n 0) as Hdd. cbn [replicate] in Hdd.
      rewrite Hdd. f_equal. lia. }
  rewrite clean_fold_normal.
  - by rewrite rev_involutive.
  - apply Forall_forall. intros e He. rewrite Forall_forall in Hr.
    apply Hr. apply list_elem_of_In. apply in_rev. by apply list_elem_of_In.
Qed.

Lemma clean_out_elems (rooted : bool) (out : list string) :
  clean_out rooted out →
  Forall (λ e, e ≠ "" ∧ has_byte Separator e = false) out.
Proof.
  intros (n & reals & -> & Hr & _). apply Forall_app. split.
  - eapply Forall_impl; [done |]. by intros e (? & _ & _ & ?).
  - apply Forall_forall. by intros e [-> _]%elem_of_replicate.
Qed.


Lemma Clean_unfold (path : string) :
  filepath.Clean path
  = let out := fold_left (filepath.clean_step (is_rooted path))
                         (split_path path) [] in
    if bool_decide (clean_str (is_rooted path) out = "") then "."
    else clean_str (is_rooted path) out.
Proof. reflexivity. Qed.

Lemma Clean_out (path : string) :
  clean_out (is_rooted path)
            (fold_left (filepath.clean_step (is_rooted path))
                       (split_path path) []).
Proof.
  apply clean_fold_out; [apply split_on_elems |].
  exists 0, []. by repeat split.
Qed.

Lemma join_path_rooted (l : list string) :
  l ≠ [] → Forall (λ e, e ≠ "" ∧ has_byte Separator e = false) l →
  is_rooted (join_path l) = false ∧ join_path l ≠ "".
Proof.
  destruct l as [|e l]; [done |]. intros _ [[He Hs] _]%Forall_cons.
  destruct e as [|c e]; [done |]. cbn [has_byte] in Hs.
  apply orb_false_iff in Hs as [Hc _].
  destruct l as [|e' l].
  - cbn. by rewrite Hc.
  - rewrite join_path_cons by done. rewrite string_app_cons. cbn.
    by rewrite Hc.
Qed.

Lemma clean_str_spec (rooted : bool) (out : list string) :
  clean_out rooted out → out ≠ [] →
  is_rooted (clean_str rooted out) = rooted
  ∧ split_path (clean_str rooted out)
    = (if rooted then "" :: rev out else rev out)
  ∧ clean_str rooted out ≠ "".
Proof.
  intros Ho Hne. pose proof (clean_out_elems _ _ Ho) as He.
  assert (rev out ≠ []) as Hr.
  { intros Hr. apply Hne. by rewrite <- (rev_involutive out), Hr. }
  assert (Forall (λ e, e ≠ "" ∧ has_byte Separator e = false) (rev out)) as He'.
  { apply Forall_forall. intros e Hin. rewrite Forall_forall in He.
    apply He, list_elem_of_In, in_rev, list_elem_of_In, Hin. }
  assert (Forall (λ e, has_byte Separator e = false) (rev out)) as Hs.
  { eapply Forall_impl; [exact He' |]. by intros e [_ ?]. }
  unfold clean_str. destruct rooted.
  - change ("/" +:+ join_path (rev out)) with (String Separator (join_path (rev out))).
    split; [done |]. split; [| done].
    unfold split_path. rewrite split_on_cons, bool_decide_eq_true_2 by done.
    f_equal. by apply split_join.
  - rewrite string_app_nil_l.
    destruct (join_path_rooted (rev out) Hr He') as [H1 H2].
    split; [done |]. split; [| done]. by apply split_join.
Qed.

(** [filepath.Clean] is idempotent. *)
Lemma Clean_idem (path : string) :
  filepath.Clean (filepath.Clean path) = filepath.Clean path.
Proof.
  rewrite (Clean_unfold path). cbv zeta.
  pose proof (Clean_out path) as Ho.
  set (rooted := is_rooted path) in *.
  set (out := fold_left _ _ _) in *.
  destruct (decide (out = [])) as [->|Hne].
  - by destruct rooted.
  - destruct (clean_str_spec rooted out Ho Hne) as (Hr & Hs & Hn).
    rewrite bool_decide_eq_false_2 by done.
    rewrite Clean_unfold, Hr, Hs. cbv zeta.
    assert (fold_left (filepath.clean_step rooted)
                      (if rooted then "" :: rev out else rev out) [] = out)
      as ->.
    { destruct rooted; [cbn [fold_left] |]; by apply clean_fold_fixed. }
    by rewrite bool_decide_eq_false_2.
Qed.


Lemma split_path_snoc (c e : string) :
  has_byte Separator e = false →
  split_path (c +:+ "/" +:+ e) = split_path c ++ [e].
Proof.
  intros He. unfold split_path.
  destruct (split_on Separator c) as [|x xs] eqn:Ec using rev_ind.
  { by apply split_on_nonempty in Ec. }
  clear IHxs.
  rewrite (split_on_app _ c _ xs [e] x "" Ec).
  - by rewrite string_app_nil_r, <- app_assoc.
  - change ("/" +:+ e) with (String Separator e).
    rewrite split_on_cons, bool_decide_eq_true_2 by done.
    f_equal. by apply split_on_no_sep.
Qed.

(** A cleaned path that ends in a real element. *)
Lemma Clean_snoc (c e : string) :
  c ≠ "" → normal_elem e →
  ∃ es, split_path (filepath.Clean (c +:+ "/" +:+ e)) = es ++ [e].
Proof.
  intros Hc He. pose proof He as (_ & _ & _ & Hs).
  rewrite Clean_unfold. cbv zeta.
  pose proof (Clean_out (c +:+ "/" +:+ e)) as Ho.
  set (rooted := is_rooted _) in *.
  rewrite split_path_snoc in * by done.
  rewrite fold_left_app in *. cbn [fold_left] in *.
  rewrite clean_step_normal in * by done.
  set (out := fold_left _ _ _) in *.
  destruct (clean_str_spec rooted (e :: out) Ho ltac:(done)) as (_ & Hsp & Hn).
  rewrite bool_decide_eq_false_2 by done. rewrite Hsp. cbn [rev].
  destruct rooted; [by exists ("" :: rev out) | by exists (rev out)].
Qed.

Lemma rel_walk_prefix (es rs : list string) (l r0 : string) :
  let elem := (filepath.rel_walk (es ++ [l]) (es ++ (l +:+ r0) :: rs)).2 in
  elem = "" ∨ elem = l.
Proof.
  induction es as [|e es IH]; cbn [app filepath.rel_walk].
  - destruct (_ || _); [by left |].
    case_bool_decide; [by left | by right].
  - destruct (_ || _); [by left |].
    by rewrite bool_decide_eq_true_2.
Qed.

(** [filepath.Rel] does not fail from a cleaned base that ends in a
    real element to a cleaned path that begins with the base. *)
Lemma Rel_prefix (base targ : string) (es : list string) (l : string) :
  filepath.Clean base = base → filepath.Clean targ = targ →
  strings.HasPrefix targ base = true →
  split_path base = es ++ [l] → normal_elem l →
  ∃ r, filepath.Rel base targ = Ok r.
Proof.
  intros Hb Ht Hp Hsp (_ & Hl1 & Hl2 & _). unfold filepath.Rel.
  rewrite Hb, Ht. case_bool_decide; [by eexists |].
  assert (base ≠ ".") as Hdot.
  { intros ->. change (split_path ".") with ["."] in Hsp.
    destruct es as [|x es]; [| by destruct es].
    cbn in Hsp. injection Hsp as <-. done. }
  rewrite (bool_decide_eq_false_2 (base = ".")) by done.
  apply HasPrefix_iff in Hp as [rest ->].
  assert (is_rooted base = is_rooted (base +:+ rest)) as Hr.
  { destruct base as [|c b]; [| done].
    by pose proof (Clean_nonempty "") as Hne; rewrite Hb in Hne. }
  rewrite (bool_decide_eq_true_2 _ Hr). cbn [negb].
  destruct (split_on Separator rest) as [|r0 rs] eqn:Er.
  { by apply split_on_nonempty in Er. }
  pose proof (rel_walk_prefix es rs l r0) as Hw. cbv zeta in Hw.
  unfold split_path in *.
  rewrite (split_on_app _ base rest es rs l r0 Hsp Er), Hsp.
  destruct (filepath.rel_walk _ _) as [[b t] elem]. cbn [snd] in Hw.
  rewrite bool_decide_eq_false_2 by (by destruct Hw as [-> | ->]).
  destruct (negb _); by eexists.
Qed.


Lemma gosrcs_loop (l acc : list string) :
  fold_left (λ gosrcs gopath,
               gosrcs ++ [filepath.Join [filepath.Clean gopath; "src"]]) l acc
  = acc ++ ((λ gopath, filepath.Join [filepath.Clean gopath; "src"]) <$> l).
Proof.
  revert acc; induction l as [|g l IH]; intros acc; cbn [fold_left fmap list_fmap].
  - by rewrite app_nil_r.
  - by rewrite IH, <- app_assoc.
Qed.

Lemma gosrc_cleaned (gopath : string) :
  let gosrc := filepath.Join [filepath.Clean gopath; "src"] in
  filepath.Clean gosrc = gosrc ∧ ∃ es, split_path gosrc = es ++ ["src"].
Proof.
  cbn [filepath.Join].
  rewrite (bool_decide_eq_false_2 _ (Clean_nonempty gopath)).
  change (join_path [filepath.Clean gopath; "src"])
    with (filepath.Clean gopath +:+ "/" +:+ "src").
  split; [apply Clean_idem |].
  apply Clean_snoc; [apply Clean_nonempty | by repeat split].
Qed.

Lemma goAbsPkgs_gosrcs_Ok (absPath pkg : string) (gosrcs : list string) :
  filepath.Clean absPath = absPath →
  Forall (λ gosrc, filepath.Clean gosrc = gosrc
                   ∧ ∃ es, split_path gosrc = es ++ ["src"]) gosrcs →
  ∃ r, goAbsPkgs_gosrcs absPath pkg gosrcs = Ok r
       ∧ (r = pkg
          ∨ ∃ gosrc, gosrc ∈ gosrcs
                     ∧ strings.HasPrefix absPath gosrc = true
                     ∧ filepath.Rel gosrc absPath = Ok r).
Proof.
  intros Ha. induction gosrcs as [|g gosrcs IH]; intros Hg.
  - exists pkg. by split; [| left].
  - apply Forall_cons in Hg as [[Hc [es Hes]] Hg]. cbn [goAbsPkgs_gosrcs].
    destruct (strings.HasPrefix absPath g) eqn:Hp.
    + destruct (Rel_prefix g absPath es "src" Hc Ha Hp Hes) as [r Hr];
        [by repeat split |].
      rewrite Hr. exists r. split; [done |]. right. exists g.
      split; [by left | done].
    + destruct (IH Hg) as (r & Hr & Hor). exists r. split; [done |].
      destruct Hor as [-> | (g' & Hin & ? & ?)]; [by left |].
      right. exists g'. split; [by right | done].
Qed.

Lemma goAbsPkgs_loop_Ok (G : string) (projDir : string) (pkgs : list string) :
  ∃ stuff,
    goAbsPkgs_loop (gosrcs_of G) projDir pkgs = Ok stuff
    ∧ Forall2 (abs_pkg_of (gosrcs_of G) projDir) pkgs stuff.
Proof.
  induction pkgs as [|pkg pkgs (stuff & Hs & Hf)].
  - by exists [].
  - cbn [goAbsPkgs_loop].
    assert (∃ pkg',
               (if strings.HasPrefix pkg "." then
                  goAbsPkgs_gosrcs
                    (filepath.Clean (filepath.Join [projDir; pkg])) pkg (gosrcs_of G)
                else Ok pkg) = Ok pkg'
               ∧ abs_pkg_of (gosrcs_of G) projDir pkg pkg') as (pkg' & -> & Hpkg).
    { destruct (strings.HasPrefix pkg ".") eqn:Hdot.
      - destruct (goAbsPkgs_gosrcs_Ok
                    (filepath.Clean (filepath.Join [projDir; pkg])) pkg (gosrcs_of G))
          as (r & Hr & Hor).
        + apply Clean_idem.
        + apply Forall_forall. intros g (gp & -> & _)%list_elem_of_fmap.
          apply gosrc_cleaned.
        + exists r. split; [done |]. split; [by rewrite Hdot |].
          destruct Hor as [-> | Hex]; [by left | right]. by rewrite Hdot.
      - exists pkg. split; [done |]. by split; [| left]. }
    rewrite Hs. exists (pkg' :: stuff). split; [done |]. by constructor.
Qed.

Lemma goAbsPkgs_eq (pkgs : list string) (projDir : string) (w : World) :
  goAbsPkgs pkgs projDir w
  = (w, goAbsPkgs_loop (gosrcs_of (GOPATH w)) projDir pkgs).
Proof. unfold goAbsPkgs. by rewrite gosrcs_loop. Qed.

End PathLemmas.


(** * Further properties *)

(** ** Cleaned paths and the files they name *)

Section PathResolution.

Implicit Types m : gmap (list string) node.

Lemma walk_app m (s l1 l2 : list string) :
  walk m s (l1 ++ l2)
  = match walk m s l1 with
    | Ok c => walk m c l2
    | Err e => Err e
    end.
Proof.
  revert s; induction l1 as [|e l1 IH]; intros s; [done |].
  cbn [app walk]. destruct (node_at m s) as [[]|]; try done.
  repeat case_bool_decide; apply IH.
Qed.

Lemma walk_normal m (c : list string) (e : string) :
  normal_elem e → node_at m c = Some Dir → walk m c [e] = Ok (c ++ [e]).
Proof.
  intros (_ & H1 & H2 & _) Hd. cbn [walk]. rewrite Hd.
  by rewrite !bool_decide_eq_false_2.
Qed.

Lemma walk_cons_inv m (c p : list string) (e : string) (rest : list string) :
  walk m c (e :: rest) = Ok p →
  node_at m c = Some Dir
  ∧ walk m (if bool_decide (e = ".") then c
            else if bool_decide (e = "..") then removelast c
                 else c ++ [e]) rest = Ok p.
Proof.
  cbn [walk]. destruct (node_at m c) as [[]|]; try done.
  by repeat case_bool_decide.
Qed.

Lemma clean_out_cons (rooted : bool) (h : string) (t : list string) :
  clean_out rooted (h :: t) →
  (h = ".." ∧ rooted = false ∧ ∃ n, t = replicate n "..")
  ∨ (normal_elem h ∧ clean_out rooted t).
Proof.
  intros (n & reals & Heq & Hr & Hn). destruct reals as [|r reals].
  - left. destruct n as [|n]; [done |]. cbn in Heq. injection Heq as -> ->.
    split; [done |]. split; [| by exists n].
    destruct rooted; [by specialize (Hn eq_refl) | done].
  - right. cbn in Heq. injection Heq as -> ->.
    apply Forall_cons in Hr as [Hh Hr]. split; [done |]. by exists n, reals.
Qed.

(** Lexical cleaning keeps the file that a path names: when the
    elements of a path lead somewhere, so do the elements that
    [Clean] writes for them. *)
Lemma walk_clean m (rooted : bool) (start : list string)
      (rest out c p : list string) :
  (rooted = true → start = []) →
  Forall (λ e, has_byte Separator e = false) rest →
  clean_out rooted out →
  walk m start (rev out) = Ok c →
  walk m c (filter (λ e, e ≠ "") rest) = Ok p →
  walk m start (rev (fold_left (filepath.clean_step rooted) rest out)) = Ok p.
Proof.
  intros Hroot. revert out c; induction rest as [|e rest IH];
    intros out c Hsep Hout Hc Hp.
  - cbn in Hp. by simplify_eq.
  - apply Forall_cons in Hsep as [He Hsep]. cbn [fold_left].
    pose proof (clean_step_out rooted out e He Hout) as Hout'.
    rewrite filter_cons in Hp.
    destruct (decide (e ≠ "")) as [Hne|Hemp].
    2:{ assert (e = "") as -> by (by destruct (decide (e = ""))).
        by apply (IH out c). }
    apply walk_cons_inv in Hp as [Hd Hp].
    unfold filepath.clean_step in *.
    rewrite (bool_decide_eq_false_2 (e = "")) in * by done.
    destruct (bool_decide (e = ".")) eqn:Edot; [by apply (IH out c) |].
    destruct (bool_decide (e = "..")) eqn:Edd.
    + apply bool_decide_eq_true in Edd as ->.
      destruct out as [|h t].
      * cbn in Hc. injection Hc as <-. destruct rooted.
        -- rewrite (Hroot eq_refl) in *. by apply (IH [] []).
        -- apply (IH [".."] (removelast start)); try done.
           cbn [rev app walk]. rewrite Hd.
           by rewrite bool_decide_eq_false_2, bool_decide_eq_true_2.
      * destruct (clean_out_cons _ _ _ Hout) as [(-> & -> & n & ->) | [Hh Ht]].
        -- rewrite bool_decide_eq_true_2 in * by done.
           apply (IH (".." :: ".." :: replicate n "..") (removelast c)); try done.
           change (rev (".." :: ".." :: replicate n ".."))
             with (rev (".." :: replicate n "..") ++ [".."]).
           rewrite walk_app, Hc. cbn [walk]. rewrite Hd.
           by rewrite bool_decide_eq_false_2, bool_decide_eq_true_2.
        -- destruct Hh as (Hh0 & Hh1 & Hh2 & Hh3).
           rewrite (bool_decide_eq_false_2 (h = "..")) in * by done.
           cbn [rev] in Hc. rewrite walk_app in Hc.
           destruct (walk m start (rev t)) as [c'|] eqn:Ec'; [| done].
           assert (node_at m c' = Some Dir) as Hd'.
           { cbn [walk] in Hc. by destruct (node_at m c') as [[]|]. }
           rewrite walk_normal in Hc by done. injection Hc as <-.
           rewrite removelast_last in Hp. by apply (IH t c').
    + apply bool_decide_eq_false in Edot, Edd.
      apply (IH (e :: out) (c ++ [e])); try done.
      cbn [rev]. rewrite walk_app, Hc. apply walk_normal; [| done].
      by repeat split.
Qed.


Lemma resolve_unfold (w : World) (path : string) :
  path ≠ "" →
  resolve w path
  = walk (fs w) (if is_rooted path then [] else cwd w)
         (filter (λ e, e ≠ "") (split_path path)).
Proof. by destruct path. Qed.

Lemma filter_nonempty_id (l : list string) :
  Forall (λ e, e ≠ "" ∧ has_byte Separator e = false) l →
  filter (λ e, e ≠ "") l = l.
Proof.
  induction l as [|e l IH]; [done |]. intros [[He _] Hl]%Forall_cons.
  rewrite filter_cons_True by done. by rewrite IH.
Qed.

(** [filepath.Join(dir, n)] names the entry [n] of the directory that
    [dir] names. *)
Lemma resolve_Join (w : World) (dir n : string) (p : list string) :
  resolve w dir = Ok p → node_at (fs w) p = Some Dir → normal_elem n →
  resolve w (filepath.Join [dir; n]) = Ok (p ++ [n]).
Proof.
  intros Hp Hd Hn. pose proof Hn as (_ & _ & _ & Hsep).
  assert (dir ≠ "") as Hne by (by intros ->).
  rewrite resolve_unfold in Hp by done.
  cbn [filepath.Join]. rewrite (bool_decide_eq_false_2 _ Hne).
  change (join_path [dir; n]) with (dir +:+ "/" +:+ n).
  rewrite Clean_unfold. cbv zeta.
  pose proof (Clean_out (dir +:+ "/" +:+ n)) as Ho.
  assert (is_rooted (dir +:+ "/" +:+ n) = is_rooted dir) as Hr
      by (by destruct dir).
  rewrite Hr in *. set (rooted := is_rooted dir) in *.
  rewrite split_path_snoc in * by done.
  rewrite fold_left_app in *. cbn [fold_left] in *.
  rewrite clean_step_normal in * by done.
  assert (walk (fs w) (if rooted then [] else cwd w)
               (rev (fold_left (filepath.clean_step rooted) (split_path dir) []))
          = Ok p) as Hw.
  { apply (walk_clean _ rooted _ (split_path dir) [] (if rooted then [] else cwd w));
      try done.
    - by intros ->.
    - apply split_on_elems.
    - exists 0, []. by repeat split. }
  set (out := fold_left _ _ _) in *.
  destruct (clean_str_spec rooted (n :: out) Ho ltac:(done)) as (Hro & Hsp & Hnn).
  rewrite bool_decide_eq_false_2 by done.
  rewrite resolve_unfold, Hro, Hsp by done.
  pose proof (clean_out_elems _ _ Ho) as Hel.
  assert (Forall (λ e, e ≠ "" ∧ has_byte Separator e = false) (rev (n :: out)))
    as Hel'.
  { apply Forall_forall. intros e Hin. rewrite Forall_forall in Hel.
    apply Hel, list_elem_of_In, in_rev, list_elem_of_In, Hin. }
  assert (filter (λ e, e ≠ "") (if rooted then "" :: rev (n :: out) else rev (n :: out))
          = rev (n :: out)) as ->.
  { destruct rooted; [rewrite filter_cons_False by (by intros ?) |];
      by apply filter_nonempty_id. }
  cbn [rev]. rewrite walk_app, Hw. by apply walk_normal.
Qed.

End PathResolution.

(** ** The destination directory *)

Section DestLemmas.

Implicit Types m : gmap (list string) node.

Lemma entries_names_NoDup m (p : list string) :
  NoDup (Name <$> entries m p).
Proof.
  unfold entries. pose proof (NoDup_fst_map_to_list m) as Hnd.
  induction (map_to_list m) as [|[k v] l IH]; [constructor |].
  cbn [fmap list_fmap fst] in Hnd. apply NoDup_cons in Hnd as [Hk Hnd].
  cbn [omap list_omap fst snd].
  destruct (child_name p k) as [n|] eqn:En; cbn [fmap option_fmap option_map];
    [| by apply IH].
  cbn [fmap list_fmap Name]. constructor; [| by apply IH].
  intros (f & Hf & Hin)%list_elem_of_fmap. apply list_elem_of_omap in Hin as ([k' v'] & Hin & Hkv).
  cbn [fst snd] in Hkv.
  destruct (child_name p k') as [n'|] eqn:En'; cbn in Hkv; [| done].
  injection Hkv as <-. cbn in Hf. subst n'.
  apply child_name_Some in En, En'. subst k k'.
  apply Hk. apply list_elem_of_fmap. exists (p ++ [n], v'). split; [reflexivity | exact Hin].
Qed.

Lemma well_named_child m (p : list string) (n : string) (nd : node) :
  well_named m → m !! (p ++ [n]) = Some nd → normal_elem n.
Proof.
  intros Hw Hl. specialize (Hw _ _ Hl).
  apply Forall_app in Hw as [_ Hn]. by apply Forall_cons in Hn as [Hn _].
Qed.

(** [ioutil.ReadDir]: the listing names each entry once. *)
Lemma ReadDir_NoDup (w : World) (dir : string) (files : list FileInfo) :
  ioutil.ReadDir dir w = (w, Ok files) → NoDup (Name <$> files).
Proof.
  unfold ioutil.ReadDir. destruct (resolve w dir) as [p|]; [| done].
  destruct (node_at (fs w) p) as [[]|]; try done.
  intros [= <-]. rewrite merge_sort_Permutation. apply entries_names_NoDup.
Qed.


Lemma node_at_snoc m (p : list string) (n : string) :
  node_at m (p ++ [n]) = m !! (p ++ [n]).
Proof. by destruct p. Qed.

Lemma dirs_kept_delete m (k : list string) :
  m !! k ≠ Some Dir → dirs_kept m (delete k m).
Proof.
  intros Hk [|a q] Hq; [done |]. cbn [node_at] in *.
  destruct (decide (k = a :: q)) as [->|Hne]; [done |].
  by rewrite lookup_delete_ne.
Qed.

Lemma setupDest_loop_spec (dir : string) (p : list string)
      (files : list FileInfo) (w0 : World) :
  resolve w0 dir = Ok p → node_at (fs w0) p = Some Dir →
  NoDup (Name <$> files) →
  (∀ f, f ∈ files →
        fs w0 !! (p ++ [Name f]) = Some (Mode f) ∧ normal_elem (Name f)) →
  ∃ w', setupDest_loop dir files w0 = (w', None)
        ∧ cwd w' = cwd w0
        ∧ (∀ f, f ∈ files → is_stale f = true → fs w' !! (p ++ [Name f]) = None)
        ∧ (∀ k, (∀ f, f ∈ files → is_stale f = true → k ≠ p ++ [Name f]) →
                fs w' !! k = fs w0 !! k).
Proof.
  revert w0; induction files as [|f files IH]; intros w0 Hp Hd Hnd Hfiles.
  - exists w0. repeat split; try done. by intros f Hf%elem_of_nil.
  - cbn [fmap list_fmap] in Hnd. apply NoDup_cons in Hnd as [Hnf Hnd].
    assert (∀ f', f' ∈ files → Name f' ≠ Name f) as Hdiff.
    { intros f' Hf' Heq. apply Hnf. rewrite <- Heq.
      apply list_elem_of_fmap. by exists f'. }
    destruct (Hfiles f ltac:(by left)) as [Hf Hn].
    cbn [setupDest_loop]. unfold is_stale in *.
    destruct (IsRegular (Mode f)) eqn:Hreg; cbn [negb andb].
    2:{ destruct (IH w0) as (w' & Hl & Hc & Hgone & Hkeep); try done.
        { intros f' Hf'. apply Hfiles. by right. }
        exists w'. split; [done |]. split; [done |]. split.
        - intros f' [->|Hf']%elem_of_cons Hs; [by rewrite Hreg in Hs |].
          by apply Hgone.
        - intros k Hk. apply Hkeep. intros f' Hf'. apply Hk. by right. }
    destruct (strings.HasPrefix (Name f) ".zip" || strings.HasPrefix (Name f) ".tar.gz")
      eqn:Hpre.
    2:{ destruct (IH w0) as (w' & Hl & Hc & Hgone & Hkeep); try done.
        { intros f' Hf'. apply Hfiles. by right. }
        exists w'. split; [done |]. split; [done |]. split.
        - intros f' [->|Hf']%elem_of_cons Hs;
            [by rewrite Hreg, Hpre in Hs |].
          by apply Hgone.
        - intros k Hk. apply Hkeep. intros f' Hf'. apply Hk. by right. }
    apply bool_decide_eq_true in Hreg. rewrite Hreg in Hf.
    unfold mbind, IO_bind, log_Print.
    set (w1 := add_log w0 (LogRemoving (filepath.Join [dir; Name f]))).
    assert (resolve w1 (filepath.Join [dir; Name f]) = Ok (p ++ [Name f])) as Hr.
    { rewrite (resolve_ext w0 w1) by done. by apply resolve_Join. }
    unfold os.Remove. rewrite Hr, node_at_snoc.
    change (fs w1) with (fs w0). rewrite Hf.
    set (w2 := set_fs w1 (delete (p ++ [Name f]) (fs w0))).
    assert (dirs_kept (fs w0) (fs w2)) as Hkept.
    { apply dirs_kept_delete. by rewrite Hf. }
    destruct (IH w2) as (w' & Hl & Hc & Hgone & Hkeep); try done.
    { by apply (resolve_dirs_kept w0 w2). }
    { by apply Hkept. }
    { intros f' Hf'. destruct (Hfiles f' ltac:(by right)) as [Hl' Hn'].
      split; [| done]. cbn [fs w2 set_fs].
      rewrite lookup_delete_ne; [done |].
      intros Heq%app_inj_tail. destruct Heq as [_ Heq].
      by apply (Hdiff f' Hf'). }
    exists w'. split; [done |]. split; [done |]. split.
    + intros f' [->|Hf']%elem_of_cons Hs; [| by apply Hgone].
      rewrite Hkeep.
      * cbn [fs w2 set_fs]. apply lookup_delete_eq.
      * intros f'' Hin _ Heq%app_inj_tail. destruct Heq as [_ Heq].
        by apply (Hdiff f'' Hin).
    + intros k Hk. rewrite Hkeep.
      * cbn [fs w2 set_fs]. apply lookup_delete_ne.
        intros Heq. apply (Hk f); [by left | | done].
        unfold IsRegular. by rewrite Hreg, Hpre.
      * intros f' Hf'. apply Hk. by right.
Qed.


Lemma is_stale_purged (w : World) (p k : list string) (files : list FileInfo) :
  (∀ f, f ∈ files ↔ fs w !! (p ++ [Name f]) = Some (Mode f)) →
  purged (fs w) p k ↔ ∃ f, f ∈ files ∧ is_stale f = true ∧ k = p ++ [Name f].
Proof.
  intros Hfiles. unfold purged, is_stale. split.
  - intros (n & -> & Hl & Hpre). exists (mkFileInfo n Regular).
    split; [by apply Hfiles |]. split; [| done]. cbn.
    by apply orb_true_iff.
  - intros (f & Hf & Hs & ->). apply andb_true_iff in Hs as [Hreg Hpre].
    apply bool_decide_eq_true in Hreg. apply Hfiles in Hf. rewrite Hreg in Hf.
    exists (Name f). split; [done |]. split; [done |]. by apply orb_true_iff.
Qed.

End DestLemmas.

(** X1: on a destination that exists as a directory, in a tree whose
    files have real names, [setupDest] returns nil, keeps the working
    directory of the process, removes exactly the regular files directly
    inside the destination whose name begins with [.zip] or [.tar.gz],
    and leaves every other file as it is. *)
Theorem setupDest_purges (w : World) (dir : string) (p : list string) :
  resolve w dir = Ok p →
  node_at (fs w) p = Some Dir →
  well_named (fs w) →
  ∃ w', setupDest dir w = (w', None)
        ∧ cwd w' = cwd w
        ∧ ∀ k, (purged (fs w) p k → fs w' !! k = None)
               ∧ (¬ purged (fs w) p k → fs w' !! k = fs w !! k).
Proof.
  intros Hp Hd Hwn.
  destruct (ReadDir_Ok w dir p Hp Hd) as (files & Hr & Hfiles).
  destruct (setupDest_loop_spec dir p files w Hp Hd)
    as (w' & Hl & Hc & Hgone & Hkeep).
  { by eapply ReadDir_NoDup. }
  { intros f Hf. apply Hfiles in Hf. split; [done |].
    by eapply well_named_child. }
  exists w'. split.
  { unfold setupDest, mbind, IO_bind, mret, IO_ret, os.Mkdir.
    rewrite Hp, Hd. cbv beta iota. unfold os.IsExist.
    rewrite (bool_decide_eq_false_2 (Some ErrExist = None)) by done.
    rewrite (bool_decide_eq_true_2 (Some ErrExist = Some ErrExist)) by done.
    cbn [negb orb]. rewrite Hr. exact Hl. }
  split; [done |]. intros k. split.
  - intros (f & Hf & Hs & ->)%(is_stale_purged w p k files Hfiles).
    by apply Hgone.
  - intros Hnp. apply Hkeep. intros f Hf Hs ->. apply Hnp.
    apply (is_stale_purged w p _ files Hfiles). by exists f.
Qed.

(** The files of the sample have real names. *)
Lemma sample_well_named : well_named (fs sample_world).
Proof.
  intros k nd Hk. apply elem_of_map_to_list in Hk.
  set (l := map_to_list _) in Hk. vm_compute in l. subst l.
  repeat (apply elem_of_cons in Hk as [Hk | Hk];
          [injection Hk as -> ->;
           repeat (constructor; [repeat split; (discriminate || reflexivity) |]);
           constructor |]).
  by apply elem_of_nil in Hk.
Qed.

(** X1 at the destination of the sample: [.zipped] is purged, the stale
    archive [proj_linux_amd64.tar.gz] is not, and is still there. *)
Lemma setupDest_purges_witness :
  ∃ w', setupDest "goxz" sample_world = (w', None)
        ∧ fs w' !! (sample_proj ++ ["goxz"; ".zipped"]) = None
        ∧ fs w' !! (sample_proj ++ ["goxz"; "proj_linux_amd64.tar.gz"])
          = Some Regular.
Proof.
  destruct (setupDest_purges sample_world "goxz" (sample_proj ++ ["goxz"])
              eq_refl eq_refl sample_well_named) as (w' & Hs & _ & Hk).
  exists w'. split; [exact Hs |]. split.
  - apply Hk. exists ".zipped".
    split; [reflexivity |]. split; [reflexivity |]. by left.
  - rewrite (proj2 (Hk _)); [reflexivity |].
    intros (n & Heq & _ & Hpre).
    assert (n = "proj_linux_amd64.tar.gz") as ->.
    { change (sample_proj ++ ["goxz"; "proj_linux_amd64.tar.gz"])
        with ((sample_proj ++ ["goxz"]) ++ ["proj_linux_amd64.tar.gz"]) in Heq.
      by apply app_inj_tail in Heq as [_ <-]. }
    destruct Hpre as [Hpre | Hpre]; discriminate Hpre.
Defined.

Lemma walk_error (m : gmap (list string) node) (cur elems : list string) (e : error) :
  walk m cur elems = Err e → e = ErrNotExist ∨ e = ErrNotDir.
Proof.
  revert cur; induction elems as [|x elems IH]; intros cur; [done |].
  cbn [walk]. destruct (node_at m cur) as [[]|]; try (intros [= <-]; by auto).
  repeat case_bool_decide; apply IH.
Qed.

Lemma resolve_error (w : World) (path : string) (e : error) :
  resolve w path = Err e → e = ErrNotExist ∨ e = ErrNotDir.
Proof.
  unfold resolve. destruct path; [intros [= <-]; by left |]. apply walk_error.
Qed.

(** X2: the other outcomes of [setupDest].  A destination that does
    not resolve gives the error of [os.Mkdir] and no change; a
    destination that does not exist yet is created, empty, and nothing
    else changes; a destination that is a file and no directory gives
    the error of [ioutil.ReadDir] and no change. *)
Theorem setupDest_other_outcomes (w : World) (dir : string) :
  match resolve w dir with
  | Err e => setupDest dir w = (w, Some e)
  | Ok p =>
    match node_at (fs w) p with
    | None => setupDest dir w = (set_fs w (<[p := Dir]> (fs w)), None)
    | Some Dir => True
    | Some _ => setupDest dir w = (w, Some ErrNotDir)
    end
  end.
Proof.
  unfold setupDest, mbind, IO_bind, mret, IO_ret, os.Mkdir, ioutil.ReadDir,
    os.IsExist.
  destruct (resolve w dir) as [p|e] eqn:Hp; cbv beta iota.
  - destruct (node_at (fs w) p) as [[]|] eqn:Hn; cbv beta iota.
    + done.
    + rewrite (bool_decide_eq_false_2 (Some ErrExist = None)) by done.
      rewrite (bool_decide_eq_true_2 (Some ErrExist = Some ErrExist)) by done.
      cbn [negb orb]. by rewrite Hp, Hn.
    + rewrite (bool_decide_eq_false_2 (Some ErrExist = None)) by done.
      rewrite (bool_decide_eq_true_2 (Some ErrExist = Some ErrExist)) by done.
      cbn [negb orb]. by rewrite Hp, Hn.
    + by rewrite (bool_decide_eq_true_2 (None = None)).
  - rewrite (bool_decide_eq_false_2 (Some e = None)) by done.
    rewrite (bool_decide_eq_false_2 (Some e = Some ErrExist)); [done |].
    intros [= ->]. by destruct (resolve_error _ _ _ Hp).
Qed.

(** ** Resource paths *)

(** X3: in a tree whose files have real names, every path that
    [gatherResources] returns for a directory names a regular file
    directly inside that directory, and no two of the paths name the
    same file. *)
Theorem gatherResources_paths (w : World) (dir : string) (p : list string)
        (res : list string) :
  resolve w dir = Ok p →
  node_at (fs w) p = Some Dir →
  well_named (fs w) →
  (gatherResources dir w).2 = Ok res →
  ∃ names,
    NoDup names
    ∧ Forall2 (λ path n, resolve w path = Ok (p ++ [n])
                         ∧ fs w !! (p ++ [n]) = Some Regular) res names.
Proof.
  intros Hp Hd Hwn Hres.
  destruct (ReadDir_Ok w dir p Hp Hd) as (files & Hr & Hfiles).
  rewrite (gatherResources_eq w dir files Hr) in Hres. injection Hres as <-.
  pose proof (ReadDir_NoDup w dir files Hr) as Hnd.
  exists (Name <$> filter (λ f, is_resource f = true) files). split.
  - clear -Hnd. induction files as [|f files IH]; [constructor |].
    cbn [fmap list_fmap] in Hnd. apply NoDup_cons in Hnd as [Hf Hnd].
    rewrite filter_cons. case_decide; [| by apply IH].
    cbn [fmap list_fmap]. constructor; [| by apply IH].
    intros (f' & Hn & Hin)%list_elem_of_fmap.
    apply list_elem_of_filter in Hin as [_ Hin].
    apply Hf. apply list_elem_of_fmap. by exists f'.
  - apply Forall2_fmap, Forall_Forall2_diag, Forall_forall.
    intros f [Hsel Hf]%list_elem_of_filter. apply Hfiles in Hf.
    unfold is_resource in Hsel.
    apply andb_true_iff in Hsel as [[Hreg _]%andb_true_iff _].
    apply bool_decide_eq_true in Hreg. rewrite Hreg in Hf.
    split; [| done]. apply resolve_Join; [done | done |].
    by eapply well_named_child.
Qed.

(** X3 at the project directory of the sample. *)
Lemma gatherResources_paths_witness :
  ∃ names,
    NoDup names
    ∧ Forall2 (λ path n, resolve sample_world path = Ok (sample_proj ++ [n])
                         ∧ fs sample_world !! (sample_proj ++ [n]) = Some Regular)
              ["LICENSE"; "README.md"] names.
Proof.
  apply (gatherResources_paths sample_world "." sample_proj);
    [reflexivity | reflexivity | apply sample_well_named |].
  vm_compute. reflexivity.
Defined.

(** ** The work directory *)

Lemma temp_loop_name (tries : nat) (dir prefix : string) (w : World) :
  (ioutil.temp_loop tries dir prefix w).2.2 = None →
  ∃ i, (ioutil.temp_loop tries dir prefix w).2.1
       = filepath.Join [dir; prefix +:+ suffixes w i].
Proof.
  revert w; induction tries as [|tries IH]; intros w; [done |].
  cbn [ioutil.temp_loop]. unfold draw.
  set (w1 := mkWorld (fs w) (cwd w) (GOPATH w) (suffixes w) (S (drawn w)) (logged w)).
  pose proof (Mkdir_spec w1 (filepath.Join [dir; prefix +:+ suffixes w (drawn w)])) as Hm.
  destruct (os.Mkdir _ w1) as [w2 err]. cbn [fst snd] in Hm.
  destruct err as [e|].
  - subst w2. unfold os.IsExist. case_bool_decide; [| done].
    intros H1. by destruct (IH w1 H1) as [i Hi]; exists i.
  - unfold os.IsExist. rewrite bool_decide_eq_false_2 by done.
    intros _. by exists (drawn w).
Qed.

Lemma has_byte_app (c : ascii) (a b : string) :
  has_byte c (a +:+ b) = has_byte c a || has_byte c b.
Proof.
  induction a as [|x a IH]; [done |]. rewrite string_app_cons. cbn [has_byte].
  by rewrite IH, orb_assoc.
Qed.

(** X4: when [gx.projDir] names a directory and the random suffixes
    hold no separator, a successful [prepareWorkdir] has made exactly
    one change to the file tree: a new directory [.goxz-] and suffix
    directly inside the project directory, which [gx.workDir] names. *)
Theorem prepareWorkdir_inside (gx : goxz) (w : World) (pp : list string) :
  Goxz.projDir gx ≠ "" →
  resolve w (Goxz.projDir gx) = Ok pp →
  node_at (fs w) pp = Some Dir →
  (∀ i, has_byte Separator (suffixes w i) = false) →
  (prepareWorkdir gx w).2.2 = None →
  ∃ i,
    let name := ".goxz-" +:+ suffixes w i in
    Goxz.workDir (prepareWorkdir gx w).2.1
    = filepath.Join [Goxz.projDir gx; name]
    ∧ resolve w (Goxz.workDir (prepareWorkdir gx w).2.1) = Ok (pp ++ [name])
    ∧ fs w !! (pp ++ [name]) = None
    ∧ fs (prepareWorkdir gx w).1 = <[pp ++ [name] := Dir]> (fs w).
Proof.
  intros Hne Hpp Hd Hsuf Hok.
  pose proof (prepareWorkdir_spec gx w Hne) as Hspec. cbv zeta in Hspec.
  rewrite Hok in Hspec.
  destruct Hspec as (_ & _ & suffix & p & Hwd & Hp & Hnone & Hfs).
  assert (∃ i, Goxz.workDir (prepareWorkdir gx w).2.1
               = filepath.Join [Goxz.projDir gx; ".goxz-" +:+ suffixes w i])
    as [i Hi].
  { revert Hok. unfold prepareWorkdir, ioutil.TempDir, mbind, IO_bind, mret, IO_ret.
    rewrite bool_decide_eq_false_2 by done.
    pose proof (temp_loop_name (100 * 100) (Goxz.projDir gx) ".goxz-" w) as Hn.
    destruct (ioutil.temp_loop (100 * 100) _ _ w) as [w1 [tmpd err]].
    cbn [fst snd] in *. intros ->. destruct (Hn eq_refl) as [i ->].
    exists i. by destruct gx. }
  exists i. cbv zeta.
  assert (normal_elem (".goxz-" +:+ suffixes w i)) as Hnorm.
  { repeat split; try done. by rewrite has_byte_app, Hsuf. }
  pose proof (resolve_Join w _ _ pp Hpp Hd Hnorm) as Hr.
  rewrite <- Hi in Hr. rewrite Hr in Hp. injection Hp as <-.
  rewrite node_at_snoc in Hnone. done.
Qed.

(** X4 in the sample project. *)
Lemma prepareWorkdir_inside_witness :
  let gx := Goxz.set_projDir "/home/u/proj" parseArgs_defaults in
  fs (prepareWorkdir gx sample_world).1 !! (sample_proj ++ [".goxz-271828"])
  = Some Dir.
Proof.
  intros gx.
  destruct (prepareWorkdir_inside gx sample_world sample_proj) as (i & Hwd & Hr & _ & Hfs);
    [done | reflexivity | reflexivity | by intros [|[|i]] | by vm_compute |].
  cbv zeta in *. rewrite Hfs.
  assert (i = 0) as ->.
  { vm_compute in Hwd. destruct i as [|i]; [done |]. by destruct i. }
  apply lookup_insert_eq.
Defined.

(** ** The builders *)

Section BuildersRun.

Variable build : builder → IO (outcome (string * option error)).

Lemma run_builders_app (l1 l2 : list builder) (w : World) :
  (∀ bdr w, bdr ∈ l1 → (build bdr w).2 ≠ Panicked) →
  run_builders build (l1 ++ l2) w = run_builders build l2 (built build w l1).
Proof.
  revert w; induction l1 as [|b l1 IH]; intros w Hnp; [done |].
  cbn [app run_builders built foldl]. unfold mbind, IO_bind.
  pose proof (Hnp b w ltac:(left)) as Hb.
  destruct (build b w) as [w1 [r|]]; [| done]. cbn [fst].
  apply IH. intros b' w' Hin. apply Hnp. by right.
Qed.

(** X5: [run] builds for every builder of the list, in the order of
    the list and each in the environment that the one before it left,
    whatever errors the builds return; the builders after one that
    panics are not run. *)
Theorem run_builders_all (l1 l2 : list builder) (w : World) :
  (∀ bdr w, bdr ∈ l1 → (build bdr w).2 ≠ Panicked) →
  match l2 with
  | [] => run_builders build l1 w = (built build w l1, Returned tt)
  | bdr :: _ =>
    (build bdr (built build w l1)).2 = Panicked →
    run_builders build (l1 ++ l2) w
    = ((build bdr (built build w l1)).1, Panicked)
  end.
Proof.
  intros Hnp. destruct l2 as [|b l2].
  - rewrite <- (app_nil_r l1) at 1. by rewrite run_builders_app.
  - intros Hb. rewrite run_builders_app by done.
    cbn [run_builders]. unfold mbind, IO_bind.
    by destruct (build b (built build w l1)) as [w1 [r|]].
Qed.

End BuildersRun.

(** X5 for two builders of which the first fails. *)
Lemma run_builders_all_witness :
  run_builders sample_build sample_builders sample_world
  = (built sample_build sample_world sample_builders, Returned tt).
Proof.
  apply (run_builders_all sample_build sample_builders [] sample_world).
  intros bdr w _. unfold sample_build.
  case_bool_decide; [| done]. by destruct (fs w !! _) as [[]|].
Defined.

(** ** The command line *)

Section ParseLemmas.

Context {G : Type}.
Variable P : G → Prop.
Variable fs : list (string * flag.Value G).
Hypothesis string_flags :
  ∀ n set, flag.formal fs n = Some (flag.StringVar set) →
           ∀ v g, P g → P (set v g).
Hypothesis bool_flags :
  ∀ n set, flag.formal fs n = Some (flag.BoolVar set) →
           ∀ b g, P g → P (set b g).

Lemma Parse_not_flag (s : string) (rest : list string) (g : G) :
  (∀ c1 s2, s ≠ String "-" (String c1 s2)) →
  flag.Parse fs (s :: rest) g = Ok (g, s :: rest).
Proof.
  intros Hs. destruct s as [|a [|c1 s2]]; [done | |].
  - by destruct a as [[] [] [] [] [] [] [] []].
  - destruct (decide (a = "-"%char)) as [->|Ha]; [by destruct (Hs c1 s2) |].
    by destruct a as [[] [] [] [] [] [] [] []].
Qed.

Lemma Parse_inv (n : nat) :
  ∀ (args : list string) (g g' : G) (rest : list string),
    length args ≤ n →
    P g →
    flag.Parse fs args g = Ok (g', rest) →
    P g' ∧ rest `suffix_of` args.
Proof.
  induction n as [|n IH]; intros args g g' rest Hlen Hg Hp.
  { destruct args; [| simpl in Hlen; lia]. by injection Hp as <- <-. }
  destruct args as [|s args]; [by injection Hp as <- <- |].
  cbn [length] in Hlen.
  assert (∀ g1 r, P g1 → flag.Parse fs args g1 = Ok (g', r) →
                  P g' ∧ r `suffix_of` s :: args) as Hrec.
  { intros g1 r Hg1 Hr. destruct (IH args g1 g' r) as [? ?]; [lia | done | done |].
    split; [done |]. by apply suffix_cons_r. }
  destruct s as [|a [|c1 s2]].
  - by injection Hp as <- <-.
  - rewrite Parse_not_flag in Hp by done. by injection Hp as <- <-.
  - destruct (decide (a = "-"%char)) as [->|Ha]; cycle 1.
    { rewrite Parse_not_flag in Hp by congruence. by injection Hp as <- <-. }
    cbn [flag.Parse] in Hp. case_bool_decide.
    { injection Hp as <- <-. split; [done |]. by apply suffix_cons_r. }
    destruct (if bool_decide (c1 = "-"%char) then s2 else String c1 s2)
      as [|c name']; [done |].
    destruct (bool_decide (c = "-"%char) || bool_decide (c = "="%char)); [done |].
    destruct (flag.cut_equals name') as [n' value].
    destruct (flag.formal fs (String c n')) as [[set|set]|] eqn:Hf.
    + destruct value as [v|].
      * eapply Hrec; [| done]. by eapply string_flags.
      * destruct args as [|v args']; [done |].
        destruct (IH args' (set v g) g' rest) as [? ?];
          [cbn [length] in Hlen; lia | by eapply string_flags | done |].
        split; [done |]. by do 2 apply suffix_cons_r.
    + destruct value as [v|].
      * destruct (flag.ParseBool v) as [b|]; [| done].
        eapply Hrec; [| done]. by eapply bool_flags.
      * eapply Hrec; [| done]. by eapply bool_flags.
    + by destruct (_ || _).
Qed.

End ParseLemmas.

(** X6: the packages that a successful [parseArgs] returns are never
    empty: they are the arguments from some point of the command line
    on, or the single package [.]; and no flag sets one of the fields
    that [init] and [prepareWorkdir] fill in. *)
Theorem parseArgs_packages (args : list string) (gx : goxz) :
  parseArgs args = Ok gx →
  Goxz.pkgs gx ≠ []
  ∧ (Goxz.pkgs gx = ["."] ∨ Goxz.pkgs gx `suffix_of` args)
  ∧ unresolved gx.
Proof.
  intros Hp. destruct (parseArgs_inv args gx Hp) as (g & rest & Hparse & ->).
  destruct (Parse_inv unresolved parseArgs_flags) with
    (n := length args) (args := args) (g := parseArgs_defaults) (g' := g)
    (rest := rest) as [Hu Hs]; [| | done | done | done |].
  - intros n set Hf v g0 Hg0. cbn in Hf.
    repeat (case_bool_decide; [simplify_eq; by destruct g0 |]). done.
  - intros n set Hf v g0 Hg0. cbn in Hf.
    repeat (case_bool_decide; [simplify_eq; by destruct g0 |]). done.
  - assert (Goxz.pkgs (Goxz.set_pkgs (if bool_decide (rest = []) then ["."] else rest) g)
            = if bool_decide (rest = []) then ["."] else rest) as -> by by destruct g.
    split; [by case_bool_decide; [| done] |].
    split; [case_bool_decide; [by left | by right] |].
    by destruct g.
Qed.

(** X6 for a command line with a flag before its package. *)
Lemma parseArgs_packages_witness :
  ∃ gx, parseArgs ["-os"; "linux"; "./cmd/a"] = Ok gx
        ∧ Goxz.pkgs gx ≠ []
        ∧ (Goxz.pkgs gx = ["."] ∨ Goxz.pkgs gx `suffix_of` ["-os"; "linux"; "./cmd/a"])
        ∧ unresolved gx.
Proof.
  eexists. split; [reflexivity |].
  apply (parseArgs_packages ["-os"; "linux"; "./cmd/a"]). reflexivity.
Defined.

Section RunErrors.

Variable build : builder → IO (outcome (string * option error)).


End RunErrors.


(** ** The order of the resources *)

Section ListingOrder.

#[local] Instance by_name_trans : Transitive by_name.
Proof. intros a b c. unfold by_name. apply transitivity. Qed.

#[local] Instance by_name_total : Total by_name.
Proof. intros a b. unfold by_name. apply total, _. Qed.

Lemma ReadDir_sorted (w : World) (dir : string) (files : list FileInfo) :
  ioutil.ReadDir dir w = (w, Ok files) → StronglySorted by_name files.
Proof.
  unfold ioutil.ReadDir. destruct (resolve w dir) as [p|]; [| done].
  destruct (node_at (fs w) p) as [[]|]; try done.
  intros [= <-]. apply StronglySorted_merge_sort; apply _.
Qed.

Lemma ReadDir_world (w : World) (dir : string) :
  (ioutil.ReadDir dir w).1 = w.
Proof.
  unfold ioutil.ReadDir. destruct (resolve w dir) as [p|]; [| done].
  by destruct (node_at (fs w) p) as [[]|].
Qed.

Lemma StronglySorted_filter_names (files : list FileInfo) (P : FileInfo → Prop)
      `{∀ f, Decision (P f)} :
  StronglySorted by_name files →
  NoDup (Name <$> files) →
  StronglySorted (strict String.le) (Name <$> filter P files).
Proof.
  induction files as [|f files IH]; intros Hs Hnd; [constructor |].
  apply StronglySorted_inv in Hs as [Hs Hf].
  cbn [fmap list_fmap] in Hnd. apply NoDup_cons in Hnd as [Hnf Hnd].
  rewrite filter_cons. case_decide; [| by apply IH].
  cbn [fmap list_fmap]. constructor; [by apply IH |].
  apply Forall_forall. intros n (f' & -> & Hin)%list_elem_of_fmap.
  apply list_elem_of_filter in Hin as [_ Hin].
  rewrite Forall_forall in Hf. pose proof (Hf f' Hin) as Hle.
  split; [done |]. intros Hge. apply Hnf.
  apply list_elem_of_fmap. exists f'. split; [| done].
  by apply (anti_symm String.le).
Qed.

End ListingOrder.

(** X8: [gatherResources] leaves the environment as it is, and the
    paths that it returns are the directory joined with file names in
    strictly ascending order. *)
Theorem gatherResources_sorted (w : World) (dir : string) (res : list string) :
  (gatherResources dir w).2 = Ok res →
  (gatherResources dir w).1 = w
  ∧ ∃ names,
      res = (λ n, filepath.Join [dir; n]) <$> names
      ∧ StronglySorted (strict String.le) names.
Proof.
  intros Hres.
  pose proof (ReadDir_world w dir) as Hw.
  destruct (ioutil.ReadDir dir w) as [w1 [files|e]] eqn:Hr;
    cbn [fst] in Hw; subst w1; cycle 1.
  { revert Hres. unfold gatherResources, mbind, IO_bind. by rewrite Hr. }
  rewrite (gatherResources_eq w dir files Hr) in Hres |- *.
  injection Hres as <-. split; [done |].
  exists (Name <$> filter (λ f, is_resource f = true) files).
  split; [by rewrite <- list_fmap_compose |].
  apply StronglySorted_filter_names;
    [by eapply ReadDir_sorted | by eapply ReadDir_NoDup].
Qed.

(** X8 at the project directory of the sample. *)
Lemma gatherResources_sorted_witness :
  (gatherResources "." sample_world).1 = sample_world
  ∧ ∃ names,
      ["LICENSE"; "README.md"] = (λ n, filepath.Join ["."; n]) <$> names
      ∧ StronglySorted (strict String.le) names.
Proof.
  apply (gatherResources_sorted sample_world "." ["LICENSE"; "README.md"]).
  vm_compute. reflexivity.
Defined.

(** ** Import paths *)

Section ImportPaths.

Lemma normal_no_sep (l : list string) :
  Forall normal_elem l → Forall (λ e, has_byte Separator e = false) l.
Proof. intros H. eapply Forall_impl; [exact H |]. by intros e (_ & _ & _ & ?). Qed.

Lemma join_path_app (a b : list string) :
  a ≠ [] → b ≠ [] →
  join_path (a ++ b) = join_path a +:+ "/" +:+ join_path b.
Proof.
  intros Ha Hb. induction a as [|x a IH]; [done |].
  destruct a as [|y a].
  - cbn [app]. by rewrite join_path_cons.
  - cbn [app] in *. rewrite join_path_cons by done.
    rewrite IH by done. rewrite (join_path_cons x (y :: a)) by done.
    by rewrite !string_app_assoc.
Qed.

Lemma rooted_path_split (l : list string) :
  l ≠ [] → Forall normal_elem l → split_path (rooted_path l) = "" :: l.
Proof.
  intros Hl Hn. unfold rooted_path.
  replace ("/" +:+ join_path l) with (join_path ("" :: l))
    by by rewrite join_path_cons.
  apply split_join; [done |]. constructor; [done | by apply normal_no_sep].
Qed.

Lemma clean_fold_real (rooted : bool) (es out : list string) :
  Forall normal_elem (filter (λ e, e ≠ "" ∧ e ≠ ".") es) →
  fold_left (filepath.clean_step rooted) es out
  = rev (filter (λ e, e ≠ "" ∧ e ≠ ".") es) ++ out.
Proof.
  revert out; induction es as [|e es IH]; intros out; [done |].
  rewrite filter_cons. cbn [fold_left]. case_decide as He.
  - intros [Hn Hes]%Forall_cons. rewrite IH by done.
    rewrite clean_step_normal by done.
    cbn [rev]. by rewrite <- app_assoc.
  - intros Hes. rewrite IH by done. f_equal. unfold filepath.clean_step.
    case_bool_decide; [done |]. case_bool_decide; [done | tauto].
Qed.

(** [Clean] on a rooted path whose elements, the empty ones and the
    dots apart, are real elements. *)
Lemma Clean_rooted (path : string) (l : list string) :
  is_rooted path = true →
  filter (λ e, e ≠ "" ∧ e ≠ ".") (split_path path) = l →
  Forall normal_elem l →
  l ≠ [] →
  filepath.Clean path = rooted_path l.
Proof.
  intros Hr Hf Hn Hl. rewrite Clean_unfold. cbv zeta. rewrite Hr.
  rewrite clean_fold_real by by rewrite Hf.
  rewrite Hf, app_nil_r. unfold clean_str. rewrite rev_involutive.
  by rewrite bool_decide_eq_false_2.
Qed.

Lemma filter_real_id (l : list string) :
  Forall normal_elem l → filter (λ e, e ≠ "" ∧ e ≠ ".") l = l.
Proof.
  induction l as [|e l IH]; [done |]. intros [(? & ? & _) Hl]%Forall_cons.
  rewrite filter_cons_True by done. by rewrite IH.
Qed.

Lemma Clean_rooted_path (l : list string) :
  l ≠ [] → Forall normal_elem l →
  filepath.Clean (rooted_path l) = rooted_path l.
Proof.
  intros Hl Hn. apply Clean_rooted; [done | | done | done].
  rewrite rooted_path_split by done.
  rewrite filter_cons_False by (by intros []). by apply filter_real_id.
Qed.

Lemma Clean_rooted_snoc (l : list string) (e : string) :
  l ≠ [] → Forall normal_elem l → has_byte Separator e = false →
  e = "." ∨ normal_elem e →
  filepath.Clean (rooted_path l +:+ "/" +:+ e)
  = rooted_path (if bool_decide (e = ".") then l else l ++ [e]).
Proof.
  intros Hl Hn Hs He.
  assert (filter (λ e, e ≠ "" ∧ e ≠ ".") (split_path (rooted_path l +:+ "/" +:+ e))
          = if bool_decide (e = ".") then l else l ++ [e]) as Hf.
  { rewrite split_path_snoc, rooted_path_split by done.
    rewrite filter_app, filter_cons_False by (by intros []).
    rewrite filter_real_id by done. case_bool_decide as Hd.
    - subst e. rewrite filter_cons_False by (by intros []).
      by rewrite app_nil_r.
    - destruct He as [|Hne]; [done |]. by rewrite filter_real_id by by constructor. }
  apply Clean_rooted; [done | done | |].
  - case_bool_decide; [done |]. destruct He as [|Hne]; [done |].
    apply Forall_app. split; [done | by constructor].
  - case_bool_decide; [done |]. by destruct l.
Qed.

Lemma at_end_cons (e : string) (l : list string) :
  l ≠ [] → filepath.at_end (e :: l) = false.
Proof.
  intros Hl. unfold filepath.at_end.
  by rewrite !bool_decide_eq_false_2 by (intros ?; simplify_eq).
Qed.

Lemma at_end_single (e : string) : e ≠ "" → filepath.at_end [e] = false.
Proof.
  intros He. unfold filepath.at_end.
  by rewrite !bool_decide_eq_false_2 by (intros ?; simplify_eq).
Qed.

Lemma rel_walk_common (es b t : list string) :
  b ≠ [] → t ≠ [] →
  filepath.rel_walk (es ++ b) (es ++ t) = filepath.rel_walk b t.
Proof.
  intros Hb Ht. induction es as [|e es IH]; [done |].
  cbn [app filepath.rel_walk].
  rewrite !at_end_cons by (by destruct es).
  cbn [orb]. by rewrite bool_decide_eq_true_2.
Qed.

Lemma rooted_path_app (a b : list string) :
  a ≠ [] → b ≠ [] →
  rooted_path (a ++ b) = rooted_path a +:+ "/" +:+ join_path b.
Proof.
  intros Ha Hb. unfold rooted_path. rewrite join_path_app by done.
  by rewrite !string_app_cons, !string_app_nil_l.
Qed.

Lemma src_normal (gp : list string) :
  Forall normal_elem gp → Forall normal_elem (gp ++ ["src"]).
Proof. intros gp_normal. apply Forall_app. split; [done |]. constructor; [by repeat split | done]. Qed.

Lemma Rel_below (gp b t : list string) :
  Forall normal_elem (gp ++ t) → t ≠ [] → b ≠ [] → t ≠ b →
  Forall normal_elem (gp ++ b) →
  filepath.Rel (rooted_path (gp ++ b)) (rooted_path (gp ++ t))
  = let '(b', t', elem) := filepath.rel_walk b t in
    if bool_decide (elem = "..") then
      Err (ErrRel (rooted_path (gp ++ b)) (rooted_path (gp ++ t)))
    else if negb (filepath.at_end b') then
      Ok (".." +:+ filepath.dotdots (length b' - 1)
            +:+ (if filepath.at_end t' then "" else "/" +:+ join_path t'))
    else Ok (if filepath.at_end t' then "" else join_path t').
Proof.
  intros Hnt Ht Hb Hne Hnb. unfold filepath.Rel. cbv zeta.
  rewrite !Clean_rooted_path by (done || by destruct gp).
  rewrite bool_decide_eq_false_2; cycle 1.
  { intros Heq. apply (f_equal split_path) in Heq.
    rewrite !rooted_path_split in Heq by (done || by destruct gp).
    injection Heq as Heq. by apply app_inv_head in Heq. }
  rewrite (bool_decide_eq_false_2 (rooted_path (gp ++ b) = ".")) by done.
  change (is_rooted (rooted_path (gp ++ b))) with true.
  change (is_rooted (rooted_path (gp ++ t))) with true.
  rewrite bool_decide_eq_true_2 by done. cbn [negb].
  rewrite !rooted_path_split by (done || by destruct gp).
  rewrite !app_comm_cons. by rewrite rel_walk_common.
Qed.

End ImportPaths.

Section ImportPathProofs.

Variable w : World.
Variable gp : list string.
Hypothesis gp_nonempty : gp ≠ [].
Hypothesis gp_normal : Forall normal_elem gp.
Hypothesis gopath_one : GOPATH w = rooted_path gp.
Hypothesis gopath_no_colon : has_byte ":" (GOPATH w) = false.

Lemma gosrcs_of_one : gosrcs_of (GOPATH w) = [rooted_path (gp ++ ["src"])].
Proof.
  unfold gosrcs_of. rewrite gopath_one in gopath_no_colon |- *.
  change (filepath.SplitList (rooted_path gp))
    with (split_on ":" (rooted_path gp)).
  rewrite split_on_no_sep by done. cbn [fmap list_fmap].
  rewrite Clean_rooted_path by done.
  cbn [filepath.Join]. rewrite bool_decide_eq_false_2 by done.
  rewrite join_path_cons by done.
  change (join_path ["src"]) with "src".
  rewrite Clean_rooted_snoc; [| done | done | done | right; by repeat split].
  by rewrite bool_decide_eq_false_2.
Qed.

Lemma goAbsPkgs_dot (l : list string) :
  l ≠ [] → Forall normal_elem l →
  goAbsPkgs ["."] (rooted_path l) w
  = (w, match goAbsPkgs_gosrcs (rooted_path l) "."
                [rooted_path (gp ++ ["src"])] with
        | Ok pkg => Ok [pkg]
        | Err err => Err err
        end).
Proof.
  intros Hl Hn. rewrite goAbsPkgs_eq, gosrcs_of_one. f_equal.
  cbn [goAbsPkgs_loop].
  change (strings.HasPrefix "." ".") with true. cbv beta iota zeta.
  cbn [filepath.Join]. rewrite bool_decide_eq_false_2 by done.
  rewrite join_path_cons by done. change (join_path ["."]) with ".".
  rewrite Clean_rooted_snoc; [| done | done | done | by left].
  rewrite bool_decide_eq_true_2 by done.
  by rewrite Clean_rooted_path by done.
Qed.

End ImportPathProofs.

(** X9: with a [GOPATH] of one directory, the package [.] of a project
    that lies below the [src] directory of the [GOPATH] becomes the
    import path of the project, its path relative to [src]. *)
Theorem goAbsPkgs_import_path (w : World) (gp imp : list string) :
  gp ≠ [] → Forall normal_elem gp →
  imp ≠ [] → Forall normal_elem imp →
  GOPATH w = rooted_path gp →
  has_byte ":" (GOPATH w) = false →
  goAbsPkgs ["."] (rooted_path (gp ++ "src" :: imp)) w
  = (w, Ok [join_path imp]).
Proof.
  intros Hgp Hn Himp Hni HG Hc.
  assert (Forall normal_elem (gp ++ "src" :: imp)) as Hall.
  { apply Forall_app. split; [done |]. constructor; [by repeat split | done]. }
  rewrite (goAbsPkgs_dot w gp) by (done || by destruct gp).
  f_equal. cbn [goAbsPkgs_gosrcs].
  assert (strings.HasPrefix (rooted_path (gp ++ "src" :: imp))
                            (rooted_path (gp ++ ["src"])) = true) as ->.
  { apply HasPrefix_iff. exists ("/" +:+ join_path imp).
    rewrite (cons_middle "src" gp imp), app_assoc.
    apply rooted_path_app; [by destruct gp | done]. }
  rewrite (Rel_below gp ["src"] ("src" :: imp));
    [| done | done | done | by destruct imp | by apply src_normal].
  cbn [filepath.rel_walk].
  rewrite (at_end_cons "src" imp), at_end_single by done.
  cbn [orb]. rewrite bool_decide_eq_true_2 by done.
  destruct imp as [|i imp']; [done |]. cbn [filepath.rel_walk].
  apply Forall_cons in Hni as [(Hi & _) _].
  rewrite bool_decide_eq_false_2 by done.
  assert (filepath.at_end (i :: imp') = false) as ->.
  { destruct imp'; [by apply at_end_single | by apply at_end_cons]. }
  done.
Qed.

(** X9 for a project of the sample's [GOPATH]. *)
Lemma goAbsPkgs_import_path_witness :
  goAbsPkgs ["."] "/home/u/go/src/github.com/u/proj" sample_world
  = (sample_world, Ok ["github.com/u/proj"]).
Proof.
  apply (goAbsPkgs_import_path sample_world ["home"; "u"; "go"]
           ["github.com"; "u"; "proj"]);
    [done | by repeat constructor | done | by repeat constructor
     | reflexivity | reflexivity].
Defined.

(** X10: the test for a project below [src] is a test on strings: a
    project in a directory beside [src] whose name begins with [src]
    passes it, and its package [.] becomes a path that leaves [src]
    through [..]. *)
Theorem goAbsPkgs_beside_src (w : World) (gp rest : list string) (x : string) :
  gp ≠ [] → Forall normal_elem gp →
  x ≠ "" → normal_elem ("src" +:+ x) → Forall normal_elem rest →
  GOPATH w = rooted_path gp →
  has_byte ":" (GOPATH w) = false →
  goAbsPkgs ["."] (rooted_path (gp ++ ("src" +:+ x) :: rest)) w
  = (w, Ok ["../" +:+ join_path (("src" +:+ x) :: rest)]).
Proof.
  intros Hgp Hn Hx Hsx Hnr HG Hc.
  assert (Forall normal_elem (gp ++ ("src" +:+ x) :: rest)) as Hall.
  { apply Forall_app. split; [done |]. by constructor. }
  rewrite (goAbsPkgs_dot w gp) by (done || by destruct gp).
  f_equal. cbn [goAbsPkgs_gosrcs].
  assert (strings.HasPrefix (rooted_path (gp ++ ("src" +:+ x) :: rest))
                            (rooted_path (gp ++ ["src"])) = true) as ->.
  { apply HasPrefix_iff.
    exists (x +:+ match rest with [] => "" | _ => "/" +:+ join_path rest end).
    rewrite !rooted_path_app by done. change (join_path ["src"]) with "src".
    rewrite !string_app_assoc. do 2 f_equal.
    destruct rest as [|r rest']; [by rewrite string_app_nil_r |].
    rewrite join_path_cons by done. by rewrite !string_app_assoc. }
  rewrite (Rel_below gp ["src"] (("src" +:+ x) :: rest));
    [| done | done | done | | by apply src_normal].
  - cbn [filepath.rel_walk].
    rewrite at_end_single by done.
    assert (filepath.at_end (("src" +:+ x) :: rest) = false) as Ht.
    { destruct rest; [apply at_end_single | by apply at_end_cons].
      by destruct Hsx. }
    rewrite Ht. cbn [orb].
    rewrite bool_decide_eq_false_2; cycle 1.
    { intros [= Hxe]. done. }
    rewrite bool_decide_eq_false_2 by done.
    rewrite at_end_single by done. cbn [negb length]. by rewrite Ht.
  - intros [= Hxe _]. done.
Qed.

(** X10 for a project in [srcs], beside [src]. *)
Lemma goAbsPkgs_beside_src_witness :
  goAbsPkgs ["."] "/home/u/go/srcs/proj" sample_world
  = (sample_world, Ok ["../srcs/proj"]).
Proof.
  apply (goAbsPkgs_beside_src sample_world ["home"; "u"; "go"] ["proj"] "s");
    [done | by repeat constructor | done | done | by repeat constructor
     | reflexivity | reflexivity].
Defined.

(** ** What [init] does to the environment *)

Section InitLemmas.

Ltac io_step :=
  cbv beta iota zeta delta [mbind IO_bind mret IO_ret fst snd].

Lemma init_projDir_world (gx : goxz) (w : World) :
  let r := (if bool_decide (Goxz.projDir gx = "") then
              r ← filepath.Abs ".";
              match r with
              | Ok d => mret (Goxz.set_projDir d gx, None)
              | Err err => mret (Goxz.set_projDir "" gx, Some err)
              end
            else mret (gx, None)) w in
  r.1 = w ∧ r.2.2 = None.
Proof.
  intros r. subst r. case_bool_decide; [| done].
  unfold filepath.Abs.
  replace (filepath.IsAbs ".") with false by reflexivity.
  by unfold mbind, IO_bind, mret, IO_ret, os.Getwd.
Qed.

Lemma gatherResources_world (dir : string) (w : World) :
  (gatherResources dir w).1 = w.
Proof.
  unfold gatherResources, mbind, IO_bind.
  pose proof (ReadDir_world w dir) as Hw.
  destruct (ioutil.ReadDir dir w) as [w1 [files|e]]; by cbn [fst] in *.
Qed.

Lemma init_inv (gx gx' : goxz) (w w' : World) (err : option error) :
  init gx w = (w', (gx', err)) →
  let dest := if bool_decide (Goxz.dest gx = "") then "goxz" else Goxz.dest gx in
  w' = (setupDest dest w).1
  ∧ (err = None →
     (setupDest dest w).2 = None
     ∧ gatherResources (Goxz.projDir gx') w' = (w', Ok (Goxz.resources gx'))
     ∧ goAbsPkgs (Goxz.pkgs gx') (Goxz.projDir gx') w'
       = (w', Ok (Goxz.absPkgs gx'))).
Proof.
  intros Hinit dest. revert Hinit.
  unfold init. unfold mbind at 1. unfold IO_bind at 1.
  destruct (init_projDir gx w) as (pd' & Hpd & Hne).
  destruct (init_projDir_world gx w) as [Hw He].
  match type of Hpd with
  | (?r).2.1 = _ => destruct r as [w1 [gx1 e]]
  end.
  cbv beta iota delta [fst snd] in Hpd, Hw, He. subst w1 e.
  destruct (set_projDir_fields pd' gx) as (_ & _ & _ & Hd0 & _ & _).
  rewrite <- Hpd in Hd0. clear Hpd.
  io_step.
  destruct (default_name_fields gx1) as (_ & _ & _ & Hd1 & _ & _).
  destruct (getDest_fields (default_name gx1))
    as (_ & _ & _ & Hd2 & _ & _ & Hdest).
  destruct (getDest (default_name gx1)) as [gx2 dest'].
  cbv beta iota delta [fst snd] in Hd2, Hdest.
  assert (dest' = dest) as -> by (by rewrite Hdest, Hd2, Hd1, Hd0).
  destruct (setupDest dest w) as [w2 [e|]]; io_step;
    [by intros [= <- <- <-] |].
  destruct (resolvePlatforms _ _) as [pfs|e]; io_step;
    [| by intros [= <- <- <-]].
  pose proof (gatherResources_world
                (Goxz.projDir (Goxz.set_platforms pfs (default_arch (default_os gx2)))) w2)
    as Hgw.
  set (g4 := default_arch (default_os gx2)) in *.
  destruct (gatherResources _ w2) as [w3 [res|e]] eqn:Hres; io_step;
    cbn [fst] in Hgw; subst w3; [| by intros [= <- <- <-]].
  rewrite goAbsPkgs_eq. 
  destruct (goAbsPkgs_loop _ _ _) as [abs|e] eqn:Habs; io_step;
    [| by intros [= <- <- <-]].
  intros [= <- <- <-]. split; [done |]. intros _. split; [done |].
  rewrite goAbsPkgs_eq.
  replace (Goxz.projDir (Goxz.set_absPkgs abs
             (Goxz.set_resources res (Goxz.set_platforms pfs g4))))
    with (Goxz.projDir (Goxz.set_platforms pfs g4)) by (by destruct g4).
  replace (Goxz.pkgs (Goxz.set_absPkgs abs
             (Goxz.set_resources res (Goxz.set_platforms pfs g4))))
    with (Goxz.pkgs (Goxz.set_resources res (Goxz.set_platforms pfs g4)))
    by (by destruct g4).
  replace (Goxz.projDir (Goxz.set_resources res (Goxz.set_platforms pfs g4)))
    with (Goxz.projDir (Goxz.set_platforms pfs g4)) in Habs by (by destruct g4).
  rewrite Hres, Habs. split; f_equal; f_equal; by destruct g4.
Qed.

End InitLemmas.

(** X11: [init] changes the environment only through [setupDest] on
    the destination, and what a successful [init] stores as resources
    and as packages is what [gatherResources] and [goAbsPkgs] give,
    for the project directory stored, in the environment that
    [setupDest] left. *)
Theorem init_environment (gx : goxz) (w : World) :
  let dest := if bool_decide (Goxz.dest gx = "") then "goxz" else Goxz.dest gx in
  let w' := (setupDest dest w).1 in
  let gx' := (init gx w).2.1 in
  (init gx w).1 = w'
  ∧ ((init gx w).2.2 = None →
     (setupDest dest w).2 = None
     ∧ gatherResources (Goxz.projDir gx') w' = (w', Ok (Goxz.resources gx'))
     ∧ goAbsPkgs (Goxz.pkgs gx') (Goxz.projDir gx') w'
       = (w', Ok (Goxz.absPkgs gx'))).
Proof.
  intros dest w' gx'. subst gx'.
  destruct (init gx w) as [w1 [gx1 err]] eqn:Hinit. cbn [fst snd].
  destruct (init_inv gx gx1 w w1 err Hinit) as [Hw Hok].
  fold dest in Hw, Hok. fold w' in Hw. subst w1. done.
Qed.

(** X11 for a run without arguments in the sample project. *)
Lemma init_environment_witness :
  let gx := Goxz.set_pkgs ["."] parseArgs_defaults in
  let w' := (setupDest "goxz" sample_world).1 in
  let gx' := (init gx sample_world).2.1 in
  gatherResources (Goxz.projDir gx') w' = (w', Ok (Goxz.resources gx')).
Proof.
  intros gx w' gx'.
  destruct (init_environment gx sample_world) as [_ Hok].
  destruct Hok as (_ & Hres & _); [vm_compute; reflexivity | exact Hres].
Defined.

(** ** The working directory of the process *)

Section ChainLemmas.

Implicit Types m : gmap (list string) node.

Lemma dir_chain_kept m m' (l : list string) :
  dirs_kept m m' → dir_chain m l → dir_chain m' l.
Proof. intros Hk Hc k Hp. by apply Hk, Hc. Qed.

Lemma walk_chain m (c l : list string) :
  dir_chain m (c ++ l) → Forall normal_elem l → walk m c l = Ok (c ++ l).
Proof.
  revert c; induction l as [|e l IH]; intros c Hc Hn.
  - by rewrite app_nil_r.
  - apply Forall_cons in Hn as [(_ & H1 & H2 & _) Hn]. cbn [walk].
    rewrite (Hc c) by (by apply prefix_app_r).
    rewrite !bool_decide_eq_false_2 by done.
    rewrite IH; [by rewrite <- app_assoc | by rewrite <- app_assoc | done].
Qed.

(** The path that [filepath.Abs(".")] gives names the working
    directory for as long as its directories are there. *)
Lemma resolve_prev (w w' : World) :
  Forall normal_elem (cwd w) → dir_chain (fs w') (cwd w) →
  filepath.Abs "." w
  = (w, Ok (filepath.Join ["/" +:+ join_path (cwd w); "."]))
  ∧ resolve w' (filepath.Join ["/" +:+ join_path (cwd w); "."]) = Ok (cwd w).
Proof.
  intros Hn Hc. split; [done |].
  destruct (cwd w) as [|e l] eqn:Hcwd; [done |]. rewrite <- Hcwd in *.
  assert (cwd w ≠ []) as Hne by (by rewrite Hcwd).
  change ("/" +:+ join_path (cwd w)) with (rooted_path (cwd w)).
  cbn [filepath.Join]. rewrite bool_decide_eq_false_2 by done.
  rewrite join_path_cons by done. change (join_path ["."]) with ".".
  rewrite Clean_rooted_snoc; [| done | done | done | by left].
  rewrite bool_decide_eq_true_2 by done.
  rewrite resolve_unfold by done.
  change (is_rooted (rooted_path (cwd w))) with true. cbv iota.
  rewrite rooted_path_split by done.
  rewrite filter_cons_False by (by intros ?).
  rewrite filter_nonempty_id.
  - by apply (walk_chain _ []).
  - eapply Forall_impl; [exact Hn |]. by intros x (? & _ & _ & ?).
Qed.

Lemma Chdir_spec (w : World) (dir : string) :
  fs (os.Chdir dir w).1 = fs w
  ∧ match (os.Chdir dir w).2 with
    | None => True
    | Some _ => (os.Chdir dir w).1 = w
    end.
Proof.
  unfold os.Chdir. destruct (resolve w dir) as [p|]; [| done].
  by destruct (node_at (fs w) p) as [[]|].
Qed.

Lemma Chdir_back (w : World) (dir : string) (l : list string) :
  resolve w dir = Ok l → dir_chain (fs w) l →
  cwd (os.Chdir dir w).1 = l.
Proof.
  intros Hr Hc. unfold os.Chdir. rewrite Hr.
  by rewrite (Hc l).
Qed.

Lemma setupDest_frame (w : World) (dir : string) :
  well_named (fs w) →
  cwd (setupDest dir w).1 = cwd w
  ∧ dirs_kept (fs w) (fs (setupDest dir w).1).
Proof.
  intros Hwn.
  destruct (resolve w dir) as [p|e] eqn:Hp; cycle 1.
  { assert (setupDest dir w = (w, Some e)) as ->;
      [| split; [done | by intros k]].
    unfold setupDest, mbind, IO_bind, mret, IO_ret, os.Mkdir, os.IsExist.
    rewrite Hp. cbv beta iota.
    rewrite (bool_decide_eq_false_2 (Some e = None)) by done.
    rewrite (bool_decide_eq_false_2 (Some e = Some ErrExist)); [done |].
    intros [= ->]. by destruct (resolve_error _ _ _ Hp). }
  destruct (node_at (fs w) p) as [nd|] eqn:Hd; cycle 1.
  { assert (setupDest dir w = (set_fs w (<[p := Dir]> (fs w)), None)) as ->.
    { unfold setupDest, mbind, IO_bind, mret, IO_ret, os.Mkdir.
      rewrite Hp, Hd. cbv beta iota.
      by rewrite (bool_decide_eq_true_2 (None = None)). }
    split; [done |]. by apply dirs_kept_insert. }
  destruct (decide (nd = Dir)) as [->|Hnd]; cycle 1.
  { assert (setupDest dir w = (w, Some ErrNotDir)) as ->;
      [| split; [done | by intros k]].
    unfold setupDest, mbind, IO_bind, mret, IO_ret, os.Mkdir, ioutil.ReadDir,
      os.IsExist.
    rewrite Hp, Hd. cbv beta iota.
    rewrite (bool_decide_eq_false_2 (Some ErrExist = None)) by done.
    rewrite (bool_decide_eq_true_2 (Some ErrExist = Some ErrExist)) by done.
    cbn [negb orb]. rewrite Hp, Hd. by destruct nd. }
  destruct (ReadDir_Ok w dir p Hp Hd) as (files & Hr & Hfiles).
  destruct (setupDest_loop_spec dir p files w Hp Hd)
    as (w' & Hl & Hc & Hgone & Hkeep).
  { by eapply ReadDir_NoDup. }
  { intros f Hf. apply Hfiles in Hf. split; [done |].
    by eapply well_named_child. }
  assert (setupDest dir w = (w', None)) as ->.
  { unfold setupDest, mbind, IO_bind, mret, IO_ret, os.Mkdir.
    rewrite Hp, Hd. cbv beta iota. unfold os.IsExist.
    rewrite (bool_decide_eq_false_2 (Some ErrExist = None)) by done.
    rewrite (bool_decide_eq_true_2 (Some ErrExist = Some ErrExist)) by done.
    cbn [negb orb]. rewrite Hr. exact Hl. }
  split; [done |]. intros k Hk. cbn [fst].
  destruct k as [|a k]; [done |]. cbn [node_at] in *.
  rewrite Hkeep; [done |].
  intros f Hf Hs Heq. apply Hfiles in Hf. rewrite <- Heq, Hk in Hf.
  unfold is_stale, IsRegular in Hs. apply andb_true_iff in Hs as [Hreg _].
  apply bool_decide_eq_true in Hreg. rewrite Hreg in Hf. done.
Qed.

Lemma RemoveAll_chain (w : World) (path : string) (p l : list string) :
  resolve w path = Ok p → ¬ p `prefix_of` l →
  dir_chain (fs w) l → dir_chain (fs (os.RemoveAll path w).1) l.
Proof.
  intros Hp Hnp Hc k Hk. unfold os.RemoveAll.
  destruct path as [|c path']; [by apply Hc |]. rewrite Hp. cbn [fst fs set_fs].
  pose proof (Hc k Hk) as Hd. destruct k as [|a k]; [done |]. cbn [node_at] in *.
  apply map_lookup_filter_Some. split; [done |]. cbn [fst].
  destruct (is_under p (a :: k)) eqn:Hu; [| done]. destruct Hnp.
  etrans; [| exact Hk]. clear -Hu. revert Hu. generalize (a :: k). clear.
  induction p as [|x p IH]; intros k Hu; [apply prefix_nil |].
  destruct k as [|y k]; [done |]. cbn [is_under] in Hu.
  apply andb_true_iff in Hu as [->%bool_decide_eq_true Hu].
  by apply prefix_cons, IH.
Qed.

End ChainLemmas.

Section CwdRun.

Variable build : builder → IO (outcome (string * option error)).

Hypothesis build_cwd : ∀ b w, cwd (build b w).1 = cwd w.
Hypothesis build_dirs : ∀ b w, dirs_kept (fs w) (fs (build b w).1).

Lemma run_builders_keeps (bdrs : list builder) (w : World) :
  cwd (run_builders build bdrs w).1 = cwd w
  ∧ dirs_kept (fs w) (fs (run_builders build bdrs w).1).
Proof.
  revert w; induction bdrs as [|b bdrs IH]; intros w.
  - split; [done | by intros k].
  - cbn [run_builders]. unfold mbind, IO_bind.
    pose proof (build_cwd b w) as Hc. pose proof (build_dirs b w) as Hd.
    destruct (build b w) as [w1 [r|]]; cbn [fst snd] in *; [| done].
    destruct (IH w1) as (Hc' & Hd'). split; [congruence |].
    intros k Hk. by apply Hd', Hd.
Qed.

Lemma run_in_workdir_chain (gx : goxz) (w : World) (p l : list string) :
  resolve w (Goxz.workDir gx) = Ok p → ¬ p `prefix_of` l →
  dir_chain (fs w) l →
  cwd (run_in_workdir build gx w).1 = cwd w
  ∧ dir_chain (fs (run_in_workdir build gx w).1) l.
Proof.
  intros Hp Hnp Hl. unfold run_in_workdir, defer, mbind, IO_bind, mret, IO_ret.
  destruct (Goxz.work gx) eqn:Ework; cbn [negb].
  - unfold log_Print.
    set (w1 := add_log w (LogWorkdir (Goxz.workDir gx))).
    destruct (run_builders_keeps (builders gx) w1) as (Hc & Hk).
    destruct (run_builders build (builders gx) w1) as [w2 r].
    cbn [fst snd] in *.
    assert (cwd w2 = cwd w ∧ dir_chain (fs w2) l) as Hgoal.
    { split; [done |]. by apply (dir_chain_kept (fs w)). }
    by destruct r as [[]|].
  - destruct (run_builders_keeps (builders gx) w) as (Hc & Hk).
    destruct (run_builders build (builders gx) w) as [w2 r].
    cbn [fst snd] in *.
    assert (resolve w2 (Goxz.workDir gx) = Ok p) as Hp2
        by (by apply (resolve_dirs_kept w w2)).
    assert (dir_chain (fs w2) l) as Hl2 by (by apply (dir_chain_kept (fs w))).
    pose proof (RemoveAll_chain w2 _ p l Hp2 Hnp Hl2) as Hrm.
    destruct (RemoveAll_frame w2 (Goxz.workDir gx)) as (Hrc & _ & _).
    destruct r as [[]|]; cbv beta iota;
      destruct (os.RemoveAll (Goxz.workDir gx) w2) as [w3 e];
      cbn [fst snd] in *; (split; [congruence | done]).
Qed.

Lemma run_in_projDir_chain (gx : goxz) (w : World) (l : list string) :
  well_named (fs w) → dir_chain (fs w) l →
  cwd (run_in_projDir build gx w).1 = cwd w
  ∧ dir_chain (fs (run_in_projDir build gx w).1) l.
Proof.
  intros Hwn Hl. unfold run_in_projDir, mbind, IO_bind, mret, IO_ret.
  destruct (init gx w) as [w0 [gx0 err]] eqn:Hinit.
  destruct (init_inv gx gx0 w w0 err Hinit) as [Hw0 _].
  destruct (setupDest_frame w
              (if bool_decide (Goxz.dest gx = "") then "goxz" else Goxz.dest gx)
              Hwn) as [Hc0 Hk0].
  rewrite <- Hw0 in Hc0, Hk0.
  assert (dir_chain (fs w0) l) as Hl0 by (by apply (dir_chain_kept (fs w))).
  destruct err as [e|]; [done |]. cbv beta iota.
  destruct (init_Ok gx gx0 w w0 Hinit) as (_ & _ & _ & _ & _ & _ & Hne).
  pose proof (prepareWorkdir_spec gx0 w0 Hne) as Hprep. cbv zeta in Hprep.
  destruct (prepareWorkdir gx0 w0) as [w1 [gx1 [e|]]]; cbn [fst snd] in *.
  - destruct Hprep as (Hc1 & _ & Hfs). split; [congruence |].
    intros k Hk. rewrite Hfs. by apply Hl0.
  - destruct Hprep as (Hc1 & _ & suffix & p & _ & Hp & Hnone & Hfs).
    assert (dirs_kept (fs w0) (fs w1)) as Hk1
        by (rewrite Hfs; by apply dirs_kept_insert).
    destruct (run_in_workdir_chain gx1 w1 p l) as [Hc2 Hl2].
    + by apply (resolve_dirs_kept w0 w1).
    + intros Hpre. by rewrite (Hl0 p Hpre) in Hnone.
    + by apply (dir_chain_kept (fs w0)).
    + split; [congruence | done].
Qed.

(** X12: with builders that keep the working directory of the process
    and remove no directory, in a tree whose files have real names,
    [run] ends in the working directory in which it began, with and
    without [-C], on return and on panic. *)
Theorem run_restores_cwd (args : list string) (w : World) :
  well_named (fs w) →
  Forall normal_elem (cwd w) →
  dir_chain (fs w) (cwd w) →
  cwd (run build args w).1 = cwd w.
Proof.
  intros Hwn Hn Hl. unfold run.
  destruct (parseArgs args) as [gx|e]; [| done].
  case_bool_decide as Hpd;
    [| by destruct (run_in_projDir_chain gx w (cwd w) Hwn Hl)].
  destruct (resolve_prev w w Hn Hl) as [Habs _].
  unfold mbind at 1. unfold IO_bind at 1. rewrite Habs. cbv beta iota.
  unfold mbind at 1. unfold IO_bind at 1.
  destruct (Chdir_spec w (Goxz.projDir gx)) as [Hfs Herr].
  destruct (os.Chdir (Goxz.projDir gx) w) as [w1 [e|]]; cbn [fst snd] in *;
    [by subst w1 |].
  unfold defer, mbind, IO_bind, mret, IO_ret.
  destruct (run_in_projDir_chain gx w1 (cwd w)) as [_ Hl2];
    [by rewrite Hfs | by rewrite Hfs |].
  destruct (run_in_projDir build gx w1) as [w2 r]. cbn [fst] in Hl2.
  destruct (resolve_prev w w2 Hn Hl2) as [_ Hprev].
  pose proof (Chdir_back w2 _ (cwd w) Hprev Hl2) as Hback.
  by destruct (os.Chdir _ w2) as [w3 e].
Qed.

End CwdRun.

(** X12 for a run with [-C vendor] in the sample project. *)
Lemma run_restores_cwd_witness :
  cwd (run sample_build ["-C"; "vendor"] sample_world).1 = sample_proj.
Proof.
  apply (run_restores_cwd sample_build).
  - intros b w. apply sample_build_frame.
  - intros b w. apply sample_build_frame.
  - apply sample_well_named.
  - by repeat constructor.
  - intros k [r Hr]. change (cwd sample_world) with ["home"; "u"; "proj"] in Hr.
    destruct k as [|a [|b [|c [|d k]]]]; cbn [app] in Hr; simplify_eq;
      vm_compute; reflexivity.
Defined.

(** ** The project directory under [-C] *)

Section InitErrors.

Ltac io_step' :=
  cbv beta iota zeta delta [mbind IO_bind mret IO_ret fst snd].

(** With a project directory given, an [init] whose [setupDest]
    succeeds and whose [gatherResources] fails returns the error of
    [gatherResources]. *)
Lemma init_gather_error (gx : goxz) (w : World) (e : error) :
  Goxz.projDir gx ≠ "" →
  let dest := if bool_decide (Goxz.dest gx = "") then "goxz" else Goxz.dest gx in
  (setupDest dest w).2 = None →
  (gatherResources (Goxz.projDir gx) (setupDest dest w).1).2 = Err e →
  (init gx w).2.2 = Some e.
Proof.
  intros Hne dest Hsd Hres.
  unfold init. rewrite bool_decide_eq_false_2 by done. io_step'.
  destruct (default_name_fields gx) as (_ & _ & _ & Hd1 & _ & Hj1).
  destruct (getDest_fields (default_name gx))
    as (_ & _ & _ & Hd2 & _ & Hj2 & Hdest).
  destruct (getDest (default_name gx)) as [gx2 dest'].
  cbv beta iota delta [fst snd] in Hd2, Hj2, Hdest.
  assert (dest' = dest) as -> by (by rewrite Hdest, Hd2, Hd1).
  destruct (setupDest dest w) as [w2 [e'|]]; [done |]. io_step'.
  cbn [fst snd] in Hres.
  destruct (default_os_fields gx2) as (_ & _ & _ & _ & _ & Hj3).
  destruct (default_arch_fields (default_os gx2)) as (_ & _ & _ & _ & _ & Hj4).
  set (g4 := default_arch (default_os gx2)) in *.
  rewrite resolvePlatforms_eq. io_step'.
  replace (Goxz.projDir (Goxz.set_platforms
             (uniq_by_key ∅ (cartesian (tokens (Goxz.os g4)) (tokens (Goxz.arch g4)))) g4))
    with (Goxz.projDir gx)
    by (rewrite <- Hj1, <- Hj2, <- Hj3, <- Hj4; by destruct g4).
  destruct (gatherResources (Goxz.projDir gx) w2) as [w3 [res|e']];
    cbn [fst snd] in Hres; [done |].
  by injection Hres as ->.
Qed.

End InitErrors.

Section RelativeProjDir.

Variable build : builder → IO (outcome (string * option error)).

(** X13: with [-C dir], [run] changes to the directory and then uses
    the same [dir] again, now from inside it, as the project
    directory: when the destination can be set up there, an error of
    [gatherResources(dir)] in that place is the error of [run]. *)
Theorem run_C_inside (args : list string) (gx : goxz) (w : World)
        (p : list string) (e : error) :
  parseArgs args = Ok gx →
  Goxz.projDir gx ≠ "" →
  resolve w (Goxz.projDir gx) = Ok p →
  node_at (fs w) p = Some Dir →
  let dest := if bool_decide (Goxz.dest gx = "") then "goxz" else Goxz.dest gx in
  let w1 := set_cwd w p in
  (setupDest dest w1).2 = None →
  (gatherResources (Goxz.projDir gx) (setupDest dest w1).1).2 = Err e →
  (run build args w).2 = Returned (Some e).
Proof.
  intros Hargs Hne Hp Hd dest w1 Hsd Hres.
  unfold run. rewrite Hargs. rewrite bool_decide_eq_true_2 by done.
  unfold mbind at 1. unfold IO_bind at 1.
  assert (filepath.Abs "." w
          = (w, Ok (filepath.Join ["/" +:+ join_path (cwd w); "."]))) as ->
      by done.
  cbv beta iota. unfold mbind at 1. unfold IO_bind at 1.
  assert (os.Chdir (Goxz.projDir gx) w = (w1, None)) as ->
      by (unfold os.Chdir; by rewrite Hp, Hd).
  cbv beta iota. unfold defer, mbind, IO_bind, mret, IO_ret.
  pose proof (init_gather_error gx w1 e Hne Hsd Hres) as Hinit.
  unfold run_in_projDir, mbind, IO_bind, mret, IO_ret.
  destruct (init gx w1) as [w2 [gx2 err]]. cbn [fst snd] in Hinit. subst err.
  cbv beta iota. by destruct (os.Chdir _ w2) as [w3 e3].
Qed.

End RelativeProjDir.

(** X13 in the sample project: [-C vendor] fails although [vendor] is
    a directory, because there is no [vendor/vendor]. *)
Lemma run_C_inside_witness :
  (run sample_build ["-C"; "vendor"] sample_world).2
  = Returned (Some ErrNotExist).
Proof.
  apply (run_C_inside sample_build ["-C"; "vendor"]
           (Goxz.set_pkgs ["."] (Goxz.set_projDir "vendor" parseArgs_defaults))
           sample_world (sample_proj ++ ["vendor"]) ErrNotExist);
    [reflexivity | done | reflexivity | reflexivity
     | vm_compute; reflexivity | vm_compute; reflexivity].
Defined.

(** ** The builders that [run] makes *)

Section BuilderLemmas.

Lemma Base_nonempty (path : string) : filepath.Base path ≠ "".
Proof.
  unfold filepath.Base. destruct path as [|c path]; [done |].
  destruct (rev _) as [|e l] eqn:Hrev; [done |].
  assert (e ∈ rev (filter (λ e, e ≠ "") (split_path (String c path)))) as Hin
      by (rewrite Hrev; by left).
  apply list_elem_of_In, in_rev, list_elem_of_In in Hin.
  by apply list_elem_of_filter in Hin as [? _].
Qed.

Lemma prepareWorkdir_fields (gx : goxz) (w : World) :
  ∃ d, (prepareWorkdir gx w).2.1 = Goxz.set_workDir d gx.
Proof.
  unfold prepareWorkdir, mbind, IO_bind, mret, IO_ret.
  destruct (ioutil.TempDir _ _ w) as [w1 [tmpd err]]. by exists tmpd.
Qed.

Lemma set_workDir_fields (d : string) (g : goxz) :
  Goxz.name (Goxz.set_workDir d g) = Goxz.name g
  ∧ Goxz.absPkgs (Goxz.set_workDir d g) = Goxz.absPkgs g
  ∧ Goxz.platforms (Goxz.set_workDir d g) = Goxz.platforms g
  ∧ Goxz.workDir (Goxz.set_workDir d g) = d.
Proof. by destruct g. Qed.

Lemma parseArgs_pkgs_nonempty (args : list string) (gx : goxz) :
  parseArgs args = Ok gx → Goxz.pkgs gx ≠ [].
Proof.
  intros Hargs. destruct (parseArgs_inv args gx Hargs) as (g & rest & _ & ->).
  assert (∀ l, Goxz.pkgs (Goxz.set_pkgs l g) = l) as -> by (by destruct g).
  by case_bool_decide; [| done].
Qed.

End BuilderLemmas.

(** X14: after [parseArgs], [init] and [prepareWorkdir], [run] has one
    builder for each platform and no two for the same platform; every
    builder has a name that is not empty, a platform whose OS and
    architecture are not blank, the work directory as its base, and a
    package list that is not empty: as many packages as the command
    line gave, or one. *)
Theorem builders_well_formed (args : list string) (gx gx' : goxz) (w w' : World) :
  parseArgs args = Ok gx →
  init gx w = (w', (gx', None)) →
  let gx2 := (prepareWorkdir gx' w').2.1 in
  Builder.platform <$> builders gx2 = Goxz.platforms gx'
  ∧ NoDup (Builder.platform <$> builders gx2)
  ∧ ∀ b, b ∈ builders gx2 →
      Builder.name b ≠ ""
      ∧ strings.TrimSpace (os (Builder.platform b)) ≠ ""
      ∧ strings.TrimSpace (arch (Builder.platform b)) ≠ ""
      ∧ Builder.workDirBase b = Goxz.workDir gx2
      ∧ Builder.pkgs b ≠ []
      ∧ length (Builder.pkgs b) = length (Goxz.pkgs gx).
Proof.
  intros Hargs Hinit gx2.
  destruct (init_Ok gx gx' w w' Hinit) as (_ & _ & Hname & _ & Hpkgs & Hpf & _).
  destruct (init_inv gx gx' w w' None Hinit) as [_ Hok].
  destruct (Hok eq_refl) as (_ & _ & Habs). clear Hok.
  rewrite goAbsPkgs_eq in Habs. injection Habs as Habs.
  destruct (goAbsPkgs_loop_Ok (GOPATH w') (Goxz.projDir gx') (Goxz.pkgs gx'))
    as (stuff & Hs & Hf).
  rewrite Hs in Habs. injection Habs as ->.
  apply Forall2_length in Hf. rewrite Hpkgs in Hf.
  rewrite resolvePlatforms_eq in Hpf. injection Hpf as Hpf.
  pose proof (parseArgs_pkgs_nonempty args gx Hargs) as Hne.
  destruct (prepareWorkdir_fields gx' w') as [d Hd]. subst gx2. rewrite Hd.
  clear Hd Hinit Hargs.
  destruct (set_workDir_fields d gx') as (Hn2 & Ha2 & Hp2 & Hw2).
  assert (Builder.platform <$> builders (Goxz.set_workDir d gx')
          = Goxz.platforms gx') as Hmap.
  { unfold builders. rewrite <- list_fmap_compose, Hp2. apply list_fmap_id. }
  split; [done |]. split.
  { rewrite Hmap, <- Hpf. apply uniq_by_key_NoDup. }
  intros b Hb.
  assert (Builder.platform b ∈ Goxz.platforms gx') as Hin.
  { rewrite <- Hmap. apply list_elem_of_fmap. by exists b. }
  rewrite <- Hpf in Hin. apply uniq_by_key_elem in Hin as [Hin _].
  apply cartesian_elem in Hin as [Ho Ha].
  apply tokens_not_blank in Ho, Ha.
  revert Hb Ho Ha. unfold builders.
  intros (pf & -> & _)%list_elem_of_fmap.
  cbn [Builder.name Builder.platform Builder.workDirBase Builder.pkgs].
  intros Ho Ha. rewrite Hn2, Ha2, Hw2.
  split; [rewrite Hname; case_bool_decide; [apply Base_nonempty | done] |].
  split; [done |]. split; [done |]. split; [done |].
  split; [| done].
  intros Hnil. rewrite Hnil in Hf. by destruct (Goxz.pkgs gx).
Qed.

(** X14 for a run with two operating systems in the sample project. *)
Lemma builders_well_formed_witness :
  let gx := Goxz.set_pkgs ["."] (Goxz.set_os "linux,darwin" parseArgs_defaults) in
  let r := init gx sample_world in
  NoDup (Builder.platform <$> builders (prepareWorkdir r.2.1 r.1).2.1).
Proof.
  intros gx r.
  destruct (builders_well_formed ["-os"; "linux,darwin"] gx r.2.1 sample_world r.1)
    as (_ & Hnd & _); [reflexivity | | exact Hnd].
  subst r. destruct (init gx sample_world) as [w' [gx' e]] eqn:Hinit.
  cbn [fst snd]. f_equal. f_equal.
  apply (f_equal (λ x, x.2.2)) in Hinit. cbn [snd] in Hinit. rewrite <- Hinit.
  vm_compute. reflexivity.
Defined.

(** ** The log of [setupDest] *)

Section DestLog.

Lemma Remove_logged (name : string) (w : World) :
  logged (os.Remove name w).1 = logged w.
Proof.
  unfold os.Remove. destruct (resolve w name) as [p|]; [| done].
  destruct (node_at (fs w) p) as [[]|]; try done.
  by destruct (entries (fs w) p).
Qed.

Lemma setupDest_loop_logged (dir : string) (files : list FileInfo) (w : World) :
  (setupDest_loop dir files w).2 = None →
  logged (setupDest_loop dir files w).1
  = logged w ++ ((λ f, LogRemoving (filepath.Join [dir; Name f]))
                   <$> filter (λ f, is_stale f = true) files).
Proof.
  revert w; induction files as [|f files IH]; intros w.
  - intros _. cbn. by rewrite app_nil_r.
  - rewrite filter_cons. destruct (decide (is_stale f = true)) as [Hs|Hs].
    + unfold is_stale in Hs. apply andb_true_iff in Hs as [Hreg Hpre].
      cbn [setupDest_loop]. rewrite Hreg. cbn [negb]. rewrite Hpre.
      unfold mbind, IO_bind, log_Print.
      set (w1 := add_log w (LogRemoving (filepath.Join [dir; Name f]))).
      pose proof (Remove_logged (filepath.Join [dir; Name f]) w1) as Hlog.
      destruct (os.Remove _ w1) as [w2 [e|]]; cbn [fst snd] in *; [done |].
      intros Hok. rewrite IH by done. rewrite Hlog. subst w1.
      cbn [logged add_log fmap list_fmap]. by rewrite <- app_assoc.
    + assert (setupDest_loop dir (f :: files) w = setupDest_loop dir files w)
        as ->; [| apply IH].
      cbn [setupDest_loop]. unfold is_stale in Hs.
      destruct (IsRegular (Mode f)); [| done]. cbn [negb andb] in *.
      by destruct (_ || _).
Qed.

End DestLog.

(** X15: on a destination that exists as a directory, in a tree whose
    files have real names, [setupDest] adds to the log one line for
    each file that it removes and no other line, in strictly ascending
    order of the file names. *)
Theorem setupDest_logs_removals (w : World) (dir : string) (p : list string) :
  resolve w dir = Ok p →
  node_at (fs w) p = Some Dir →
  well_named (fs w) →
  ∃ names,
    logged (setupDest dir w).1
    = logged w ++ ((λ n, LogRemoving (filepath.Join [dir; n])) <$> names)
    ∧ StronglySorted (strict String.le) names
    ∧ ∀ n, n ∈ names ↔ purged (fs w) p (p ++ [n]).
Proof.
  intros Hp Hd Hwn.
  destruct (ReadDir_Ok w dir p Hp Hd) as (files & Hr & Hfiles).
  destruct (setupDest_loop_spec dir p files w Hp Hd)
    as (w' & Hl & _).
  { by eapply ReadDir_NoDup. }
  { intros f Hf. apply Hfiles in Hf. split; [done |].
    by eapply well_named_child. }
  assert (setupDest dir w = setupDest_loop dir files w) as ->.
  { unfold setupDest, mbind, IO_bind, mret, IO_ret, os.Mkdir.
    rewrite Hp, Hd. cbv beta iota. unfold os.IsExist.
    rewrite (bool_decide_eq_false_2 (Some ErrExist = None)) by done.
    rewrite (bool_decide_eq_true_2 (Some ErrExist = Some ErrExist)) by done.
    cbn [negb orb]. by rewrite Hr. }
  exists (Name <$> filter (λ f, is_stale f = true) files). split; [| split].
  - rewrite setupDest_loop_logged by (by rewrite Hl).
    by rewrite <- list_fmap_compose.
  - apply StronglySorted_filter_names;
      [by eapply ReadDir_sorted | by eapply ReadDir_NoDup].
  - intros n. rewrite (is_stale_purged w p (p ++ [n]) files Hfiles). split.
    + intros (f & -> & [Hs Hf]%list_elem_of_filter)%list_elem_of_fmap.
      by exists f.
    + intros (f & Hf & Hs & [_ Heq]%app_inj_tail). subst n.
      apply list_elem_of_fmap. exists f. split; [done |].
      by apply list_elem_of_filter.
Qed.

(** X15 for the destination of the sample project. *)
Lemma setupDest_logs_removals_witness :
  ∃ names,
    logged (setupDest "goxz" sample_world).1
    = logged sample_world ++ ((λ n, LogRemoving (filepath.Join ["goxz"; n])) <$> names)
    ∧ StronglySorted (strict String.le) names
    ∧ ∀ n, n ∈ names ↔ purged (fs sample_world) (sample_proj ++ ["goxz"])
                                ((sample_proj ++ ["goxz"]) ++ [n]).
Proof.
  apply (setupDest_logs_removals sample_world "goxz" (sample_proj ++ ["goxz"]));
    [reflexivity | reflexivity | apply sample_well_named].
Defined.

(** ** Separators in platform names *)

Section SeparatorLemmas.

Lemma sep_rune_high (b : N) : (128 ≤ b)%N → sep_rune b = false.
Proof.
  intros Hb. unfold sep_rune, regexp.perl_space.
  by rewrite !(proj2 (N.eqb_neq _ _)) by lia.
Qed.

Lemma second_ok_high (b0 b1 : N) : utf8.second_ok b0 b1 = true → (128 ≤ b1)%N.
Proof.
  unfold utf8.second_ok, utf8.in_range.
  repeat case_match; intros [Hle _]%andb_true_iff; apply N.leb_le in Hle; lia.
Qed.

Lemma cont_ok_high (b : N) : utf8.cont_ok b = true → (128 ≤ b)%N.
Proof.
  unfold utf8.cont_ok, utf8.in_range.
  intros [H1 _]%andb_true_iff. apply N.leb_le in H1. lia.
Qed.

Lemma sep_free_take_drop (n : nat) (s : string) :
  sep_free s = sep_free (string_take n s) && sep_free (string_drop n s).
Proof.
  revert s; induction n as [|n IH]; intros s; [done |].
  destruct s as [|c s]; [done |]. cbn [sep_free string_take string_drop].
  by rewrite (IH s), andb_assoc.
Qed.

Lemma string_drop_add (n m : nat) (s : string) :
  string_drop (n + m) s = string_drop m (string_drop n s).
Proof.
  revert s; induction n as [|n IH]; intros s; [done |].
  destruct s as [|c s]; [by destruct m |]. apply IH.
Qed.

Lemma string_take_add (n m : nat) (s : string) :
  sep_free (string_take (n + m) s)
  = sep_free (string_take n s) && sep_free (string_take m (string_drop n s)).
Proof.
  revert s; induction n as [|n IH]; intros s; [done |].
  destruct s as [|c s]; [by destruct m |].
  cbn [Nat.add sep_free string_take string_drop]. by rewrite IH, andb_assoc.
Qed.

(** The bytes of a rune that is no separator are no separators. *)
Lemma decode_spec (c0 : ascii) (t0 : string) :
  let r := utf8.DecodeRuneInString (String c0 t0) in
  1 ≤ r.2
  ∧ (sep_rune r.1 = false → sep_free (string_take r.2 (String c0 t0)) = true).
Proof.
  cbv zeta. unfold utf8.DecodeRuneInString. cbv zeta.
  set (b0 := byte_val c0).
  assert (∀ c, (128 ≤ byte_val c)%N → negb (sep_rune (byte_val c)) = true) as Hhigh
      by (by intros c ->%sep_rune_high).
  destruct (b0 <? utf8.RuneSelf)%N eqn:H1.
  { cbn [fst snd string_take sep_free]. split; [done |].
    intros Hs. fold b0. by rewrite Hs. }
  apply N.ltb_ge in H1. unfold utf8.RuneSelf in H1.
  assert (sep_free (String c0 "") = true) as Hone.
  { cbn [sep_free]. by rewrite Hhigh. }
  destruct (b0 <? 194)%N; [done |].
  destruct (b0 <? 224)%N.
  { destruct t0 as [|c1 t1]; [done |].
    destruct (utf8.second_ok b0 (byte_val c1)) eqn:H2; [| done].
    apply second_ok_high in H2.
    cbn [fst snd string_take sep_free]. split; [lia |].
    intros _. by rewrite !Hhigh. }
  destruct (b0 <? 240)%N.
  { destruct t0 as [|c1 [|c2 t2]]; [done | done |].
    destruct (utf8.second_ok b0 (byte_val c1)) eqn:H2; [| done].
    destruct (utf8.cont_ok (byte_val c2)) eqn:H3; [| done].
    apply second_ok_high in H2. apply cont_ok_high in H3.
    cbn [andb fst snd string_take sep_free]. split; [lia |].
    intros _. by rewrite !Hhigh. }
  destruct (b0 <? 245)%N; [| done].
  destruct t0 as [|c1 [|c2 [|c3 t3]]]; [done | done | done |].
  destruct (utf8.second_ok b0 (byte_val c1)) eqn:H2; [| done].
  destruct (utf8.cont_ok (byte_val c2)) eqn:H3; [| done].
  destruct (utf8.cont_ok (byte_val c3)) eqn:H4; [| done].
  apply second_ok_high in H2. apply cont_ok_high in H3. apply cont_ok_high in H4.
  cbn [andb fst snd string_take sep_free]. split; [lia |].
  intros _. by rewrite !Hhigh.
Qed.

Lemma runes_from_skip (k : nat) (s : string) :
  utf8.runes_from k s = utf8.runes (string_drop k s).
Proof.
  revert s; induction k as [|k IH]; intros s; [done |].
  destruct s as [|c s]; [done |]. cbn [utf8.runes_from string_drop]. apply IH.
Qed.

Lemma runes_cons (c0 : ascii) (t0 : string) :
  let r := utf8.DecodeRuneInString (String c0 t0) in
  utf8.runes (String c0 t0)
  = r :: utf8.runes (string_drop r.2 (String c0 t0)).
Proof.
  cbv zeta. destruct (decode_spec c0 t0) as [Hw _].
  unfold utf8.runes at 1. cbn [utf8.runes_from].
  destruct (utf8.DecodeRuneInString (String c0 t0)) as [r w].
  cbn [snd] in *. rewrite runes_from_skip. f_equal.
  destruct w as [|w]; [lia |]. by replace (S w - 1) with w by lia.
Qed.

(** A text read from a string, cut in two: the second part is the
    text of the string behind the bytes of the first part; when the
    first part holds no separator, neither do its bytes. *)
Lemma runes_app (pre t' : regexp.text) (u : string) :
  utf8.runes u = pre ++ t' →
  t' = utf8.runes (string_drop (regexp.width pre) u)
  ∧ (Forall (λ rw, sep_rune rw.1 = false) pre →
     sep_free (string_take (regexp.width pre) u) = true)
  ∧ Forall (λ rw, 1 ≤ rw.2) pre.
Proof.
  revert u; induction pre as [|[r w] pre IH]; intros u Hu; [done |].
  destruct u as [|c0 t0]; [done |].
  rewrite runes_cons in Hu. cbv zeta in Hu. cbn [app] in Hu.
  destruct (decode_spec c0 t0) as [Hw Hfree].
  destruct (utf8.DecodeRuneInString (String c0 t0)) as [r0 w0].
  injection Hu as -> -> Hu. cbn [fst snd] in *.
  destruct (IH _ Hu) as (Ht' & Hpre & Hws).
  cbn [regexp.width]. split; [by rewrite string_drop_add |].
  split; [| by constructor].
  intros [Hr Hall]%Forall_cons. cbn [fst] in Hr.
  rewrite string_take_add, Hfree, Hpre by done. done.
Qed.

End SeparatorLemmas.

Section MatchLemmas.

Implicit Types t x : regexp.text.

(** What a match leaves is related to the text as what the
    continuation leaves is related to the text it gets, for a relation
    that holds on to longer texts. *)
Lemma exec_leaves (Q : regexp.text → regexp.text → Prop) (r : regexp.regex) :
  (∀ x t' t, Q x t' → t' `suffix_of` t → Q x t) →
  ∀ k, (∀ b t' x, k b t' = Some x → Q x t') →
       ∀ bot t x, regexp.exec r bot t k = Some x → Q x t.
Proof.
  intros HQ. induction r as [|p| |r1 IH1 r2 IH2|r1 IH1 r2 IH2|r1 IH1];
    intros k Hk bot t x; cbn [regexp.exec].
  - apply Hk.
  - destruct t as [|[c w] t']; [done |]. destruct (p c); [| done].
    intros Hx. apply (HQ x t'); [by eapply Hk | by apply suffix_cons_r].
  - destruct bot; [apply Hk | done].
  - apply IH1. intros b t' x'. by apply IH2.
  - destruct (regexp.exec r1 bot t k) as [y|] eqn:E.
    + intros [= <-]. by eapply IH1.
    + by apply IH2.
  - generalize (length t). intros fuel. revert bot t x.
    induction fuel as [|fuel IHf]; intros bot t x; [apply Hk |].
    match goal with
    | |- context [regexp.exec r1 bot t ?k'] =>
      destruct (regexp.exec r1 bot t k') as [y|] eqn:E
    end.
    + intros [= <-]. eapply IH1; [| exact E].
      intros b t' x'. cbv beta. destruct (length t' <? length t); [| done].
      apply IHf.
    + apply Hk.
Qed.

Lemma exec_Star_fallback (r1 : regexp.regex) (bot : bool) t
      (k : bool → regexp.text → option regexp.text) :
  k bot t ≠ None → regexp.exec (regexp.Star r1) bot t k ≠ None.
Proof.
  intros Hk. cbn [regexp.exec]. destruct (length t) as [|n]; [done |].
  match goal with
  | |- context [regexp.exec r1 bot t ?k'] =>
    by destruct (regexp.exec r1 bot t k')
  end.
Qed.

Lemma width_app (a b : regexp.text) :
  regexp.width (a ++ b) = regexp.width a + regexp.width b.
Proof.
  induction a as [|[c w] a IH]; [done |]. cbn [app regexp.width]. lia.
Qed.

Lemma width_pos (a : regexp.text) :
  a ≠ [] → Forall (λ rw, 1 ≤ rw.2) a → 1 ≤ regexp.width a.
Proof.
  destruct a as [|[c w] a]; [done |]. intros _ [Hw _]%Forall_cons.
  cbn [regexp.width snd] in *. lia.
Qed.

Lemma exec_Cat (r1 r2 : regexp.regex) (bot : bool) t
      (k : bool → regexp.text → option regexp.text) :
  regexp.exec (regexp.Cat r1 r2) bot t k
  = regexp.exec r1 bot t (λ b' t', regexp.exec r2 b' t' k).
Proof. reflexivity. Qed.

Lemma exec_Alt (r1 r2 : regexp.regex) (bot : bool) t
      (k : bool → regexp.text → option regexp.text) :
  regexp.exec (regexp.Alt r1 r2) bot t k
  = match regexp.exec r1 bot t k with
    | Some x => Some x
    | None => regexp.exec r2 bot t k
    end.
Proof. reflexivity. Qed.

Lemma exec_Class (p : N → bool) (bot : bool) (c : N) (w : nat) t
      (k : bool → regexp.text → option regexp.text) :
  regexp.exec (regexp.Class p) bot ((c, w) :: t) k
  = if p c then k false t else None.
Proof. reflexivity. Qed.

Lemma Star_leaves (bot : bool) t x :
  regexp.exec (regexp.Star (regexp.Class regexp.perl_space)) bot t
              (λ _ t'', Some t'') = Some x →
  x `suffix_of` t.
Proof.
  apply (exec_leaves (λ x t, x `suffix_of` t)).
  - intros ? ? ? ? ?. by etrans.
  - by intros _ t1 y1 [= ->].
Qed.

Lemma Star_Star_leaves (bot : bool) t x :
  regexp.exec (regexp.Star (regexp.Class regexp.perl_space)) bot t
    (λ b' t', regexp.exec (regexp.Star (regexp.Class regexp.perl_space))
                          b' t' (λ _ t'', Some t'')) = Some x →
  x `suffix_of` t.
Proof.
  apply (exec_leaves (λ x t, x `suffix_of` t)).
  - intros ? ? ? ? ?. by etrans.
  - intros b1 t1 y1. apply Star_leaves.
Qed.

(** A match of [separateReg] is not empty, and it ends within the
    text. *)
Lemma separateReg_match (bot : bool) t x :
  regexp.match_here separateReg bot t = Some x →
  ∃ mid, t = mid ++ x ∧ mid ≠ [].
Proof.
  unfold regexp.match_here, separateReg. rewrite exec_Cat. intros Hm.
  assert (x `suffix_of` t ∧ length x < length t) as [[mid ->] Hlen].
  { revert Hm.
    apply (exec_leaves (λ x t, x `suffix_of` t ∧ length x < length t)).
    { intros y t' t0 [Hs Hl] Hs'. split; [by etrans |].
      apply suffix_length in Hs'. lia. }
    intros b t' y. rewrite exec_Cat, exec_Alt. unfold regexp.Plus.
    rewrite exec_Cat.
    destruct t' as [|[c w] t'']; [done |]. rewrite !exec_Class.
    destruct (regexp.perl_space c).
    - destruct (regexp.exec _ false t'' _) as [z|] eqn:E.
      + intros [= <-]. apply Star_Star_leaves in E.
        split; [by apply suffix_cons_r |].
        apply suffix_length in E. cbn [length]. lia.
      + destruct (regexp.is_rune "," c); [| done].
        intros E'%Star_leaves. split; [by apply suffix_cons_r |].
        apply suffix_length in E'. cbn [length]. lia.
    - destruct (regexp.is_rune "," c); [| done].
      intros E'%Star_leaves. split; [by apply suffix_cons_r |].
      apply suffix_length in E'. cbn [length]. lia. }
  exists mid. split; [done |]. intros ->. cbn [app] in Hlen. lia.
Qed.

(** [separateReg] matches at every separator. *)
Lemma separateReg_at_sep (bot : bool) (c : N) (w : nat) t :
  sep_rune c = true →
  regexp.match_here separateReg bot ((c, w) :: t) ≠ None.
Proof.
  intros Hc. unfold regexp.match_here, separateReg. rewrite exec_Cat.
  apply exec_Star_fallback. rewrite exec_Cat, exec_Alt. unfold regexp.Plus.
  rewrite exec_Cat, !exec_Class.
  assert (∀ b t0, regexp.exec (regexp.Star (regexp.Class regexp.perl_space)) b t0
                    (λ _ t'', Some t'') ≠ None) as Hlast
      by (intros b t0; by apply exec_Star_fallback).
  destruct (regexp.perl_space c) eqn:Hs.
  - destruct (regexp.exec _ false t _) as [z|] eqn:E; [done |].
    exfalso. revert E. apply exec_Star_fallback, Hlast.
  - unfold sep_rune in Hc. rewrite Hs, orb_false_r in Hc.
    change (regexp.is_rune "," c) with (c =? 44)%N. rewrite Hc. apply Hlast.
Qed.

(** The leftmost match of [separateReg] lies behind runes that are no
    separators, and it is not empty; when there is no match, the text
    holds no separator. *)
Lemma search_spec (bot : bool) (off : nat) t :
  match regexp.search separateReg bot off t with
  | Some (b, e, rest) =>
    ∃ pre mid,
      t = pre ++ mid ++ rest ∧ mid ≠ []
      ∧ Forall (λ rw, sep_rune rw.1 = false) pre
      ∧ b = off + regexp.width pre
      ∧ e = b + regexp.width mid
  | None => Forall (λ rw, sep_rune rw.1 = false) t
  end.
Proof.
  revert bot off; induction t as [|[c w] t IH]; intros bot off.
  - cbn [regexp.search].
    destruct (regexp.match_here separateReg bot []) as [x|] eqn:E; [| done].
    apply separateReg_match in E as (mid & Hm & Hne). by destruct mid.
  - cbn [regexp.search].
    destruct (regexp.match_here separateReg bot ((c, w) :: t)) as [x|] eqn:E.
    + destruct (separateReg_match _ _ _ E) as (mid & Hm & Hne).
      exists [], mid. split; [done |]. split; [done |]. split; [done |].
      split; [cbn; lia |]. rewrite Hm, width_app. cbn [regexp.width]. lia.
    + assert (sep_rune c = false) as Hc.
      { destruct (sep_rune c) eqn:Hc; [| done].
        by destruct (separateReg_at_sep bot c w t Hc). }
      specialize (IH false (off + w)).
      destruct (regexp.search separateReg false (off + w) t) as [[[b e] rest]|].
      * destruct IH as (pre & mid & -> & Hne & Hpre & -> & ->).
        exists ((c, w) :: pre), mid. split; [done |]. split; [done |].
        split; [by constructor |]. cbn [regexp.width]. lia.
      * by constructor.
Qed.

End MatchLemmas.

Section SplitLemmas.

Lemma string_drop_length (n : nat) (s : string) :
  String.length (string_drop n s) = String.length s - n.
Proof.
  revert s; induction n as [|n IH]; intros s; [cbn; lia |].
  destruct s as [|c s]; [done |]. apply IH.
Qed.

(** A string whose runes are no separators holds no separator. *)
Lemma runes_sep_free (n : nat) (u : string) :
  String.length u ≤ n →
  Forall (λ rw, sep_rune rw.1 = false) (utf8.runes u) → sep_free u = true.
Proof.
  revert u; induction n as [|n IH]; intros u Hlen Hall.
  { by destruct u; [| cbn in Hlen; lia]. }
  destruct u as [|c0 t0]; [done |].
  rewrite runes_cons in Hall. cbv zeta in Hall.
  destruct (decode_spec c0 t0) as [Hw Hfree].
  destruct (utf8.DecodeRuneInString (String c0 t0)) as [r w].
  cbn [fst snd] in *. apply Forall_cons in Hall as [Hr Hall].
  rewrite (sep_free_take_drop w), Hfree by done. cbn [andb].
  apply IH; [| done]. rewrite string_drop_length. cbn [String.length] in *. lia.
Qed.

(** The pieces between the matches of [separateReg] hold no
    separator. *)
Lemma split_pieces (s : string) (fuel : nat) :
  ∀ (bot : bool) (pos : nat) (prev : option nat) (t : regexp.text)
    (end_ : nat) (piece : string),
    t = utf8.runes (string_drop pos s) →
    length t < fuel →
    piece ∈ regexp.split_loop s
              (regexp.allMatches separateReg fuel bot pos prev t) pos end_ →
    sep_free piece = true.
Proof.
  induction fuel as [|fuel IH]; intros bot pos prev t end_ piece Ht Hlen;
    [lia |].
  cbn [regexp.allMatches].
  pose proof (search_spec bot pos t) as Hs.
  destruct (regexp.search separateReg bot pos t) as [[[b e] rest]|].
  - destruct Hs as (pre & mid & Hsplit & Hne & Hpre & -> & ->).
    rewrite app_assoc in Hsplit.
    destruct (runes_app (pre ++ mid) rest (string_drop pos s)) as (Hrest & _ & Hws);
      [by rewrite <- Ht |].
    destruct (runes_app pre (mid ++ rest) (string_drop pos s)) as (_ & Hfree & _);
      [by rewrite <- Ht, Hsplit, <- app_assoc |].
    apply Forall_app in Hws as [_ Hws].
    pose proof (width_pos mid Hne Hws) as Hmid.
    rewrite (proj2 (Nat.eqb_neq _ _)) by lia.
    cbn [regexp.split_loop]. intros [Hin|Hin]%elem_of_app.
    + destruct (_ =? 0); [by apply elem_of_nil in Hin |].
      apply list_elem_of_singleton in Hin as ->. unfold slice.
      replace (pos + regexp.width pre - pos) with (regexp.width pre) by lia.
      by apply Hfree.
    + revert Hin. apply IH.
      * rewrite Hrest, width_app, <- string_drop_add. f_equal. f_equal. lia.
      * rewrite Hsplit, !length_app in Hlen.
        destruct mid; [done |]. cbn [length] in Hlen. lia.
  - cbn [regexp.split_loop]. destruct (_ =? _); [by intros ?%elem_of_nil |].
    intros ->%list_elem_of_singleton.
    apply (runes_sep_free (String.length (string_drop pos s))); [done |].
    by rewrite <- Ht.
Qed.

Lemma Split_sep_free (s piece : string) :
  piece ∈ regexp.Split separateReg s → sep_free piece = true.
Proof.
  unfold regexp.Split, regexp.FindAllStringIndex.
  destruct s as [|c s]; [by intros ->%list_elem_of_singleton |].
  apply split_pieces; [done | lia].
Qed.

End SplitLemmas.

(** X16: no platform that [resolvePlatforms] returns has a comma or a
    white space character of [\s] (space, tab, line feed, form feed,
    carriage return) in its OS or in its architecture. *)
Theorem resolvePlatforms_no_separator (os_list arch_list : string)
        (pfs : list platform) (pf : platform) :
  resolvePlatforms os_list arch_list = Ok pfs →
  pf ∈ pfs →
  sep_free (os pf) = true ∧ sep_free (arch pf) = true.
Proof.
  rewrite resolvePlatforms_eq. intros [= <-] [Hpf _]%uniq_by_key_elem.
  apply cartesian_elem in Hpf as [Ho Ha].
  apply list_elem_of_filter in Ho as [_ Ho], Ha as [_ Ha].
  split; by eapply Split_sep_free.
Qed.

(** X16 for a list with mixed separators. *)
Lemma resolvePlatforms_no_separator_witness :
  sep_free (os (Platform "linux" "arm64")) = true
  ∧ sep_free (arch (Platform "linux" "arm64")) = true.
Proof.
  apply (resolvePlatforms_no_separator "linux , darwin" "amd64  arm64"
           [Platform "linux" "amd64"; Platform "linux" "arm64";
            Platform "darwin" "amd64"; Platform "darwin" "arm64"]).
  - vm_compute. reflexivity.
  - right. left.
Defined.
